(** * A shallow embedding of the arbitrage engine's core

  The development follows the Go packages of the repository:
  [internal/domain] (fixed-point prices, order statuses, books),
  [internal/marketdata], [internal/risk], [internal/order],
  [internal/gateway/simulated], [internal/costmodel],
  [internal/strategy], [internal/execution], [internal/portfolio] and
  [internal/monitor].

  Numbers are modelled the way the code holds them: [int64] values are
  integers with the wrap-around of Go written out, and
  [decimal.Decimal] values are a coefficient and a power-of-ten
  exponent, with the arithmetic of the decimal package the code imports. *)

From Stdlib Require Import ZArith QArith Qabs Qpower Qminmax Lia Lqa Bool List.

From Stdlib Require Import Ascii String.

From Stdlib Require Import Sorted.

From stdpp Require Import gmap strings list fin_maps.

Local Open Scope Z_scope.

(** ** Machine integers *)

Module Int64.

Definition min_int : Z := - 2 ^ 63.

Definition max_int : Z := 2 ^ 63 - 1.

(** Two's complement reduction of a mathematical integer to [int64]. *)
Definition wrap (z : Z) : Z := (z + 2 ^ 63) mod 2 ^ 64 - 2 ^ 63.

Definition in_range (z : Z) : Prop := min_int <= z <= max_int.

Definition add (a b : Z) : Z := wrap (a + b).

Definition sub (a b : Z) : Z := wrap (a - b).

Definition mul (a b : Z) : Z := wrap (a * b).

(** Go's [/] on integers truncates toward zero; the only overflowing
    quotient, [min_int / -1], wraps. A zero divisor is a run-time panic,
    so callers guard it; [Z.quot] gives [0] there. *)
Definition quo (a b : Z) : Z := wrap (Z.quot a b).

(** [Int64] of a [big.Int]: the low 64 bits of the magnitude, reinterpreted
    as [int64], negated for a negative number. *)
Definition of_big (x : Z) : Z :=
  let v := wrap (Z.abs x mod 2 ^ 64) in
  if x <? 0 then wrap (- v) else v.

End Int64.

(** ** Decimals

  [decimal.Decimal] of the imported decimal package: an arbitrary
  precision coefficient and a power-of-ten exponent. The operations
  below are the ones the engine calls, with the package's arithmetic:
  addition and comparison bring both operands to the smaller exponent,
  multiplication adds exponents, [IntPart] truncates toward zero and
  [Div] rounds the quotient to [DivisionPrecision] fractional digits,
  half away from zero. The exponent, an [int32] in the package, is an
  unbounded integer here. *)

Module decimal.

Record Decimal : Type := New { value : Z; exp : Z }.

Definition Zero : Decimal := New 0 1.

Definition NewFromInt (v : Z) : Decimal := New v 0.

Definition DivisionPrecision : Z := 16.

Definition rescale (e : Z) (d : Decimal) : Decimal :=
  if exp d =? e then d
  else if exp d <? e
       then New (Z.quot (value d) (10 ^ (e - exp d))) e
       else New (value d * 10 ^ (exp d - e)) e.

Definition RescalePair (d1 d2 : Decimal) : Decimal * Decimal :=
  if exp d1 <? exp d2 then (d1, rescale (exp d1) d2)
  else if exp d2 <? exp d1 then (rescale (exp d2) d1, d2)
       else (d1, d2).

Definition Add (d d2 : Decimal) : Decimal :=
  let '(rd, rd2) := RescalePair d d2 in New (value rd + value rd2) (exp rd).

Definition Sub (d d2 : Decimal) : Decimal :=
  let '(rd, rd2) := RescalePair d d2 in New (value rd - value rd2) (exp rd).

Definition Neg (d : Decimal) : Decimal := New (- value d) (exp d).

Definition Abs (d : Decimal) : Decimal :=
  if value d <? 0 then Neg d else d.

Definition Mul (d d2 : Decimal) : Decimal :=
  New (value d * value d2) (exp d + exp d2).

Definition Cmp (d d2 : Decimal) : comparison :=
  let '(rd, rd2) := RescalePair d d2 in value rd ?= value rd2.

Definition Equal (d d2 : Decimal) : bool :=
  match Cmp d d2 with Eq => true | _ => false end.

Definition GreaterThan (d d2 : Decimal) : bool :=
  match Cmp d d2 with Gt => true | _ => false end.

Definition GreaterThanOrEqual (d d2 : Decimal) : bool :=
  match Cmp d d2 with Lt => false | _ => true end.

Definition LessThan (d d2 : Decimal) : bool :=
  match Cmp d d2 with Lt => true | _ => false end.

Definition LessThanOrEqual (d d2 : Decimal) : bool :=
  match Cmp d d2 with Gt => false | _ => true end.

Definition IsZero (d : Decimal) : bool := value d =? 0.

Definition IsPositive (d : Decimal) : bool := 0 <? value d.

(** [decimal.Min(first, rest...)] with one further argument. *)
Definition Min (first item : Decimal) : Decimal :=
  match Cmp item first with Lt => item | _ => first end.

Definition IntPart (d : Decimal) : Z := Int64.of_big (value (rescale 0 d)).

(** [QuoRem]: quotient [q] a multiple of [10^(-precision)] and the
    integer remainder it leaves, both from one truncating division of
    the operands brought to a common scale. *)
Definition QuoRem_operands (d d2 : Decimal) (precision : Z) : Z * Z :=
  let e := exp d - exp d2 + precision in
  if e <? 0 then (value d, value d2 * 10 ^ (- e))
  else (value d * 10 ^ e, value d2).

Definition DivRound (d d2 : Decimal) (precision : Z) : Decimal :=
  let '(aa, bb) := QuoRem_operands d d2 precision in
  let q := Z.quot aa bb in
  let r := Z.rem aa bb in
  if 2 * Z.abs r <? Z.abs bb then New q (- precision)
  else if Z.sgn (value d) * Z.sgn (value d2) <? 0
       then New (q - 1) (- precision)
       else New (q + 1) (- precision).

(** [Div] panics on a zero divisor: [None]. *)
Definition Div (d d2 : Decimal) : option Decimal :=
  if value d2 =? 0 then None else Some (DivRound d d2 DivisionPrecision).

(** *** The rational number a decimal stands for *)

Definition ten : Q := inject_Z 10.

Definition toQ (d : Decimal) : Q := (inject_Z (value d) * ten ^ exp d)%Q.

(** *** Division: the rounded quotient *)

Definition round_half_away (aa bb : Z) : Z :=
  let q := Z.quot aa bb in
  let r := Z.rem aa bb in
  if 2 * Z.abs r <? Z.abs bb then q
  else if Z.sgn aa * Z.sgn bb <? 0 then q - 1 else q + 1.

End decimal.

(** ** Run-time failures

  A Go function either returns or panics; [outcome] records which, so
  that "does not panic" is a statement about the embedded code. *)

Inductive panic : Type :=
| DivideByZero        (* integer or decimal division by zero *)
| NilDereference.     (* field access through a nil pointer *)

Inductive outcome (A : Type) : Type :=
| Ok (a : A)
| Panic (p : panic).

Arguments Ok {A} a.

Arguments Panic {A} p.

Definition bind {A B : Type} (m : outcome A) (k : A -> outcome B) : outcome B :=
match m with
| Ok a => k a
| Panic p => Panic p
end.

Notation "'let*' x ':=' m 'in' k" := (bind m (fun x => k))
(at level 10, x name, m at level 100, k at level 200).

Definition of_option {A : Type} (p : panic) (o : option A) : outcome A :=
match o with
| Some a => Ok a
| None => Panic p
end.

(** ** Package [domain] *)

Module domain.

Import decimal.

(** *** Fixed-point prices (scale [10^9]) *)

Definition PricePrecision : Z := 1000000000.

Definition pricePrecisionDec : Decimal := NewFromInt PricePrecision.

(** Integer division as Go executes it: a zero divisor panics. *)
Definition int64_div (a b : Z) : outcome Z :=
  if b =? 0 then Panic DivideByZero else Ok (Int64.quo a b).

Module FixedPrice.

(** [type FixedPrice int64] *)
Definition t : Type := Z.

Definition Add (f other : t) : t := Int64.add f other.
Definition Sub (f other : t) : t := Int64.sub f other.

Definition Mul (f other : t) : outcome t :=
  int64_div (Int64.mul f other) PricePrecision.

Definition Div (f other : t) : outcome t :=
  if other =? 0 then Ok 0
  else int64_div (Int64.mul f PricePrecision) other.

Definition GT (f other : t) : bool := other <? f.
Definition GTE (f other : t) : bool := other <=? f.
Definition LT (f other : t) : bool := f <? other.
Definition LTE (f other : t) : bool := f <=? other.

Definition ToDecimal (f : t) : Decimal := New f (-9).

End FixedPrice.

Definition ToFixed (d : Decimal) : FixedPrice.t :=
  IntPart (Mul d pricePrecisionDec).

Definition FixedFromBps (bps : Z) : outcome FixedPrice.t :=
  int64_div (Int64.mul bps PricePrecision) 10000.

(** *** Enumerations *)

Inductive Side : Type := SideBuy | SideSell.

Inductive InstrumentType : Type := InstrumentSpot | InstrumentPerp.

Inductive OrderType : Type := OrderTypeLimit | OrderTypeMarket.

Inductive StrategyType : Type := StrategyTriArb | StrategyBasisArb.

(** [OrderStatusUnset] is the empty string, the previous status the
    order manager publishes for a newly created order. *)
Inductive OrderStatus : Type :=
| OrderStatusUnset
| OrderStatusPendingNew
| OrderStatusSubmitted
| OrderStatusAcknowledged
| OrderStatusPartialFill
| OrderStatusFilled
| OrderStatusCancelled
| OrderStatusRejected
| OrderStatusSubmitFailed.

Definition IsTerminal (s : OrderStatus) : bool :=
  match s with
  | OrderStatusFilled | OrderStatusCancelled
  | OrderStatusRejected | OrderStatusSubmitFailed => true
  | _ => false
  end.

Inductive RiskMode : Type :=
| RiskModeNormal
| RiskModeWarning
| RiskModeDegraded
| RiskModeDataStale
| RiskModeHalted.

#[export] Instance Side_eq_dec : EqDecision Side.
Proof. solve_decision. Defined.

#[export] Instance OrderType_eq_dec : EqDecision OrderType.
Proof. solve_decision. Defined.

#[export] Instance OrderStatus_eq_dec : EqDecision OrderStatus.
Proof. solve_decision. Defined.

#[export] Instance RiskMode_eq_dec : EqDecision RiskMode.
Proof. solve_decision. Defined.

(** *** Books *)

Module PriceLevel.
Record t : Type := mk { Price : Decimal; Size : Decimal }.
End PriceLevel.

(** Times are nanoseconds on one clock. *)
Module OrderBookSnapshot.
Record t : Type := mk {
  Venue : string;
  Symbol : string;
  Bids : list PriceLevel.t;
  Asks : list PriceLevel.t;
  Sequence : Z;
  VenueTimestamp : Z;
  LocalTimestamp : Z
}.

Definition BestBid (ob : t) : option PriceLevel.t := head (Bids ob).
Definition BestAsk (ob : t) : option PriceLevel.t := head (Asks ob).
(** [MidPrice]: the mean of the best bid and the best ask; [None] stands
    for the [false] of the second result. *)
Definition MidPrice (ob : t) : outcome (option Decimal) :=
  match BestBid ob, BestAsk ob with
  | Some bid, Some ask =>
      let* mid :=
        of_option DivideByZero
          (Div (Add (PriceLevel.Price bid) (PriceLevel.Price ask)) (NewFromInt 2)) in
      Ok (Some mid)
  | _, _ => Ok None
  end.

End OrderBookSnapshot.

Module OrderBookDelta.
Record t : Type := mk {
  Venue : string;
  Symbol : string;
  Bids : list PriceLevel.t;
  Asks : list PriceLevel.t;
  Sequence : Z;
  VenueTimestamp : Z;
  LocalTimestamp : Z
}.
End OrderBookDelta.

(** *** Signals and orders *)

Module CostEstimate.
Record t : Type := mk {
  FeeBps : Decimal;
  SlippageBps : Decimal;
  FundingBps : option Decimal;
  TotalBps : Decimal;
  Confidence : Decimal
}.
End CostEstimate.

Module LegSpec.
Record t : Type := mk {
  Symbol : string;
  Side : domain.Side;
  InstrumentType : domain.InstrumentType;
  Price : Decimal;
  Size : Decimal;
  OrderType : domain.OrderType
}.
End LegSpec.

Module TradeSignal.
Record t : Type := mk {
  SignalID : Z;
  Strategy : StrategyType;
  Venue : string;
  Legs : list LegSpec.t;
  ExpectedEdgeBps : Decimal;
  CostEstimate : domain.CostEstimate.t;
  Confidence : Decimal;
  CreatedAt : Z;
  MarketDataTimestamp : Z
}.
End TradeSignal.

Module Order.
Record t : Type := mk {
  InternalID : Z;
  VenueID : string;
  SignalID : Z;
  Venue : string;
  Symbol : string;
  Side : domain.Side;
  OrderType : domain.OrderType;
  Price : Decimal;
  Size : Decimal;
  FilledSize : Decimal;
  AvgFillPrice : Decimal;
  Status : OrderStatus;
  CreatedAt : Z;
  UpdatedAt : Z
}.
End Order.

Module OrderRequest.
Record t : Type := mk {
  InternalID : Z;
  SignalID : Z;
  Venue : string;
  Symbol : string;
  Side : domain.Side;
  InstrumentType : domain.InstrumentType;
  OrderType : domain.OrderType;
  Price : Decimal;
  Size : Decimal;
  IdempotencyKey : string
}.
End OrderRequest.

Module OrderAck.
Record t : Type := mk {
  InternalID : Z;
  VenueID : string;
  Status : OrderStatus;
  Timestamp : Z
}.
End OrderAck.

Module OrderStateChange.
Record t : Type := mk {
  Order : domain.Order.t;
  PrevStatus : OrderStatus;
  NewStatus : OrderStatus;
  Timestamp : Z
}.
End OrderStateChange.

Module Position.
Record t : Type := mk {
  Venue : string;
  Asset : string;
  InstrumentType : domain.InstrumentType;
  Size : Decimal;
  EntryPrice : Decimal;
  UnrealizedPnL : Decimal;
  MarginUsed : Decimal;
  UpdatedAt : Z
}.
End Position.

Module FeeTier.
Record t : Type := mk {
  MakerFeeBps : Decimal;
  TakerFeeBps : Decimal;
  Venue : string;
  UpdatedAt : Z
}.
End FeeTier.

Module FundingRate.
Record t : Type := mk {
  Venue : string;
  Symbol : string;
  Rate : Decimal;
  Timestamp : Z;
  NextTime : Z
}.
End FundingRate.

(** *** Trades and balances *)

Module Trade.
Record t : Type := mk {
  Venue : string;
  Symbol : string;
  Price : Decimal;
  Size : Decimal;
  Side : domain.Side;
  Timestamp : Z;
  TradeID : string
}.
End Trade.

Module Balance.
Record t : Type := mk {
  Venue : string;
  Asset : string;
  Free : Decimal;
  Locked : Decimal;
  Total : Decimal
}.
End Balance.

End domain.

(** ** Package [marketdata] *)

Module marketdata.

Import decimal domain.

(** What the service sends out: it holds an event bus and a logger, and
    no gateway. *)
Inductive effect : Type :=
| PublishOrderBook (snap : OrderBookSnapshot.t).

Record Service : Type := mkService {
  books : gmap string OrderBookSnapshot.t;
  lastUpdate : gmap string Z;
  staleDuration : Z;
  blockDuration : Z
}.

Definition NewService (staleDuration blockDuration : Z) : Service :=
  mkService ∅ ∅ staleDuration blockDuration.

Definition bookKey (venue symbol : string) : string :=
  venue +:+ ":" +:+ symbol.

Definition UpdateOrderBook (now : Z) (snap : OrderBookSnapshot.t)
    (s : Service) : Service * list effect :=
  let key := bookKey (OrderBookSnapshot.Venue snap) (OrderBookSnapshot.Symbol snap) in
  let snap :=
    OrderBookSnapshot.mk
      (OrderBookSnapshot.Venue snap) (OrderBookSnapshot.Symbol snap)
      (OrderBookSnapshot.Bids snap) (OrderBookSnapshot.Asks snap)
      (OrderBookSnapshot.Sequence snap) (OrderBookSnapshot.VenueTimestamp snap)
      now in
  (mkService (<[key := snap]> (books s)) (<[key := now]> (lastUpdate s))
             (staleDuration s) (blockDuration s),
   [PublishOrderBook snap]).

(** The inner loop of [applyLevelDeltas]: the first level at the delta's
    price is removed (zero size) or resized; [None] when no level has
    that price. *)
Fixpoint applyLevelDelta (levels : list PriceLevel.t) (d : PriceLevel.t)
    : option (list PriceLevel.t) :=
  match levels with
  | [] => None
  | l :: rest =>
      if Equal (PriceLevel.Price l) (PriceLevel.Price d) then
        if IsZero (PriceLevel.Size d) then Some rest
        else Some (PriceLevel.mk (PriceLevel.Price l) (PriceLevel.Size d) :: rest)
      else option_map (cons l) (applyLevelDelta rest d)
  end.

(** [sortLevels] is an insertion sort: each level moves left past the
    neighbours it strictly beats. [bubble] works on the reversed prefix. *)
Definition swaps (descending : bool) (x y : PriceLevel.t) : bool :=
  if descending then GreaterThan (PriceLevel.Price x) (PriceLevel.Price y)
  else LessThan (PriceLevel.Price x) (PriceLevel.Price y).

Fixpoint bubble (descending : bool) (x : PriceLevel.t)
    (rev_prefix : list PriceLevel.t) : list PriceLevel.t :=
  match rev_prefix with
  | [] => [x]
  | y :: rest =>
      if swaps descending x y then y :: bubble descending x rest
      else x :: y :: rest
  end.

Definition sortLevels (levels : list PriceLevel.t) (descending : bool)
    : list PriceLevel.t :=
  rev (fold_left (fun rev_prefix x => bubble descending x rev_prefix) levels []).

Definition applyLevelDeltas (levels deltas : list PriceLevel.t)
    (descending : bool) : list PriceLevel.t :=
  let merged :=
    fold_left
      (fun levels d =>
         match applyLevelDelta levels d with
         | Some levels' => levels'
         | None =>
             if IsZero (PriceLevel.Size d) then levels else levels ++ [d]
         end)
      deltas levels in
  sortLevels merged descending.

Definition ApplyDelta (now : Z) (delta : OrderBookDelta.t) (s : Service)
    : Service * list effect :=
  let key := bookKey (OrderBookDelta.Venue delta) (OrderBookDelta.Symbol delta) in
  let book :=
    match books s !! key with
    | Some book => book
    | None =>
        OrderBookSnapshot.mk (OrderBookDelta.Venue delta)
                             (OrderBookDelta.Symbol delta) [] [] 0 0 0
    end in
  let book :=
    OrderBookSnapshot.mk
      (OrderBookSnapshot.Venue book) (OrderBookSnapshot.Symbol book)
      (applyLevelDeltas (OrderBookSnapshot.Bids book) (OrderBookDelta.Bids delta) true)
      (applyLevelDeltas (OrderBookSnapshot.Asks book) (OrderBookDelta.Asks delta) false)
      (OrderBookDelta.Sequence delta)
      (OrderBookDelta.VenueTimestamp delta)
      now in
  (mkService (<[key := book]> (books s)) (<[key := now]> (lastUpdate s))
             (staleDuration s) (blockDuration s),
   [PublishOrderBook book]).

Definition GetOrderBook (s : Service) (venue symbol : string)
    : option OrderBookSnapshot.t :=
  books s !! bookKey venue symbol.

(** [time.Since(t)] at the instant [now]. *)
Definition IsDataFresh (now : Z) (s : Service) (venue symbol : string) : bool :=
  match lastUpdate s !! bookKey venue symbol with
  | None => false
  | Some t => now - t <? staleDuration s
  end.

Definition IsDataBlocked (now : Z) (s : Service) (venue symbol : string) : bool :=
  match lastUpdate s !! bookKey venue symbol with
  | None => true
  | Some t => blockDuration s <? now - t
  end.

(** *** Sequence numbers *)


Definition example_book : OrderBookSnapshot.t :=
OrderBookSnapshot.mk "nobitex" "BTC/USDT"
[PriceLevel.mk (NewFromInt 50000) (NewFromInt 1)]
[PriceLevel.mk (NewFromInt 50001) (NewFromInt 1)] 5 0 0.

Definition example_service : Service :=
fst (UpdateOrderBook 0 example_book (NewService 500000000 2000000000)).

Definition example_gap_delta : OrderBookDelta.t :=
OrderBookDelta.mk "nobitex" "BTC/USDT"
[PriceLevel.mk (NewFromInt 49999) (NewFromInt 2)] [] 10 0 0.

(** *** The shape of a side of a book *)

Definition price_of (l : PriceLevel.t) : Q := toQ (PriceLevel.Price l).

(** [x] may stand before [y]: bids run from the highest price down, asks
    from the lowest price up. *)
Definition before (descending : bool) (x y : PriceLevel.t) : Prop :=
if descending then (price_of y <= price_of x)%Q else (price_of x <= price_of y)%Q.

Definition sorted (descending : bool) (levels : list PriceLevel.t) : Prop :=
StronglySorted (before descending) levels.

(** One level per price, and no level of size zero. *)
Definition well_formed (levels : list PriceLevel.t) : Prop :=
NoDup (map (fun l => Qred (price_of l)) levels) /\
Forall (fun l => IsZero (PriceLevel.Size l) = false) levels.

(** The venues whose names hold no colon. *)
Definition no_colon (s : string) : Prop :=
forall a b : string, s <> a +:+ ":" +:+ b.

(** The body of the loop of [applyLevelDeltas] for one delta. *)
Definition applyOne (levels : list PriceLevel.t) (d : PriceLevel.t)
    : list PriceLevel.t :=
match applyLevelDelta levels d with
| Some levels' => levels'
| None => if IsZero (PriceLevel.Size d) then levels else levels ++ [d]
end.

(** A side read as a map from prices to sizes: the size of the first
    level at price [p]. *)
Definition size_at (p : Q) (levels : list PriceLevel.t) : option Decimal :=
option_map PriceLevel.Size (find (fun l => Qeq_bool (price_of l) p) levels).

(** What a delta says about price [p]: a new size, a removal (size
    zero), or nothing. *)
Definition overwrite (p : Q) (size : option Decimal) (d : PriceLevel.t)
    : option Decimal :=
if Qeq_bool (price_of d) p
then (if IsZero (PriceLevel.Size d) then None else Some (PriceLevel.Size d))
else size.

(** *** The ring buffer of trades *)

(** What a method of the buffer comes to: a value, or one of the two
    run-time panics of slice indexing. *)
Inductive indexed (A : Type) : Type :=
| Slot (a : A)
| ModuloByZero
| IndexOutOfRange.

Arguments Slot {A} a.

Arguments ModuloByZero {A}.

Arguments IndexOutOfRange {A}.

Definition uint64 (z : Z) : Z := z mod 2 ^ 64.

Module TradeRingBuffer.

(** The slots hold pointers to trades, [None] for nil; [head] counts the
    pushes in a [uint64]. *)
Record t : Type := mk {
  trades : list (option Trade.t);
  head : Z;
  cap : Z
}.

(** [rb.trades[i % rb.cap]]: the position of the slot. *)
Definition slot (rb : t) (i : Z) : indexed nat :=
  if cap rb =? 0 then ModuloByZero
  else
    let k := Z.to_nat (i mod cap rb) in
    if (k <? length (trades rb))%nat then Slot k else IndexOutOfRange.

Definition Push (trade : option Trade.t) (rb : t) : indexed t :=
  let head' := uint64 (head rb + 1) in
  let idx := uint64 (head' - 1) in
  match slot rb idx with
  | Slot k => Slot (mk (<[k := trade]> (trades rb)) head' (cap rb))
  | ModuloByZero => ModuloByZero
  | IndexOutOfRange => IndexOutOfRange
  end.

(** The loop of [Recent]: [steps] slots from index [i] on, the nil ones
    skipped. *)
Fixpoint collect (rb : t) (i : Z) (steps : nat) : indexed (list Trade.t) :=
  match steps with
  | O => Slot []
  | S steps =>
      match slot rb i with
      | Slot k =>
          match collect rb (i + 1) steps with
          | Slot result =>
              match trades rb !! k with
              | Some (Some trade) => Slot (trade :: result)
              | _ => Slot result
              end
          | ModuloByZero => ModuloByZero
          | IndexOutOfRange => IndexOutOfRange
          end
      | ModuloByZero => ModuloByZero
      | IndexOutOfRange => IndexOutOfRange
      end
  end.

Definition Recent (n : Z) (rb : t) : indexed (list Trade.t) :=
  if head rb =? 0 then Slot []
  else
    let count := uint64 n in
    let count := if cap rb <? count then cap rb else count in
    let count := if head rb <? count then head rb else count in
    let start := head rb - count in
    collect rb start (Z.to_nat (head rb - start)).

(** The result is an [int]. *)
Definition Len (rb : t) : Z :=
  if cap rb <? head rb then Int64.wrap (cap rb) else Int64.wrap (head rb).

End TradeRingBuffer.

(** [make] panics on a negative length: [None]. *)
Definition NewTradeRingBuffer (capacity : Z) : option TradeRingBuffer.t :=
if capacity <? 0 then None
else Some (TradeRingBuffer.mk (replicate (Z.to_nat capacity) None) 0 (uint64 capacity)).

(** Pushes in a row, as [RecordTrade] makes them on one feed. *)
Fixpoint PushAll (pushed : list Trade.t) (rb : TradeRingBuffer.t)
    : indexed TradeRingBuffer.t :=
match pushed with
| [] => Slot rb
| trade :: rest =>
    match TradeRingBuffer.Push (Some trade) rb with
    | Slot rb => PushAll rest rb
    | ModuloByZero => ModuloByZero
    | IndexOutOfRange => IndexOutOfRange
    end
end.

(** What the buffer is meant to hold after the pushes [pushed]: their
    number in [head], and the last [cap] of them in the slots. *)
Definition holds (capacity : Z) (pushed : list Trade.t) (rb : TradeRingBuffer.t)
    : Prop :=
TradeRingBuffer.cap rb = capacity /\
length (TradeRingBuffer.trades rb) = Z.to_nat capacity /\
TradeRingBuffer.head rb = Z.of_nat (length pushed) /\
forall j : nat,
  Z.of_nat (length pushed) - capacity <= Z.of_nat j < Z.of_nat (length pushed) ->
  TradeRingBuffer.trades rb !! Z.to_nat (Z.of_nat j mod capacity) = Some (pushed !! j).

End marketdata.

(** ** Package [config] (risk limits) *)

Module config.

Import decimal.

Record MaxOpenOrdersConfig : Type := mkMaxOpenOrders {
  Global : Z;
  PerVenue : Z;
  PerSymbol : Z
}.

Record RiskConfig : Type := mkRiskConfig {
  MaxPosition : gmap string Decimal;
  MaxNotionalPerVenue : gmap string Decimal;
  DailyLossCapUSDT : Decimal;
  WarningThresholdPct : Z;
  MaxOpenOrders : MaxOpenOrdersConfig
}.

End config.

(** ** Package [risk] *)

Module risk.

Import decimal domain.

Inductive RejectionReason : Type :=
| RejectPositionLimit
| RejectNotionalLimit
| RejectDailyLoss
| RejectGlobalOrders
| RejectVenueOrders
| RejectSymbolOrders
| RejectDataStale
| RejectKillSwitch
| RejectHalted.

(** [Reason] is [None] for the empty string of an approval. [Details] is
    a log message; it is kept where it is the kill switch's stored
    reason and left empty where the code formats numbers into it. *)
Record ValidationResult : Type := mkResult {
  Approved : bool;
  Reason : option RejectionReason;
  Details : string
}.

Definition approve : ValidationResult := mkResult true None EmptyString.

Definition reject (r : RejectionReason) (details : string) : ValidationResult :=
  mkResult false (Some r) details.

(** *** The PnL tracker ([today] is the current UTC day) *)

Record PnLTracker : Type := mkPnLTracker {
  dailyRealizedPnL : Decimal;
  dailyUnrealizedPnL : Decimal;
  lastReset : Z
}.

Definition NewPnLTracker (today : Z) : PnLTracker :=
  mkPnLTracker (New 0 0) (New 0 0) today.

Definition checkDailyReset (today : Z) (p : PnLTracker) : PnLTracker :=
  if lastReset p <? today then mkPnLTracker Zero Zero today else p.

Definition AddRealizedPnL (today : Z) (amount : Decimal) (p : PnLTracker)
    : PnLTracker :=
  let p := checkDailyReset today p in
  mkPnLTracker (Add (dailyRealizedPnL p) amount) (dailyUnrealizedPnL p)
               (lastReset p).

Definition UpdateUnrealizedPnL (today : Z) (amount : Decimal) (p : PnLTracker)
    : PnLTracker :=
  let p := checkDailyReset today p in
  mkPnLTracker (dailyRealizedPnL p) amount (lastReset p).

Definition TotalDailyPnL (p : PnLTracker) : Decimal :=
  Add (dailyRealizedPnL p) (dailyUnrealizedPnL p).

(** *** The kill switch and its file *)

Record killSwitchState : Type := mkKillSwitchState {
  Active : bool;
  StoredReason : string;
  ActivatedAt : Z
}.

(** Durable storage: the decoded content of each file that holds a
    kill-switch state. *)
Abbreviation disk := (gmap string killSwitchState).

Record KillSwitch : Type := mkKillSwitch {
  active : bool;
  reason : string;
  activatedAt : Z;
  filePath : string
}.

Definition loadState (d : disk) (ks : KillSwitch) : KillSwitch :=
  match d !! filePath ks with
  | None => ks
  | Some st => mkKillSwitch (Active st) (StoredReason st) (ActivatedAt st)
                            (filePath ks)
  end.

Definition NewKillSwitch (d : disk) (path : string) : KillSwitch :=
  loadState d (mkKillSwitch false EmptyString 0 path).

(** [os.WriteFile] may fail; the failure is logged and the in-memory
    switch keeps its new value. [write_ok] is the outcome of the write. *)
Definition persistState (write_ok : bool) (ks : KillSwitch) (d : disk) : disk :=
  if write_ok
  then <[filePath ks := mkKillSwitchState (active ks) (reason ks) (activatedAt ks)]> d
  else d.

Definition Activate (write_ok : bool) (now : Z) (why : string)
    (ks : KillSwitch) (d : disk) : KillSwitch * disk :=
  let ks := mkKillSwitch true why now (filePath ks) in
  (ks, persistState write_ok ks d).

Definition Deactivate (write_ok : bool) (ks : KillSwitch) (d : disk)
    : KillSwitch * disk :=
  let ks := mkKillSwitch false EmptyString (activatedAt ks) (filePath ks) in
  (ks, persistState write_ok ks d).

Definition IsActive (ks : KillSwitch) : bool := active ks.

(** *** The manager *)

Record OrderCountState : Type := mkOrderCounts {
  Global : Z;
  PerVenue : gmap string Z;
  PerSymbol : gmap string Z
}.

Record RiskState : Type := mkRiskState {
  Mode : RiskMode;
  Positions : gmap (string * string) Position.t;   (* (venue, asset) *)
  OpenOrderCounts : OrderCountState;
  VenueNotionals : gmap string Decimal
}.

Record Manager : Type := mkManager {
  state : RiskState;
  pnlTracker : PnLTracker;
  killSwitch : KillSwitch;
  cfg : config.RiskConfig;
  onKillSwitch : bool           (* a callback is registered *)
}.

Definition NewManager (cfg : config.RiskConfig) (d : disk)
    (killSwitchPath : string) (today : Z) : Manager :=
  mkManager
    (mkRiskState RiskModeNormal ∅ (mkOrderCounts 0 ∅ ∅) ∅)
    (NewPnLTracker today)
    (NewKillSwitch d killSwitchPath)
    cfg false.

(** A missing map entry reads as the zero value. *)
Definition count (m : gmap string Z) (k : string) : Z := default 0 (m !! k).

Definition notional (m : gmap string Decimal) (k : string) : Decimal :=
  default (New 0 0) (m !! k).

Fixpoint before_slash (symbol : string) : option string :=
  match symbol with
  | EmptyString => None
  | String c rest =>
      if Ascii.eqb c "/"%char then Some EmptyString
      else option_map (String c) (before_slash rest)
  end.

Definition extractAsset (symbol : string) : string :=
  match before_slash symbol with
  | Some asset => asset
  | None =>
      match find (fun a => String.prefix a symbol) ["BTC"; "ETH"; "SOL"] with
      | Some a => a
      | None => symbol
      end
  end.

(** The bodies of the loops of [ValidateSignal]; each loop returns at
    the first leg that fails, which [existsb] decides. *)
Definition dataStale (now : Z) (md : marketdata.Service) (venue : string)
    (leg : LegSpec.t) : bool :=
  marketdata.IsDataBlocked now md venue (LegSpec.Symbol leg).

Definition exceedsPosition (m : Manager) (venue : string) (leg : LegSpec.t) : bool :=
  let asset := extractAsset (LegSpec.Symbol leg) in
  match config.MaxPosition (cfg m) !! asset with
  | Some maxPos =>
      let currentPos :=
        match Positions (state m) !! (venue, asset) with
        | Some pos => Abs (Position.Size pos)
        | None => Zero
        end in
      let newSize := Add currentPos (LegSpec.Size leg) in
      GreaterThan newSize maxPos
  | None => false
  end.

Definition additionalNotional (legs : list LegSpec.t) : Decimal :=
  fold_left (fun acc leg => Add acc (Mul (LegSpec.Price leg) (LegSpec.Size leg)))
            legs Zero.

Definition exceedsNotional (m : Manager) (signal : TradeSignal.t) : bool :=
  match config.MaxNotionalPerVenue (cfg m) !! TradeSignal.Venue signal with
  | Some maxNotional =>
      let currentNotional :=
        notional (VenueNotionals (state m)) (TradeSignal.Venue signal) in
      GreaterThan
        (Add currentNotional (additionalNotional (TradeSignal.Legs signal)))
        maxNotional
  | None => false
  end.

Definition symbolOrdersFull (m : Manager) (leg : LegSpec.t) : bool :=
  config.PerSymbol (config.MaxOpenOrders (cfg m))
    <=? count (PerSymbol (OpenOrderCounts (state m))) (LegSpec.Symbol leg).

Definition ValidateSignal (now : Z) (md : marketdata.Service) (m : Manager)
    (signal : TradeSignal.t) : ValidationResult :=
  let venue := TradeSignal.Venue signal in
  let legs := TradeSignal.Legs signal in
  if IsActive (killSwitch m) then reject RejectKillSwitch (reason (killSwitch m))
  else if decide (Mode (state m) = RiskModeHalted) then reject RejectHalted EmptyString
  else if existsb (dataStale now md venue) legs then reject RejectDataStale EmptyString
  else if existsb (exceedsPosition m venue) legs then reject RejectPositionLimit EmptyString
  else if exceedsNotional m signal then reject RejectNotionalLimit EmptyString
  else if LessThanOrEqual (TotalDailyPnL (pnlTracker m))
                          (Neg (config.DailyLossCapUSDT (cfg m)))
       then reject RejectDailyLoss EmptyString
  else if config.Global (config.MaxOpenOrders (cfg m))
            <=? Global (OpenOrderCounts (state m))
       then reject RejectGlobalOrders EmptyString
  else if config.PerVenue (config.MaxOpenOrders (cfg m))
            <=? count (PerVenue (OpenOrderCounts (state m))) venue
       then reject RejectVenueOrders EmptyString
  else if existsb (symbolOrdersFull m) legs then reject RejectSymbolOrders EmptyString
  else approve.

(** *** State changes

    The clock, the UTC day and the outcome of a file write are inputs. *)

Record env : Type := mkEnv { now : Z; today : Z; write_ok : bool }.

Inductive effect : Type :=
| LogError (msg : string)
| LogWarn (msg : string)
| KillSwitchCallback.        (* [go m.onKillSwitch()] *)

Definition setState (st : RiskState) (m : Manager) : Manager :=
mkManager st (pnlTracker m) (killSwitch m) (cfg m) (onKillSwitch m).

Definition setMode (mode : RiskMode) (m : Manager) : Manager :=
setState (mkRiskState mode (Positions (state m)) (OpenOrderCounts (state m))
                      (VenueNotionals (state m))) m.

Definition setKillSwitch (ks : KillSwitch) (m : Manager) : Manager :=
mkManager (state m) (pnlTracker m) ks (cfg m) (onKillSwitch m).


Section Formatting.

(** [String] of the decimal package, which renders the number in the
    reason of a PnL breach. *)
Variable String_ : Decimal -> string.

Definition breachReason (totalPnL : Decimal) : string :=
"daily PnL breach: " +:+ String_ totalPnL.

Definition checkPnLLimits (e : env) (m : Manager) (d : disk)
    : outcome (Manager * disk * list effect) :=
let totalPnL := TotalDailyPnL (pnlTracker m) in
let lossCap := Neg (config.DailyLossCapUSDT (cfg m)) in
let* warningLevel :=
  of_option DivideByZero
    (Div (Mul lossCap (NewFromInt (config.WarningThresholdPct (cfg m))))
         (NewFromInt 100)) in
if LessThanOrEqual totalPnL lossCap then
  let m := setMode RiskModeHalted m in
  let '(ks, d) := Activate (write_ok e) (now e) (breachReason totalPnL)
                           (killSwitch m) d in
  Ok (setKillSwitch ks m, d,
      [LogError "KILL SWITCH ACTIVATED";
       LogError "DAILY PNL BREACH - KILL SWITCH ACTIVATED"]
      ++ (if onKillSwitch m then [KillSwitchCallback] else []))
else if LessThanOrEqual totalPnL warningLevel then
  if decide (Mode (state m) = RiskModeNormal)
  then Ok (setMode RiskModeWarning m, d, [LogWarn "PnL warning threshold reached"])
  else Ok (m, d, [])
else Ok (m, d, []).


(** One tick of [RunPeriodicCheck]. *)
Definition periodicCheck (e : env) (m : Manager) (d : disk)
    : outcome (Manager * disk * list effect) :=
checkPnLLimits e m d.

End Formatting.



Definition DeactivateKillSwitch (e : env) (m : Manager) (d : disk)
    : Manager * disk :=
let m := setMode RiskModeNormal m in
let '(ks, d) := Deactivate (write_ok e) (killSwitch m) d in
(setKillSwitch ks m, d).


(** *** What the checks of [ValidateSignal] mean

    Each check is stated over the rational numbers the decimals stand
    for, independently of the order in which the code evaluates them. *)

Definition has_slash (s : string) : Prop :=
exists a b : string, s = a +:+ "/" +:+ b.





Definition daily_loss_reached (m : Manager) : Prop :=
(toQ (dailyRealizedPnL (pnlTracker m)) + toQ (dailyUnrealizedPnL (pnlTracker m))
 <= - toQ (config.DailyLossCapUSDT (cfg m)))%Q.



(** *** The PnL breach *)





(** *** The scenarios of the test suite *)

Definition example_cfg : config.RiskConfig :=
config.mkRiskConfig
  (<["BTC" := New 15 (-1)]> (<["ETH" := NewFromInt 25]> (<["SOL" := NewFromInt 800]> ∅)))
  (<["nobitex" := NewFromInt 250000]> (<["kcex" := NewFromInt 200000]> ∅))
  (NewFromInt 12500) 80
  (config.mkMaxOpenOrders 120 70 20).

Definition example_manager : Manager :=
NewManager example_cfg ∅ "killswitch.json" 0.

Definition example_md : marketdata.Service :=
fst (marketdata.UpdateOrderBook 0
       (OrderBookSnapshot.mk "nobitex" "BTC/USDT"
          [PriceLevel.mk (NewFromInt 50000) (NewFromInt 1)]
          [PriceLevel.mk (NewFromInt 50001) (NewFromInt 1)] 0 0 0)
       (marketdata.NewService 500000000 2000000000)).

Definition example_signal (size : Decimal) : TradeSignal.t :=
TradeSignal.mk 1 StrategyTriArb "nobitex"
  [LegSpec.mk "BTC/USDT" SideBuy InstrumentSpot (NewFromInt 50000) size OrderTypeLimit]
  (NewFromInt 1)
  (CostEstimate.mk (New 0 0) (New 0 0) None (New 0 0) (New 0 0))
  (New 0 0) 0 0.

Definition example_fill : Order.t :=
Order.mk 7 "v-7" 1 "nobitex" "BTC/USDT" SideBuy OrderTypeLimit
  (NewFromInt 50000) (New 1 (-1)) (New 1 (-1)) (NewFromInt 50000)
  OrderStatusFilled 0 0.

(** *** Open-order counters *)




End risk.

(** ** Package [order] *)

Module order.

Import decimal domain.

(** A venue gateway, as far as the order manager uses it: the answers of
    [PlaceOrder] and [CancelOrder], [None] for an error. *)
Record VenueGateway : Type := mkGateway {
  PlaceOrder : OrderRequest.t -> option OrderAck.t;
  CancelOrder_at_venue : string -> option unit
}.

(** What the manager sends out, in order: state changes on the event bus
    and calls to a venue. *)
Inductive effect : Type :=
| PublishOrderState (change : OrderStateChange.t)
| VenuePlaceOrder (venue : string) (req : OrderRequest.t)
| VenueCancelOrder (venue : string) (venueID : string).

Record Manager : Type := mkManager {
  orders : gmap Z Order.t;
  venueIDMap : gmap string Z;
  idempotencyMap : gmap string Z;
  gateways : gmap string VenueGateway
}.

Definition NewManager (gateways : gmap string VenueGateway) : Manager :=
mkManager ∅ ∅ ∅ gateways.

(** The pair a Go method returns: an order pointer (possibly nil) with a
    nil error, or an error. *)
Inductive result : Type :=
| Returned (order : option Order.t)
| Failed (err : string).

Definition setOrders (os : gmap Z Order.t) (m : Manager) : Manager :=
mkManager os (venueIDMap m) (idempotencyMap m) (gateways m).

Definition withStatus (now : Z) (s : OrderStatus) (o : Order.t) : Order.t :=
Order.mk (Order.InternalID o) (Order.VenueID o) (Order.SignalID o)
         (Order.Venue o) (Order.Symbol o) (Order.Side o) (Order.OrderType o)
         (Order.Price o) (Order.Size o) (Order.FilledSize o)
         (Order.AvgFillPrice o) s (Order.CreatedAt o) now.

Definition publishStateChange (now : Z) (o : Order.t) (prev new : OrderStatus)
    : effect :=
PublishOrderState (OrderStateChange.mk o prev new now).

Definition updateStatus (now : Z) (internalID : Z) (newStatus : OrderStatus)
    (m : Manager) : Manager * list effect :=
match orders m !! internalID with
| None => (m, [])
| Some o =>
    let o' := withStatus now newStatus o in
    (setOrders (<[internalID := o']> (orders m)) m,
     [publishStateChange now o' (Order.Status o) newStatus])
end.

Definition newOrder (now : Z) (req : OrderRequest.t) : Order.t :=
Order.mk (OrderRequest.InternalID req) EmptyString (OrderRequest.SignalID req)
         (OrderRequest.Venue req) (OrderRequest.Symbol req)
         (OrderRequest.Side req) (OrderRequest.OrderType req)
         (OrderRequest.Price req) (OrderRequest.Size req)
         (New 0 0) (New 0 0) OrderStatusPendingNew now now.

Definition acknowledged (now : Z) (ack : OrderAck.t) (o : Order.t) : Order.t :=
Order.mk (Order.InternalID o) (OrderAck.VenueID ack) (Order.SignalID o)
         (Order.Venue o) (Order.Symbol o) (Order.Side o) (Order.OrderType o)
         (Order.Price o) (Order.Size o) (Order.FilledSize o)
         (Order.AvgFillPrice o) (OrderAck.Status ack) (Order.CreatedAt o) now.

(** The body of [SubmitOrder] past the idempotency check. *)
Definition submitNew (now : Z) (req : OrderRequest.t) (m : Manager)
    : Manager * list effect * result :=
let key := OrderRequest.IdempotencyKey req in
let o := newOrder now req in
let id := Order.InternalID o in
let m := mkManager (<[id := o]> (orders m)) (venueIDMap m)
                   (if negb (String.eqb key EmptyString)
                    then <[key := id]> (idempotencyMap m)
                    else idempotencyMap m)
                   (gateways m) in
let e0 := [publishStateChange now o OrderStatusUnset OrderStatusPendingNew] in
match gateways m !! OrderRequest.Venue req with
| None =>
    let '(m, e1) := updateStatus now id OrderStatusSubmitFailed m in
    (m, e0 ++ e1, Failed "unknown venue")
| Some gw =>
    let '(m, e1) := updateStatus now id OrderStatusSubmitted m in
    let call := [VenuePlaceOrder (OrderRequest.Venue req) req] in
    match PlaceOrder gw req with
    | None =>
        let '(m, e2) := updateStatus now id OrderStatusSubmitFailed m in
        (m, e0 ++ e1 ++ call ++ e2, Failed "place order")
    | Some ack =>
        (* [order] still points at the stored order, now Submitted *)
        let o' := acknowledged now ack (withStatus now OrderStatusSubmitted o) in
        (mkManager (<[id := o']> (orders m))
                   (<[OrderAck.VenueID ack := id]> (venueIDMap m))
                   (idempotencyMap m) (gateways m),
         e0 ++ e1 ++ call
            ++ [publishStateChange now o' OrderStatusSubmitted (OrderAck.Status ack)],
         Returned (Some o'))
    end
end.

Definition SubmitOrder (now : Z) (req : OrderRequest.t) (m : Manager)
    : Manager * list effect * result :=
let key := OrderRequest.IdempotencyKey req in
match idempotencyMap m !! key with
| Some existing =>
    if negb (String.eqb key EmptyString)
    then (m, [], Returned (orders m !! existing))
    else submitNew now req m
| None => submitNew now req m
end.

Definition CancelOrder (now : Z) (internalID : Z) (m : Manager)
    : Manager * list effect * option string :=
match orders m !! internalID with
| None => (m, [], Some "order not found")
| Some o =>
    match gateways m !! Order.Venue o with
    | None => (m, [], Some "unknown venue")
    | Some gw =>
        let call := [VenueCancelOrder (Order.Venue o) (Order.VenueID o)] in
        match CancelOrder_at_venue gw (Order.VenueID o) with
        | None => (m, call, Some "cancel order")
        | Some _ =>
            let '(m, e) := updateStatus now internalID OrderStatusCancelled m in
            (m, call ++ e, None)
        end
    end
end.

(** [CancelAllOrders] collects the ids of the non-terminal orders and
    cancels each; Go leaves the iteration order of the map open, the
    order of [map_to_list] stands for one of them. *)
Definition CancelAllOrders (now : Z) (m : Manager) : Manager * list effect :=
let activeOrders :=
  map fst (filter (fun p => negb (IsTerminal (Order.Status (snd p))))
                  (map_to_list (orders m))) in
fold_left
  (fun acc id =>
     let '(m, es) := acc in
     let '(m, es', _) := CancelOrder now id m in
     (m, es ++ es'))
  activeOrders (m, []).

Definition UpdateOrderFill (now : Z) (internalID : Z)
    (filledSize avgPrice : Decimal) (m : Manager) : Manager * list effect :=
match orders m !! internalID with
| None => (m, [])
| Some o =>
    let prevStatus := Order.Status o in
    let status :=
      if GreaterThanOrEqual filledSize (Order.Size o) then OrderStatusFilled
      else if IsPositive filledSize then OrderStatusPartialFill
      else prevStatus in
    let o' :=
      Order.mk (Order.InternalID o) (Order.VenueID o) (Order.SignalID o)
               (Order.Venue o) (Order.Symbol o) (Order.Side o) (Order.OrderType o)
               (Order.Price o) (Order.Size o) filledSize avgPrice status
               (Order.CreatedAt o) now in
    (setOrders (<[internalID := o']> (orders m)) m,
     if decide (prevStatus = status) then []
     else [publishStateChange now o' prevStatus status])
end.

Definition GetOrder (m : Manager) (internalID : Z) : option Order.t :=
orders m !! internalID.

(** [CleanupStaleOrders] drops the terminal orders last updated before
    [now - maxAge], and their venue ids; the idempotency map is left as
    it is. *)
Definition stale (now maxAge : Z) (o : Order.t) : bool :=
IsTerminal (Order.Status o) && (Order.UpdatedAt o <? now - maxAge).

Definition CleanupStaleOrders (now maxAge : Z) (m : Manager) : Manager :=
let gone := filter (fun p => stale now maxAge (snd p)) (map_to_list (orders m)) in
mkManager
  (fold_left (fun os p => delete (fst p) os) gone (orders m))
  (fold_left (fun vs p =>
                if negb (String.eqb (Order.VenueID (snd p)) EmptyString)
                then delete (Order.VenueID (snd p)) vs else vs)
             gone (venueIDMap m))
  (idempotencyMap m) (gateways m).

(** *** Scenarios *)

Definition filling_gateway : VenueGateway :=
mkGateway (fun req => Some (OrderAck.mk (OrderRequest.InternalID req) "v-1"
                                        OrderStatusFilled 0))
          (fun _ => Some tt).

Definition resting_gateway : VenueGateway :=
mkGateway (fun req => Some (OrderAck.mk (OrderRequest.InternalID req) "v-2"
                                        OrderStatusAcknowledged 0))
          (fun _ => Some tt).

Definition example_request (id : Z) (venue key : string) : OrderRequest.t :=
OrderRequest.mk id 1 venue "BTC/USDT" SideBuy InstrumentSpot OrderTypeLimit
                (NewFromInt 50000) (NewFromInt 1) key.

Definition example_manager : Manager :=
NewManager (<["nobitex" := filling_gateway]> (<["kcex" := resting_gateway]> ∅)).

Definition after_submit (now : Z) (req : OrderRequest.t) (m : Manager) : Manager :=
fst (fst (SubmitOrder now req m)).

Definition status_of (m : Manager) (id : Z) : option OrderStatus :=
option_map Order.Status (orders m !! id).

Definition filled_order_manager : Manager :=
after_submit 0 (example_request 1 "nobitex" "s-leg-0") example_manager.

Definition cancelled_order_manager : Manager :=
fst (fst (CancelOrder 1 2
            (after_submit 0 (example_request 2 "kcex" "s-leg-1") example_manager))).

(** The idempotency key "s-leg-0" was used for order 1 on an unknown
    venue; the order failed and was later garbage-collected. *)
Definition collected_manager : Manager :=
CleanupStaleOrders 100 10
  (after_submit 0 (example_request 1 "elsewhere" "s-leg-0") example_manager).

End order.

(** ** Package [simulated]: the fill simulator *)

Module simulated.

Import decimal domain.

Record SimulatedFill : Type := mkFill {
  FillPrice : Decimal;
  FillSize : Decimal;
  Fee : Decimal;
  LatencyMs : Z;
  Status : OrderStatus
}.

(** The generator of [math/rand]. Its algorithm is not part of the
    repository: a generator state is the sequence of numbers in [0, 1)
    it will still yield, and [Float64] takes the first. Floating-point
    values are the rationals they denote. *)
Record Rand : Type := mkRand { upcoming : nat -> Q }.

Definition Float64 (r : Rand) : Q * Rand :=
(upcoming r 0%nat, mkRand (fun n => upcoming r (S n))).

Record DefaultFillSimulator : Type := mkSimulator {
  latencyMs : Z;
  rejectRatePct : Q;
  makerFeeBps : Decimal;
  takerFeeBps : Decimal;
  rng : Rand
}.


(** The loop of [simulateMarketFill]. *)
Fixpoint walk (levels : list PriceLevel.t) (remaining totalCost totalFilled : Decimal)
    : Decimal * Decimal :=
match levels with
| [] => (totalCost, totalFilled)
| level :: rest =>
    if IsZero remaining then (totalCost, totalFilled)
    else
      let fillAtLevel := Min remaining (PriceLevel.Size level) in
      walk rest (Sub remaining fillAtLevel)
           (Add totalCost (Mul fillAtLevel (PriceLevel.Price level)))
           (Add totalFilled fillAtLevel)
end.

Definition simulateMarketFill (levels : list PriceLevel.t) (size : Decimal)
    : outcome (Decimal * Decimal) :=
let '(totalCost, totalFilled) := walk levels size Zero Zero in
if IsZero totalFilled then Ok (Zero, Zero)
else
  let* avgPrice := of_option DivideByZero (Div totalCost totalFilled) in
  Ok (avgPrice, totalFilled).

Definition rejected (s : DefaultFillSimulator) : SimulatedFill :=
mkFill (New 0 0) (New 0 0) (New 0 0) (latencyMs s) OrderStatusRejected.

Definition resting (s : DefaultFillSimulator) (price : Decimal) : SimulatedFill :=
mkFill price Zero (New 0 0) (latencyMs s) OrderStatusAcknowledged.

(** The reject draw: the generator is consulted only for a positive
    rate. *)
Definition rejectDraw (s : DefaultFillSimulator) : bool * Rand :=
if Qlt_le_dec 0 (rejectRatePct s) then
  let '(x, r) := Float64 (rng s) in
  (if Qlt_le_dec (x * 100) (rejectRatePct s) then true else false, r)
else (false, rng s).

Definition setRng (r : Rand) (s : DefaultFillSimulator) : DefaultFillSimulator :=
mkSimulator (latencyMs s) (rejectRatePct s) (makerFeeBps s) (takerFeeBps s) r.

(** What the [switch] on the order type leaves: a fill that is returned
    at once, or the price, size and fee rate to go on with. *)
Inductive matched : Type :=
| Done (fill : SimulatedFill)
| Walked (fillPrice fillSize feeBps : Decimal).

Definition matchOrder (s : DefaultFillSimulator) (order : OrderRequest.t)
    (book : OrderBookSnapshot.t) : outcome matched :=
match OrderRequest.OrderType order with
| OrderTypeMarket =>
    let levels :=
      match OrderRequest.Side order with
      | SideBuy => OrderBookSnapshot.Asks book
      | SideSell => OrderBookSnapshot.Bids book
      end in
    match levels with
    | [] => Ok (Done (rejected s))
    | _ =>
        let* walked :=
          simulateMarketFill levels (OrderRequest.Size order) in
        let '(fillPrice, fillSize) := walked in
        Ok (Walked fillPrice fillSize (takerFeeBps s))
    end
| OrderTypeLimit =>
    match OrderRequest.Side order with
    | SideBuy =>
        match OrderBookSnapshot.Asks book with
        | [] => Ok (Done (rejected s))
        | best :: _ =>
            if LessThan (OrderRequest.Price order) (PriceLevel.Price best)
            then Ok (Done (resting s (OrderRequest.Price order)))
            else
              let* walked :=
                simulateMarketFill (OrderBookSnapshot.Asks book)
                                   (OrderRequest.Size order) in
              let '(fillPrice, fillSize) := walked in
              Ok (Walked fillPrice fillSize (makerFeeBps s))
        end
    | SideSell =>
        match OrderBookSnapshot.Bids book with
        | [] => Ok (Done (rejected s))
        | best :: _ =>
            if GreaterThan (OrderRequest.Price order) (PriceLevel.Price best)
            then Ok (Done (resting s (OrderRequest.Price order)))
            else
              let* walked :=
                simulateMarketFill (OrderBookSnapshot.Bids book)
                                   (OrderRequest.Size order) in
              let '(fillPrice, fillSize) := walked in
              Ok (Walked fillPrice fillSize (makerFeeBps s))
        end
    end
end.

Definition SimulateFill (s : DefaultFillSimulator) (order : OrderRequest.t)
    (book : option OrderBookSnapshot.t)
    : DefaultFillSimulator * outcome SimulatedFill :=
let '(hit, r) := rejectDraw s in
(setRng r s,
 if hit then Ok (rejected s)
 else
   match book with
   | None => Ok (rejected s)
   | Some book =>
       let* m := matchOrder s order book in
       match m with
       | Done fill => Ok fill
       | Walked fillPrice fillSize feeBps =>
           let* fee :=
             of_option DivideByZero
               (Div (Mul (Mul fillPrice fillSize) feeBps) (NewFromInt 10000)) in
           let status :=
             if LessThan fillSize (OrderRequest.Size order)
             then OrderStatusPartialFill else OrderStatusFilled in
           Ok (mkFill fillPrice fillSize fee (latencyMs s) status)
       end
   end).

(** *** What a market fill is, over the rationals *)

Definition price_of (l : PriceLevel.t) : Q := toQ (PriceLevel.Price l).

Definition size_of (l : PriceLevel.t) : Q := toQ (PriceLevel.Size l).

(** Total size offered by a side. *)
Definition liquidity (levels : list PriceLevel.t) : Q :=
fold_right (fun l acc => (size_of l + acc)%Q) 0%Q levels.

(** The part of a request of [r] units that falls into each level, best
    level first: level [i] gives what is left of [r] after the levels
    before it, at most its size and at least nothing. *)
Fixpoint consumed (levels : list PriceLevel.t) (r : Q) : list Q :=
match levels with
| [] => []
| l :: rest => Qmin (size_of l) (Qmax 0 r) :: consumed rest (r - size_of l)
end.

Definition sumQ (l : list Q) : Q := fold_right Qplus 0%Q l.

Definition cost (levels : list PriceLevel.t) (r : Q) : Q :=
sumQ (map (fun p => (price_of (fst p) * snd p)%Q) (combine levels (consumed levels r))).

(** The size-weighted average price of the consumed levels. *)
Definition weighted_average (levels : list PriceLevel.t) (r : Q) : Q :=
(cost levels r / sumQ (consumed levels r))%Q.

Definition positive_sizes (levels : list PriceLevel.t) : Prop :=
Forall (fun l => (0 < size_of l)%Q) levels.

Definition opposite_side (order : OrderRequest.t) (book : OrderBookSnapshot.t)
    : list PriceLevel.t :=
match OrderRequest.Side order with
| SideBuy => OrderBookSnapshot.Asks book
| SideSell => OrderBookSnapshot.Bids book
end.

(** The scenarios of [fillsim_test.go]; [quiet] never rejects. *)
Definition no_draws : Rand := mkRand (fun _ => 0%Q).

Definition quiet : DefaultFillSimulator :=
mkSimulator 0 0 (NewFromInt 2) (NewFromInt 5) no_draws.

Definition market_buy (size : Decimal) : OrderRequest.t :=
OrderRequest.mk 1 1 "sim" "BTC/USDT" SideBuy InstrumentSpot OrderTypeMarket
                (New 0 0) size EmptyString.

Definition asks_book (asks : list PriceLevel.t) : OrderBookSnapshot.t :=
OrderBookSnapshot.mk "sim" "BTC/USDT" [] asks 0 0 0.

Definition thin_book : OrderBookSnapshot.t :=
asks_book [PriceLevel.mk (NewFromInt 50000) (New 3 (-1))].

Definition two_level_book : OrderBookSnapshot.t :=
asks_book [PriceLevel.mk (NewFromInt 1) (NewFromInt 1);
           PriceLevel.mk (NewFromInt 2) (NewFromInt 2)].

(** *** Determinism *)



(** *** Limit orders *)

(** The best level on the other side of the book. *)
Definition best_opposite (order : OrderRequest.t) (book : OrderBookSnapshot.t)
    : option PriceLevel.t :=
match OrderRequest.Side order with
| SideBuy => OrderBookSnapshot.BestAsk book
| SideSell => OrderBookSnapshot.BestBid book
end.

(** A limit order is marketable when its price reaches the best level of
    the other side. *)
Definition marketable (order : OrderRequest.t) (best : PriceLevel.t) : Prop :=
match OrderRequest.Side order with
| SideBuy => (toQ (PriceLevel.Price best) <= toQ (OrderRequest.Price order))%Q
| SideSell => (toQ (OrderRequest.Price order) <= toQ (PriceLevel.Price best))%Q
end.

(** The same order sent as a market order, and the same simulator
    charging its maker rate to takers. *)
Definition as_market (order : OrderRequest.t) : OrderRequest.t :=
OrderRequest.mk (OrderRequest.InternalID order) (OrderRequest.SignalID order)
                (OrderRequest.Venue order) (OrderRequest.Symbol order)
                (OrderRequest.Side order) (OrderRequest.InstrumentType order)
                OrderTypeMarket (OrderRequest.Price order) (OrderRequest.Size order)
                (OrderRequest.IdempotencyKey order).

Definition at_maker_rate (s : DefaultFillSimulator) : DefaultFillSimulator :=
mkSimulator (latencyMs s) (rejectRatePct s) (makerFeeBps s) (makerFeeBps s) (rng s).

Definition limit_buy (price size : Decimal) : OrderRequest.t :=
OrderRequest.mk 1 1 "sim" "BTC/USDT" SideBuy InstrumentSpot OrderTypeLimit
                price size EmptyString.

(** The fee rate of an order: maker for limit orders, taker for market
    orders. *)
Definition feeRate (s : DefaultFillSimulator) (order : OrderRequest.t) : Decimal :=
match OrderRequest.OrderType order with
| OrderTypeMarket => takerFeeBps s
| OrderTypeLimit => makerFeeBps s
end.

End simulated.

(** ** Package [costmodel] *)

Module costmodel.

Import decimal domain.

Record SlippagePoint : Type := mkPoint { Size : Decimal; SlippageBps : Decimal }.

Definition defaultSlippageCurve : list SlippagePoint :=
[ mkPoint (New 1 (-2)) (NewFromInt 1);
  mkPoint (New 1 (-1)) (NewFromInt 2);
  mkPoint (NewFromInt 1) (NewFromInt 5);
  mkPoint (NewFromInt 10) (NewFromInt 10);
  mkPoint (NewFromInt 100) (NewFromInt 20);
  mkPoint (NewFromInt 1000) (NewFromInt 50) ].

(** The loop of [EstimateSlippage] from index 1 on: [prev] is the point
    before [rest]. *)
Fixpoint interpolate (orderSize : Decimal) (last : SlippagePoint)
    (prev : SlippagePoint) (rest : list SlippagePoint) : outcome Decimal :=
match rest with
| [] => Ok (SlippageBps last)
| curr :: rest =>
    if LessThanOrEqual orderSize (Size curr) then
      let* ratio :=
        of_option DivideByZero
          (Div (Sub orderSize (Size prev)) (Sub (Size curr) (Size prev))) in
      Ok (Add (SlippageBps prev)
              (Mul ratio (Sub (SlippageBps curr) (SlippageBps prev))))
    else interpolate orderSize last curr rest
end.

Definition EstimateSlippage (points : list SlippagePoint) (orderSize : Decimal)
    : outcome Decimal :=
match points with
| [] => Ok (NewFromInt 5)
| first :: rest =>
    if LessThanOrEqual orderSize (Size first) then Ok (SlippageBps first)
    else
      let last := List.last points first in
      if GreaterThanOrEqual orderSize (Size last) then Ok (SlippageBps last)
      else interpolate orderSize last first rest
end.

Record Service : Type := mkService {
  feeTiers : gmap string FeeTier.t;
  slippageCurves : gmap string (list SlippagePoint);
  fundingRates : gmap string (list FundingRate.t);
  fundingLookback : Z
}.

Definition getFeeBps (s : Service) (venue : string) (orderType : OrderType)
    : Decimal :=
match feeTiers s !! venue with
| None => NewFromInt 10
| Some tier =>
    match orderType with
    | OrderTypeMarket => FeeTier.TakerFeeBps tier
    | OrderTypeLimit => FeeTier.MakerFeeBps tier
    end
end.

(** A missing curve is the default curve (which the code also stores
    under the key; the estimates are the same with and without it). *)
Definition getSlippageBps (s : Service) (venue symbol : string) (size : Decimal)
    : outcome Decimal :=
EstimateSlippage
  (default defaultSlippageCurve (slippageCurves s !! (venue +:+ ":" +:+ symbol)))
  size.

(** The weighted sum over the last [n] rates, with weights 1, 2, ... *)
Fixpoint weigh (rates : list FundingRate.t) (weight : Z) (sum totalWeight : Decimal)
    : Decimal * Decimal :=
match rates with
| [] => (sum, totalWeight)
| r :: rest =>
    weigh rest (weight + 1)
          (Add sum (Mul (FundingRate.Rate r) (NewFromInt weight)))
          (Add totalWeight (NewFromInt weight))
end.

Definition getFundingBps (s : Service) (venue symbol : string)
    : outcome (option Decimal) :=
match fundingRates s !! (venue +:+ ":" +:+ symbol) with
| None | Some [] => Ok None
| Some rates =>
    let len := Z.of_nat (length rates) in
    let n := if len <? fundingLookback s then len else fundingLookback s in
    let window := if n <=? 0 then [] else drop (Z.to_nat (len - n)) rates in
    let '(sum, totalWeight) := weigh window 1 Zero Zero in
    if IsZero totalWeight then Ok None
    else
      let* avg := of_option DivideByZero (Div sum totalWeight) in
      Ok (Some (Mul avg (NewFromInt 10000)))
end.

(** [EstimateCost] returns no error: [Ok (Some _)], or a panic. *)
Definition EstimateCost (s : Service) (venue symbol : string) (side : domain.Side)
    (size : Decimal) (orderType : OrderType) : outcome (option CostEstimate.t) :=
let feeBps := getFeeBps s venue orderType in
let* slippageBps := getSlippageBps s venue symbol size in
let* fundingBps := getFundingBps s venue symbol in
let total := Add feeBps slippageBps in
let total :=
  match fundingBps with
  | Some f => Add total f
  | None => total
  end in
let confidence := if IsZero feeBps then New 5 (-1) else New 8 (-1) in
Ok (Some (CostEstimate.mk feeBps slippageBps fundingBps total confidence)).

(** *** Curves *)

(** A curve whose sizes grow from point to point. *)
Definition increasing (points : list SlippagePoint) : Prop :=
StronglySorted (fun a b => (toQ (Size a) < toQ (Size b))%Q) points.

(** [AddFundingRate]: the history of a feed keeps at most twice the
    look-back; [None] is the panic of a slice expression out of
    bounds. *)
Definition AddFundingRate (venue symbol : string) (rate : FundingRate.t) (s : Service)
    : option Service :=
let key := venue +:+ ":" +:+ symbol in
let appended := default [] (fundingRates s !! key) ++ [rate] in
let maxLen := Int64.mul (fundingLookback s) 2 in
let len := Z.of_nat (length appended) in
if maxLen <? len then
  let low := Int64.sub len maxLen in
  if (low <? 0) || (len <? low) then None
  else Some (mkService (feeTiers s) (slippageCurves s)
                       (<[key := drop (Z.to_nat low) appended]> (fundingRates s))
                       (fundingLookback s))
else Some (mkService (feeTiers s) (slippageCurves s)
                     (<[key := appended]> (fundingRates s)) (fundingLookback s)).

End costmodel.

(** ** Package [strategy]: the triangular module *)

Module strategy.

Import decimal domain.

Record TriangularLeg : Type := mkLeg { Symbol : string; Side : domain.Side }.

(** [Legs] is an array of three legs. *)
Record TriangularPath : Type := mkPath {
  Venue : string;
  Leg0 : TriangularLeg;
  Leg1 : TriangularLeg;
  Leg2 : TriangularLeg
}.

Definition Legs (path : TriangularPath) : list TriangularLeg :=
[Leg0 path; Leg1 path; Leg2 path].

Record TriArbModule : Type := mkModule {
  paths : list TriangularPath;
  books : gmap string OrderBookSnapshot.t;
  minEdgeBps : Z;
  venue : string
}.

Definition pathInvolves (path : TriangularPath) (symbol : string) : bool :=
existsb (fun leg => String.eqb (Symbol leg) symbol) (Legs path).

Definition allBooksAvailable (m : TriArbModule) (path : TriangularPath) : bool :=
forallb (fun leg => bool_decide (is_Some (books m !! Symbol leg))) (Legs path).

(** [m.books[leg.Symbol]] followed by a method call on the pointer. *)
Definition bookOf (m : TriArbModule) (leg : TriangularLeg)
    : outcome OrderBookSnapshot.t :=
of_option NilDereference (books m !! Symbol leg).

(** The loop of [computeEdge]; [None] is its early [return 0]. *)
Fixpoint impliedLoop (m : TriArbModule) (legs : list TriangularLeg)
    (impliedRate : FixedPrice.t) : outcome (option FixedPrice.t) :=
match legs with
| [] => Ok (Some impliedRate)
| leg :: rest =>
    let* book := bookOf m leg in
    match Side leg with
    | SideBuy =>
        match OrderBookSnapshot.BestAsk book with
        | None => Ok None
        | Some ask =>
            let price := ToFixed (PriceLevel.Price ask) in
            if price =? 0 then Ok None
            else
              let* impliedRate := FixedPrice.Div impliedRate price in
              impliedLoop m rest impliedRate
        end
    | SideSell =>
        match OrderBookSnapshot.BestBid book with
        | None => Ok None
        | Some bid =>
            let price := ToFixed (PriceLevel.Price bid) in
            let* impliedRate := FixedPrice.Mul impliedRate price in
            impliedLoop m rest impliedRate
        end
    end
end.

Definition computeEdge (m : TriArbModule) (path : TriangularPath)
    : outcome FixedPrice.t :=
let* looped := impliedLoop m (Legs path) (ToFixed (NewFromInt 1)) in
match looped with
| None => Ok 0
| Some impliedRate =>
    let one := ToFixed (NewFromInt 1) in
    if FixedPrice.GT impliedRate one then Ok (FixedPrice.Sub impliedRate one)
    else Ok 0
end.

(** The first loop of [buildSignal]: the legs at the best prices and the
    smallest notional; [None] is its [return nil]. *)
Fixpoint quoteLegs (m : TriArbModule) (legs : list TriangularLeg)
    (minSize : Decimal) : outcome (option (list LegSpec.t * Decimal)) :=
match legs with
| [] => Ok (Some ([], minSize))
| leg :: rest =>
    let* book := bookOf m leg in
    let best :=
      match Side leg with
      | SideBuy => OrderBookSnapshot.BestAsk book
      | SideSell => OrderBookSnapshot.BestBid book
      end in
    match best with
    | None => Ok None
    | Some level =>
        let price := PriceLevel.Price level in
        let size := PriceLevel.Size level in
        let notional := Mul price size in
        let minSize := if LessThan notional minSize then notional else minSize in
        let spec := LegSpec.mk (Symbol leg) (Side leg) InstrumentSpot
                               price size OrderTypeLimit in
        let* more := quoteLegs m rest minSize in
        match more with
        | None => Ok None
        | Some (specs, minSize) => Ok (Some (spec :: specs, minSize))
        end
    end
end.

(** The second loop: each leg with a positive price is sized to the
    smallest notional. *)
Fixpoint sizeLegs (legs : list LegSpec.t) (minSize : Decimal)
    : outcome (list LegSpec.t) :=
match legs with
| [] => Ok []
| leg :: rest =>
    let* leg :=
      if IsPositive (LegSpec.Price leg) then
        let* size := of_option DivideByZero (Div minSize (LegSpec.Price leg)) in
        Ok (LegSpec.mk (LegSpec.Symbol leg) (LegSpec.Side leg)
                       (LegSpec.InstrumentType leg) (LegSpec.Price leg)
                       size (LegSpec.OrderType leg))
      else Ok leg in
    let* rest := sizeLegs rest minSize in
    Ok (leg :: rest)
end.

Section CostModel.

(** [costmodel.CostModelService]: the estimate, [None] for an error; the
    call may panic. *)
Variable EstimateCost :
  string -> string -> domain.Side -> Decimal -> OrderType
  -> outcome (option CostEstimate.t).

(** The raw edge in basis points. *)
Definition edgeDecimal (edgeBps : FixedPrice.t) : Decimal :=
Mul (FixedPrice.ToDecimal edgeBps) (NewFromInt 10000).

Definition buildSignal (m : TriArbModule) (path : TriangularPath)
    (edgeBps : FixedPrice.t) (mdTimestamp : Z) (id now : Z)
    : outcome (option TradeSignal.t) :=
let* quoted := quoteLegs m (Legs path) (NewFromInt 999999999) in
match quoted with
| None => Ok None
| Some (legs, minSize) =>
    let* legs := sizeLegs legs minSize in
    match legs with
    | [] => Ok None   (* the array has three legs *)
    | first :: _ =>
        let* estimate :=
          EstimateCost (venue m) (LegSpec.Symbol first) (LegSpec.Side first)
                       (LegSpec.Size first) OrderTypeLimit in
        match estimate with
        | None => Ok None
        | Some costEst =>
            let netEdge := Sub (edgeDecimal edgeBps) (CostEstimate.TotalBps costEst) in
            if LessThanOrEqual netEdge Zero then Ok None
            else
              Ok (Some (TradeSignal.mk id StrategyTriArb (venue m) legs netEdge
                          costEst (CostEstimate.Confidence costEst) now mdTimestamp))
        end
    end
end.

(** The body of the loop of [evaluate] for one path: the signal it
    publishes, if any. *)
Definition evaluatePath (m : TriArbModule) (updatedSymbol : string)
    (mdTimestamp : Z) (id now : Z) (path : TriangularPath)
    : outcome (option TradeSignal.t) :=
if negb (pathInvolves path updatedSymbol) then Ok None
else if negb (allBooksAvailable m path) then Ok None
else
  let* edgeBps := computeEdge m path in
  let* threshold := FixedFromBps (minEdgeBps m) in
  if FixedPrice.GT edgeBps threshold
  then buildSignal m path edgeBps mdTimestamp id now
  else Ok None.

(** [evaluate]: the signals published, in the order of the paths. [ids]
    supplies the identifiers. *)
Fixpoint evaluatePaths (m : TriArbModule) (updatedSymbol : string)
    (mdTimestamp : Z) (ids : nat -> Z) (now : Z) (ps : list TriangularPath)
    : outcome (list TradeSignal.t) :=
match ps with
| [] => Ok []
| path :: rest =>
    let* signal := evaluatePath m updatedSymbol mdTimestamp (ids (length rest)) now path in
    let* more := evaluatePaths m updatedSymbol mdTimestamp ids now rest in
    Ok (match signal with Some s => s :: more | None => more end)
end.

Definition evaluate (m : TriArbModule) (updatedSymbol : string)
    (mdTimestamp : Z) (ids : nat -> Z) (now : Z) : outcome (list TradeSignal.t) :=
evaluatePaths m updatedSymbol mdTimestamp ids now (paths m).

Definition OnOrderBookUpdate (m : TriArbModule) (snap : OrderBookSnapshot.t)
    (ids : nat -> Z) (now : Z) : TriArbModule * outcome (list TradeSignal.t) :=
if negb (String.eqb (OrderBookSnapshot.Venue snap) (venue m)) then (m, Ok [])
else
  let m := mkModule (paths m)
                    (<[OrderBookSnapshot.Symbol snap := snap]> (books m))
                    (minEdgeBps m) (venue m) in
  (m, evaluate m (OrderBookSnapshot.Symbol snap)
               (OrderBookSnapshot.LocalTimestamp snap) ids now).

End CostModel.

Definition DefaultTriangularPaths (venue : string) : list TriangularPath :=
[ mkPath venue (mkLeg "BTC/USDT" SideBuy) (mkLeg "ETH/BTC" SideBuy) (mkLeg "ETH/USDT" SideSell);
  mkPath venue (mkLeg "ETH/USDT" SideBuy) (mkLeg "ETH/BTC" SideSell) (mkLeg "BTC/USDT" SideSell);
  mkPath venue (mkLeg "BTC/USDT" SideBuy) (mkLeg "SOL/BTC" SideBuy) (mkLeg "SOL/USDT" SideSell);
  mkPath venue (mkLeg "SOL/USDT" SideBuy) (mkLeg "SOL/BTC" SideSell) (mkLeg "BTC/USDT" SideSell);
  mkPath venue (mkLeg "ETH/USDT" SideBuy) (mkLeg "SOL/ETH" SideBuy) (mkLeg "SOL/USDT" SideSell);
  mkPath venue (mkLeg "SOL/USDT" SideBuy) (mkLeg "SOL/ETH" SideSell) (mkLeg "ETH/USDT" SideSell) ].

(** *** The implied rate, leg by leg *)

Definition one : FixedPrice.t := ToFixed (NewFromInt 1).

(** The values [FixedPrice.Div] and [FixedPrice.Mul] return. *)
Definition div_fixed (f other : FixedPrice.t) : FixedPrice.t :=
if other =? 0 then 0 else Int64.quo (Int64.mul f PricePrecision) other.

Definition mul_fixed (f other : FixedPrice.t) : FixedPrice.t :=
Int64.quo (Int64.mul f other) PricePrecision.

(** The best price a leg trades at: best ask to buy, best bid to sell. *)
Definition bestLevel (m : TriArbModule) (leg : TriangularLeg)
    : option PriceLevel.t :=
match books m !! Symbol leg with
| None => None
| Some book =>
    match Side leg with
    | SideBuy => OrderBookSnapshot.BestAsk book
    | SideSell => OrderBookSnapshot.BestBid book
    end
end.

Fixpoint quotesOf (m : TriArbModule) (legs : list TriangularLeg)
    : option (list (domain.Side * Decimal)) :=
match legs with
| [] => Some []
| leg :: rest =>
    match bestLevel m leg, quotesOf m rest with
    | Some level, Some qs => Some ((Side leg, PriceLevel.Price level) :: qs)
    | _, _ => None
    end
end.

(** One leg of the compound rate: divide by the ask to buy, multiply by
    the bid to sell. *)
Definition compound (rate : FixedPrice.t) (q : domain.Side * Decimal)
    : FixedPrice.t :=
match fst q with
| SideBuy => div_fixed rate (ToFixed (snd q))
| SideSell => mul_fixed rate (ToFixed (snd q))
end.

Definition implied (qs : list (domain.Side * Decimal)) : FixedPrice.t :=
fold_left compound qs one.

Definition booksAvailable (m : TriArbModule) (legs : list TriangularLeg) : Prop :=
Forall (fun leg => is_Some (books m !! Symbol leg)) legs.

(** The edge the code returns for a compound rate. *)
Definition edge_of (impliedRate : FixedPrice.t) : FixedPrice.t :=
if FixedPrice.GT impliedRate one then FixedPrice.Sub impliedRate one else 0.

(** The cost model returns (it does not panic). *)
Definition returns
    (EstimateCost : string -> string -> domain.Side -> Decimal -> OrderType
                    -> outcome (option CostEstimate.t)) : Prop :=
forall venue symbol side size orderType,
  exists r, EstimateCost venue symbol side size orderType = Ok r.

(** *** The scenarios *)

Definition quoted_book (symbol : string) (bid ask : Decimal) : OrderBookSnapshot.t :=
OrderBookSnapshot.mk "x" symbol
  [PriceLevel.mk bid (NewFromInt 1)] [PriceLevel.mk ask (NewFromInt 1)] 1 0 0.

Definition example_module (ethusdt_bid : Decimal) : TriArbModule :=
mkModule (DefaultTriangularPaths "x")
  (<["BTC/USDT" := quoted_book "BTC/USDT" (NewFromInt 49999) (NewFromInt 50000)]>
     (<["ETH/BTC" := quoted_book "ETH/BTC" (New 599 (-4)) (New 6 (-2))]>
        (<["ETH/USDT" := quoted_book "ETH/USDT" ethusdt_bid
                                     (Add ethusdt_bid (NewFromInt 1))]> ∅)))
  18 "x".

Definition example_path : TriangularPath :=
mkPath "x" (mkLeg "BTC/USDT" SideBuy) (mkLeg "ETH/BTC" SideBuy)
           (mkLeg "ETH/USDT" SideSell).

Definition free_of_cost (_ _ : string) (_ : domain.Side) (_ : Decimal)
    (_ : OrderType) : outcome (option CostEstimate.t) :=
Ok (Some (CostEstimate.mk (New 0 0) (New 0 0) None (New 0 0) (New 8 (-1)))).

(** The statement of the specification for the edge. *)
Definition edge_is_implied_minus_one : Prop :=
forall (m : TriArbModule) (path : TriangularPath) (qs : list (domain.Side * Decimal)),
  allBooksAvailable m path = true ->
  quotesOf m (Legs path) = Some qs ->
  computeEdge m path = Ok (FixedPrice.Sub (implied qs) one).

(** *** The legs of a signal *)

(** The notional on offer at a level. *)
Definition top_notional (level : PriceLevel.t) : Q :=
(toQ (PriceLevel.Price level) * toQ (PriceLevel.Size level))%Q.

(** The smallest of a cap and the notionals of the levels. *)
Fixpoint min_notional (cap : Q) (levels : list PriceLevel.t) : Q :=
match levels with
| [] => cap
| level :: rest => min_notional (Qmin (top_notional level) cap) rest
end.

Definition quoted (m : TriArbModule) (leg : TriangularLeg) (level : PriceLevel.t)
    : Prop :=
bestLevel m leg = Some level.

(** A leg of a signal sized to the notional [n] at the level [level]: a
    limit order at the level's price for [n / price], rounded; a level
    whose price is not positive keeps its own size. *)
Definition sized (n : Q) (quote : TriangularLeg * PriceLevel.t) (spec : LegSpec.t)
    : Prop :=
let '(leg, level) := quote in
LegSpec.Symbol spec = Symbol leg /\
LegSpec.Side spec = Side leg /\
LegSpec.InstrumentType spec = InstrumentSpot /\
LegSpec.OrderType spec = OrderTypeLimit /\
LegSpec.Price spec = PriceLevel.Price level /\
((0 < toQ (PriceLevel.Price level))%Q ->
 (Qabs (toQ (LegSpec.Size spec) - n / toQ (PriceLevel.Price level))
  <= (1 # 2) * ten ^ (- DivisionPrecision))%Q) /\
(~ (0 < toQ (PriceLevel.Price level))%Q ->
 LegSpec.Size spec = PriceLevel.Size level).

End strategy.

(** ** Package [execution] *)

Module execution.

Import decimal domain.

(** What stops a method of this package: a division by zero in the
    decimal package, a slice expression out of bounds, or [make] with a
    negative length. *)
Inductive fault : Type :=
| DivisionByZero
| SliceBoundsOutOfRange
| NegativeLength.

Inductive run (A : Type) : Type :=
| Returns (a : A)
| Panics (f : fault).

Arguments Returns {A} a.

Arguments Panics {A} f.

(** *** The quality tracker *)

Record FillQualityRecord : Type := mkRecord {
  Symbol : string;
  Side : string;
  ExpectedPrice : Decimal;
  ActualPrice : Decimal;
  SlippageBps : Decimal
}.

Record QualityTracker : Type := mkTracker {
  records : list FillQualityRecord;
  maxSize : Z
}.

(** [make] with a negative capacity panics. *)
Definition NewQualityTracker (maxSize : Z) : run QualityTracker :=
if maxSize <? 0 then Panics NegativeLength else Returns (mkTracker [] maxSize).

(** [s[low:]]: the elements from [low] on; [low] must lie within the
    slice. *)
Definition slice_from {A : Type} (s : list A) (low : Z) : run (list A) :=
if (low <? 0) || (Z.of_nat (length s) <? low) then Panics SliceBoundsOutOfRange
else Returns (drop (Z.to_nat low) s).

Definition RecordFill (symbol side : string) (expected actual : Decimal)
    (qt : QualityTracker) : run QualityTracker :=
if IsZero expected then Returns qt
else
  match Div (Sub actual expected) expected with
  | None => Panics DivisionByZero
  | Some ratio =>
      let slippage := Mul ratio (NewFromInt 10000) in
      let slippage := if String.eqb side "SELL" then Neg slippage else slippage in
      let record := mkRecord symbol side expected actual slippage in
      let appended := records qt ++ [record] in
      if maxSize qt <? Z.of_nat (length appended) then
        match slice_from appended (Int64.sub (Z.of_nat (length appended)) (maxSize qt)) with
        | Returns kept => Returns (mkTracker kept (maxSize qt))
        | Panics f => Panics f
        end
      else Returns (mkTracker appended (maxSize qt))
  end.

Definition AverageSlippageBps (qt : QualityTracker) : run Decimal :=
match records qt with
| [] => Returns Zero
| _ =>
    let sum := fold_left (fun sum r => Add sum (SlippageBps r)) (records qt) Zero in
    match Div sum (NewFromInt (Z.of_nat (length (records qt)))) with
    | None => Panics DivisionByZero
    | Some avg => Returns avg
    end
end.

(** *** Submission with retries *)

(** [submitWithRetry]: attempt [attempt], then the later ones. Before
    every attempt but the first the engine waits for the back-off or for
    the end of the context, whichever comes first: [cancelled k] tells
    that the context ended before attempt [k]. [clock k] is the time of
    attempt [k]. *)
Fixpoint attempts (cancelled : Z -> bool) (clock : Z -> Z) (req : OrderRequest.t)
    (remaining : nat) (attempt : Z) (m : order.Manager)
    : order.Manager * list order.effect * order.result :=
match remaining with
| O => (m, [], order.Failed "order failed after retries")
| S remaining =>
    if (0 <? attempt) && cancelled attempt then (m, [], order.Failed "context done")
    else
      let '(m, es, r) := order.SubmitOrder (clock attempt) req m in
      match r with
      | order.Returned ord => (m, es, order.Returned ord)
      | order.Failed _ =>
          let '(m, es', r) := attempts cancelled clock req remaining (attempt + 1) m in
          (m, es ++ es', r)
      end
end.

Definition submitWithRetry (maxRetries : Z) (cancelled : Z -> bool) (clock : Z -> Z)
    (req : OrderRequest.t) (m : order.Manager)
    : order.Manager * list order.effect * order.result :=
attempts cancelled clock req (Z.to_nat (maxRetries + 1)) 0 m.

(** The slippage of a fill in basis points, signed so that a worse price
    is positive. *)
Definition slippage_bps (side : string) (expected actual : Decimal) : Q :=
let s := ((toQ actual - toQ expected) / toQ expected * 10000)%Q in
if String.eqb side "SELL" then (- s)%Q else s.

Definition sum_slippage (rs : list FillQualityRecord) : Q :=
fold_right (fun r acc => (toQ (SlippageBps r) + acc)%Q) 0%Q rs.

End execution.

(** ** Package [portfolio] *)

Module portfolio.

Import decimal domain.

(** Balances and positions are keyed by venue and asset. *)
Record Manager : Type := mkManager {
  spotBalances : gmap (string * string) Balance.t;
  perpPositions : gmap (string * string) Position.t;
  realizedPnL : Decimal;
  unrealizedPnL : Decimal;
  dailyPnLStart : Z
}.

Definition NewManager (today : Z) : Manager :=
mkManager ∅ ∅ (New 0 0) (New 0 0) today.

Definition setBalances (bs : gmap (string * string) Balance.t) (m : Manager) : Manager :=
mkManager bs (perpPositions m) (realizedPnL m) (unrealizedPnL m) (dailyPnLStart m).

Definition UpdateBalance (venue asset : string) (free locked : Decimal) (m : Manager)
    : Manager :=
setBalances
  (<[(venue, asset) := Balance.mk venue asset free locked (Add free locked)]>
     (spotBalances m)) m.

(** The package has its own [extractAsset], the same as the one of the
    risk package. *)
Definition extractAsset (symbol : string) : string :=
match risk.before_slash symbol with
| Some asset => asset
| None =>
    match find (fun a => String.prefix a symbol) ["BTC"; "ETH"; "SOL"] with
    | Some a => a
    | None => symbol
    end
end.

(** A fill moves the free balance held under the venue and the asset of
    the order's symbol: down by the notional for a buy, up for a sell. *)
Definition OnFillEvent (order : Order.t) (m : Manager) : Manager :=
let key := (Order.Venue order, extractAsset (Order.Symbol order)) in
match spotBalances m !! key with
| Some bal =>
    let notional := Mul (Order.AvgFillPrice order) (Order.FilledSize order) in
    let free :=
      match Order.Side order with
      | SideBuy => Sub (Balance.Free bal) notional
      | SideSell => Add (Balance.Free bal) notional
      end in
    setBalances
      (<[key := Balance.mk (Balance.Venue bal) (Balance.Asset bal) free
                           (Balance.Locked bal) (Add free (Balance.Locked bal))]>
         (spotBalances m)) m
| None => m
end.

(** Every balance the manager holds adds up. *)
Definition balanced (m : Manager) : Prop :=
forall key bal, spotBalances m !! key = Some bal ->
                Balance.Total bal = Add (Balance.Free bal) (Balance.Locked bal).

End portfolio.

(** ** Package [monitor] *)

Module monitor.

Inductive AlertLevel : Type := AlertLevelP1 | AlertLevelP2.

Record Alert : Type := mkAlert {
  Level : AlertLevel;
  Name : string;
  Condition : string;
  Message : string;
  FiredAt : Z;
  AckedAt : option Z
}.

Record AlertManager : Type := mkAlertManager {
  alerts : list Alert;
  channels : list string
}.

Inductive effect : Type :=
| LogAlertFired (alert : Alert)
| LogDispatched (channel : string) (alert : Alert).

Definition NewAlertManager (channels : list string) : AlertManager :=
mkAlertManager [] channels.

Definition dispatch (am : AlertManager) (alert : Alert) : list effect :=
map (fun ch => LogDispatched ch alert) (channels am).

Definition Fire (now : Z) (level : AlertLevel) (name condition message : string)
    (am : AlertManager) : AlertManager * list effect :=
let alert := mkAlert level name condition message now None in
(mkAlertManager (alerts am ++ [alert]) (channels am),
 LogAlertFired alert :: dispatch am alert).

Definition unacked (a : Alert) : bool :=
match AckedAt a with None => true | Some _ => false end.

Definition ActiveAlerts (am : AlertManager) : list Alert :=
List.filter unacked (alerts am).

Definition AcknowledgeAlert (now : Z) (name : string) (am : AlertManager)
    : AlertManager :=
mkAlertManager
  (map (fun a =>
          if String.eqb (Name a) name && unacked a
          then mkAlert (Level a) (Name a) (Condition a) (Message a) (FiredAt a) (Some now)
          else a)
       (alerts am))
  (channels am).

End monitor.

(** * Properties

    The definitions above follow the packages of the repository; the
    properties below are grouped the same way, one module of facts per
    package. *)

(** ** Facts about package [Int64] *)

Module Int64_facts.
Import Int64.

Lemma wrap_small (z : Z) : in_range z -> wrap z = z.
Proof.
  unfold in_range, min_int, max_int, wrap. intros H.
  rewrite Z.mod_small by lia. lia.
Qed.

Lemma wrap_in_range (z : Z) : in_range (wrap z).
Proof.
  unfold in_range, min_int, max_int, wrap.
  pose proof (Z.mod_pos_bound (z + 2 ^ 63) (2 ^ 64) ltac:(lia)). lia.
Qed.

Lemma of_big_small (x : Z) : in_range x -> of_big x = x.
Proof.
  unfold in_range, min_int, max_int, of_big. intros H.
  rewrite (Z.mod_small (Z.abs x)) by lia.
  destruct (Z.ltb_spec x 0) as [Hneg | Hpos].
  - destruct (Z.eq_dec x (- 2 ^ 63)) as [-> | Hne]; [reflexivity |].
    rewrite (wrap_small (Z.abs x)) by (unfold in_range, min_int, max_int; lia).
    rewrite wrap_small by (unfold in_range, min_int, max_int; lia). lia.
  - rewrite wrap_small by (unfold in_range, min_int, max_int; lia). lia.
Qed.

End Int64_facts.

(** ** Facts about package [decimal] *)

Module decimal_facts.
Import decimal.

Lemma ten_neq0 : ~ (ten == 0)%Q.
Proof. discriminate. Qed.

Lemma ten_pow_pos (e : Z) : (0 < ten ^ e)%Q.
Proof. apply Qpower_0_lt. reflexivity. Qed.

Lemma ten_pow_inject (n : Z) : 0 <= n -> (inject_Z (10 ^ n) == ten ^ n)%Q.
Proof. intros H. unfold ten. now apply Zpower_Qpower. Qed.

Lemma toQ_rescale (e : Z) (d : Decimal) :
  e <= exp d -> (toQ (rescale e d) == toQ d)%Q.
Proof.
  intros Hle. unfold rescale.
  destruct (Z.eqb_spec (exp d) e) as [_ | Hne]; [reflexivity |].
  destruct (Z.ltb_spec (exp d) e) as [Hlt | _]; [lia |].
  unfold toQ; simpl.
  rewrite inject_Z_mult, ten_pow_inject by lia.
  rewrite <- Qmult_assoc, <- Qpower_plus by apply ten_neq0.
  now replace (exp d - e + e) with (exp d) by lia.
Qed.

Lemma RescalePair_spec (d1 d2 : Decimal) :
  exp (fst (RescalePair d1 d2)) = exp (snd (RescalePair d1 d2)) /\
  (toQ (fst (RescalePair d1 d2)) == toQ d1)%Q /\
  (toQ (snd (RescalePair d1 d2)) == toQ d2)%Q.
Proof.
  unfold RescalePair.
  destruct (Z.ltb_spec (exp d1) (exp d2)) as [H12 | H12]; simpl.
  - split; [| split; [reflexivity | apply toQ_rescale; lia]].
    unfold rescale.
    destruct (Z.eqb_spec (exp d2) (exp d1)); [lia |].
    now destruct (exp d2 <? exp d1).
  - destruct (Z.ltb_spec (exp d2) (exp d1)) as [H21 | H21]; simpl.
    + split; [| split; [apply toQ_rescale; lia | reflexivity]].
      unfold rescale.
      destruct (Z.eqb_spec (exp d1) (exp d2)); [lia |].
      now destruct (exp d1 <? exp d2).
    + split; [lia | split; reflexivity].
Qed.

Lemma toQ_Add (a b : Decimal) : (toQ (Add a b) == toQ a + toQ b)%Q.
Proof.
  unfold Add. destruct (RescalePair_spec a b) as (He & Ha & Hb).
  destruct (RescalePair a b) as [ra rb]; simpl in *.
  rewrite <- Ha, <- Hb. unfold toQ; simpl.
  rewrite inject_Z_plus, He. ring.
Qed.

Lemma toQ_Sub (a b : Decimal) : (toQ (Sub a b) == toQ a - toQ b)%Q.
Proof.
  unfold Sub. destruct (RescalePair_spec a b) as (He & Ha & Hb).
  destruct (RescalePair a b) as [ra rb]; simpl in *.
  rewrite <- Ha, <- Hb. unfold toQ; simpl.
  unfold Z.sub. rewrite inject_Z_plus, inject_Z_opp, He. ring.
Qed.

Lemma toQ_Neg (a : Decimal) : (toQ (Neg a) == - toQ a)%Q.
Proof. unfold toQ, Neg; simpl. rewrite inject_Z_opp. ring. Qed.

Lemma toQ_Mul (a b : Decimal) : (toQ (Mul a b) == toQ a * toQ b)%Q.
Proof.
  unfold toQ, Mul; simpl.
  rewrite inject_Z_mult, Qpower_plus by apply ten_neq0. ring.
Qed.

Lemma toQ_Zero : (toQ Zero == 0)%Q.
Proof. reflexivity. Qed.

Lemma toQ_NewFromInt (v : Z) : (toQ (NewFromInt v) == inject_Z v)%Q.
Proof. unfold toQ, NewFromInt; simpl. ring. Qed.

Lemma toQ_sign (a : Decimal) :
  ((0 < value a)%Z <-> (0 < toQ a)%Q) /\
  ((value a = 0)%Z <-> (toQ a == 0)%Q) /\
  ((value a < 0)%Z <-> (toQ a < 0)%Q).
Proof.
  pose proof (ten_pow_pos (exp a)) as Hp. unfold toQ.
  assert (Hz : forall z, (0 < z)%Z -> (0 < inject_Z z * ten ^ exp a)%Q).
  { intros z Hz. apply Qmult_lt_0_compat; [| exact Hp].
    rewrite (Zlt_Qlt 0 z) in Hz. exact Hz. }
  assert (Hn : forall z, (z < 0)%Z -> (inject_Z z * ten ^ exp a < 0)%Q).
  { intros z Hlt. pose proof (Hz (- z)%Z ltac:(lia)) as Hz0.
    rewrite inject_Z_opp in Hz0. lra. }
  assert (H0 : forall z, z = 0%Z -> (inject_Z z * ten ^ exp a == 0)%Q).
  { intros z ->. change (inject_Z 0) with 0%Q. ring. }
  destruct (Z.lt_trichotomy (value a) 0) as [H | [H | H]].
  - specialize (Hn _ H). split; [| split]; split; intros; lia || lra.
  - specialize (H0 _ H). split; [| split]; split; intros; lia || lra.
  - specialize (Hz _ H). split; [| split]; split; intros; lia || lra.
Qed.

Lemma Cmp_spec (a b : Decimal) : Cmp a b = (toQ a ?= toQ b)%Q.
Proof.
  unfold Cmp. destruct (RescalePair_spec a b) as (He & Ha & Hb).
  destruct (RescalePair a b) as [ra rb]; simpl in *.
  rewrite <- Ha, <- Hb. unfold toQ. rewrite He.
  pose proof (ten_pow_pos (exp rb)) as Hp.
  destruct (Z.compare_spec (value ra) (value rb)) as [Heq | Hlt | Hgt];
    symmetry.
  - apply Qeq_alt. now rewrite Heq.
  - apply Qlt_alt, Qmult_lt_compat_r; [exact Hp |].
    now rewrite <- Zlt_Qlt.
  - apply Qgt_alt, Qmult_lt_compat_r; [exact Hp |].
    now rewrite <- Zlt_Qlt.
Qed.

Lemma GreaterThan_spec (a b : Decimal) :
  GreaterThan a b = true <-> (toQ b < toQ a)%Q.
Proof.
  unfold GreaterThan. rewrite Cmp_spec, Qgt_alt.
  destruct (toQ a ?= toQ b)%Q; split; congruence.
Qed.

Lemma LessThan_spec (a b : Decimal) :
  LessThan a b = true <-> (toQ a < toQ b)%Q.
Proof.
  unfold LessThan. rewrite Cmp_spec, Qlt_alt.
  destruct (toQ a ?= toQ b)%Q; split; congruence.
Qed.

Lemma LessThanOrEqual_spec (a b : Decimal) :
  LessThanOrEqual a b = true <-> (toQ a <= toQ b)%Q.
Proof.
  unfold LessThanOrEqual. rewrite Cmp_spec, Qle_alt.
  destruct (toQ a ?= toQ b)%Q; split; congruence.
Qed.

Lemma GreaterThanOrEqual_spec (a b : Decimal) :
  GreaterThanOrEqual a b = true <-> (toQ b <= toQ a)%Q.
Proof.
  unfold GreaterThanOrEqual. rewrite Cmp_spec, Qge_alt.
  destruct (toQ a ?= toQ b)%Q; split; congruence.
Qed.

Lemma Equal_spec (a b : Decimal) : Equal a b = true <-> (toQ a == toQ b)%Q.
Proof.
  unfold Equal. rewrite Cmp_spec, Qeq_alt.
  destruct (toQ a ?= toQ b)%Q; split; congruence.
Qed.

Lemma IsZero_spec (a : Decimal) : IsZero a = true <-> (toQ a == 0)%Q.
Proof.
  unfold IsZero. rewrite Z.eqb_eq. apply (toQ_sign a).
Qed.

Lemma IsPositive_spec (a : Decimal) : IsPositive a = true <-> (0 < toQ a)%Q.
Proof.
  unfold IsPositive. rewrite Z.ltb_lt. apply (toQ_sign a).
Qed.


Lemma toQ_Min (a b : Decimal) : (toQ (Min a b) == Qmin (toQ a) (toQ b))%Q.
Proof.
  unfold Min. rewrite Cmp_spec.
  destruct (Qcompare_spec (toQ b) (toQ a)) as [Heq | Hlt | Hgt].
  - rewrite Q.min_l; [reflexivity | lra].
  - rewrite Q.min_r; [reflexivity | lra].
  - rewrite Q.min_l; [reflexivity | lra].
Qed.

Lemma round_half_away_bound (aa bb : Z) :
  bb <> 0 -> 2 * Z.abs (round_half_away aa bb * bb - aa) <= Z.abs bb.
Proof.
  intros Hbb. unfold round_half_away.
  pose proof (Z.quot_rem' aa bb) as Hqr.
  pose proof (Z.rem_bound_abs aa bb Hbb) as Hr.
  set (q := Z.quot aa bb) in *. set (r := Z.rem aa bb) in *.
  destruct (Z.ltb_spec (2 * Z.abs r) (Z.abs bb)) as [Hs | Hl].
  - replace (q * bb - aa) with (- r) by lia. lia.
  - assert (r <> 0) as Hr0 by lia.
    pose proof (Z.rem_sign_nz aa bb Hbb Hr0) as Hsg. fold r in Hsg.
    destruct (Z.ltb_spec (Z.sgn aa * Z.sgn bb) 0) as [Hopp | Hsame].
    + replace ((q - 1) * bb - aa) with (- bb - r) by lia.
      destruct (Z.sgn_spec aa) as [[? Ha] | [[? Ha] | [? Ha]]];
      destruct (Z.sgn_spec bb) as [[? Hb] | [[? Hb] | [? Hb]]];
      rewrite Ha, Hb in *; lia.
    + replace ((q + 1) * bb - aa) with (bb - r) by lia.
      destruct (Z.sgn_spec aa) as [[? Ha] | [[? Ha] | [? Ha]]];
      destruct (Z.sgn_spec bb) as [[? Hb] | [[? Hb] | [? Hb]]];
      rewrite Ha, Hb in *; lia.
Qed.

Lemma sgn_scale (v k : Z) : 0 <= k -> Z.sgn (v * 10 ^ k) = Z.sgn v.
Proof.
  intros Hk. rewrite Z.sgn_mul.
  rewrite (Z.sgn_pos (10 ^ k)) by (apply Z.pow_pos_nonneg; lia). lia.
Qed.

Lemma DivRound_round (d d2 : Decimal) (precision : Z) :
  DivRound d d2 precision =
  New (round_half_away (fst (QuoRem_operands d d2 precision))
                       (snd (QuoRem_operands d d2 precision)))
      (- precision).
Proof.
  unfold DivRound, round_half_away, QuoRem_operands.
  destruct (Z.ltb_spec (exp d - exp d2 + precision) 0) as [He | He]; simpl.
  - rewrite sgn_scale by lia.
    destruct (_ <? _); [reflexivity |]. now destruct (_ <? _).
  - rewrite sgn_scale by lia.
    destruct (_ <? _); [reflexivity |]. now destruct (_ <? _).
Qed.

(** The operands of the integer division stand for the exact quotient
    scaled by [10^precision]. *)
Lemma QuoRem_operands_spec (d d2 : Decimal) (precision : Z) :
  value d2 <> 0 ->
  snd (QuoRem_operands d d2 precision) <> 0 /\
  (inject_Z (fst (QuoRem_operands d d2 precision)) ==
   toQ d / toQ d2 * ten ^ precision *
   inject_Z (snd (QuoRem_operands d d2 precision)))%Q.
Proof.
  intros Hnz. unfold QuoRem_operands, toQ.
  pose proof (ten_pow_pos (exp d)) as Hd.
  pose proof (ten_pow_pos (exp d2)) as Hd2.
  pose proof (ten_pow_pos precision) as Hp.
  assert (Hb : ~ (inject_Z (value d2) == 0)%Q).
  { intros H. apply Hnz. apply (inject_Z_injective (value d2) 0). exact H. }
  destruct (Z.ltb_spec (exp d - exp d2 + precision) 0) as [He | He]; simpl.
  - split.
    + assert (0 < 10 ^ (- (exp d - exp d2 + precision))) by
        (apply Z.pow_pos_nonneg; lia). nia.
    + rewrite inject_Z_mult, ten_pow_inject by lia.
      replace (- (exp d - exp d2 + precision))
        with (exp d2 - exp d - precision) by lia.
      rewrite !Qpower_minus by apply ten_neq0.
      field; repeat split; try lra; exact Hb.
  - split; [exact Hnz |].
    rewrite inject_Z_mult, ten_pow_inject by lia.
    replace (exp d - exp d2 + precision)
      with (exp d - exp d2 - - precision) at 1 by lia.
    rewrite !Qpower_minus, Qpower_opp by apply ten_neq0.
    field; repeat split; try lra; exact Hb.
Qed.

Lemma DivRound_spec (d d2 : Decimal) (precision : Z) :
  value d2 <> 0 ->
  exp (DivRound d d2 precision) = - precision /\
  (Qabs (toQ (DivRound d d2 precision) - toQ d / toQ d2)
   <= (1 # 2) * ten ^ (- precision))%Q.
Proof.
  intros Hnz. rewrite DivRound_round. split; [reflexivity |].
  destruct (QuoRem_operands_spec d d2 precision Hnz) as (Hbb & Hq).
  pose proof (round_half_away_bound
                (fst (QuoRem_operands d d2 precision)) _ Hbb) as Hr.
  set (aa := fst (QuoRem_operands d d2 precision)) in *.
  set (bb := snd (QuoRem_operands d d2 precision)) in *.
  set (q := round_half_away aa bb) in *.
  set (x := (toQ d / toQ d2)%Q) in *.
  change (toQ (New q (- precision)))
    with (inject_Z q * ten ^ (- precision))%Q.
  pose proof (ten_pow_pos precision) as Hp.
  pose proof (ten_pow_pos (- precision)) as Hp'.
  assert (Hinv : (ten ^ precision * ten ^ (- precision) == 1)%Q).
  { rewrite <- Qpower_plus by apply ten_neq0.
    now replace (precision + - precision) with 0 by lia. }
  set (T := (ten ^ precision)%Q) in *. set (T' := (ten ^ (- precision))%Q) in *.
  assert (HB : ~ (inject_Z bb == 0)%Q).
  { intros H. apply Hbb. apply (inject_Z_injective bb 0). exact H. }
  clearbody x T T'.
  set (E := (inject_Z (q * bb - aa))%Q).
  assert (HE : (2 * Qabs E <= Qabs (inject_Z bb))%Q).
  { change (Qabs E) with (inject_Z (Z.abs (q * bb - aa))).
    change (Qabs (inject_Z bb)) with (inject_Z (Z.abs bb)).
    change 2%Q with (inject_Z 2). rewrite <- inject_Z_mult, <- Zle_Qle.
    exact Hr. }
  assert (HBpos : (0 < Qabs (inject_Z bb))%Q).
  { change (Qabs (inject_Z bb)) with (inject_Z (Z.abs bb)).
    change 0%Q with (inject_Z 0). rewrite <- Zlt_Qlt. lia. }
  assert (Hu : (Qabs (E / inject_Z bb) <= 1 # 2)%Q).
  { unfold Qdiv. rewrite Qabs_Qmult, Qabs_Qinv.
    apply Qle_shift_div_r; [exact HBpos | lra]. }
  assert (Hy : (inject_Z q * T' - x == T' * (E / inject_Z bb))%Q).
  { assert (Hx : (x == inject_Z aa * T' / inject_Z bb)%Q).
    { rewrite Hq. field_simplify_eq; [| exact HB].
      rewrite <- Qmult_assoc, Hinv. ring. }
    rewrite Hx. unfold E, Z.sub.
    rewrite inject_Z_plus, inject_Z_opp, inject_Z_mult.
    field. exact HB. }
  rewrite Hy, Qabs_Qmult, (Qabs_pos T') by lra.
  rewrite (Qmult_comm (1 # 2)).
  apply Qmult_le_l; [exact Hp' | exact Hu].
Qed.

Lemma Div_spec (d d2 q : Decimal) :
  Div d d2 = Some q ->
  (Qabs (toQ q - toQ d / toQ d2) <= (1 # 2) * ten ^ (- DivisionPrecision))%Q.
Proof.
  unfold Div. destruct (Z.eqb_spec (value d2) 0) as [| Hnz]; [discriminate |].
  intros [= <-]. now apply DivRound_spec.
Qed.

Lemma Div_total (d d2 : Decimal) :
  IsZero d2 = false -> exists q, Div d d2 = Some q.
Proof. unfold Div, IsZero. intros ->. eauto. Qed.

(** A number with [p] fractional digits that is within half a unit of
    the last digit of another such number is that number. *)
Lemma rounded_exact (q : Decimal) (p k : Z) (x : Q) :
exp q = - p ->
(Qabs (toQ q - x) <= (1 # 2) * ten ^ (- p))%Q ->
(x == inject_Z k * ten ^ (- p))%Q ->
(toQ q == x)%Q.
Proof.
intros Hexp Hbound Hx. unfold toQ in *. rewrite Hexp in *.
pose proof (ten_pow_pos (- p)) as HT. set (T := (ten ^ (- p))%Q) in *.
rewrite Hx in Hbound |- *.
assert (Hd : (inject_Z (value q) * T - inject_Z k * T
              == inject_Z (value q - k) * T)%Q).
{ unfold Z.sub. rewrite inject_Z_plus, inject_Z_opp. ring. }
rewrite Hd, Qabs_Qmult, (Qabs_pos T) in Hbound by lra.
change (Qabs (inject_Z (value q - k))) with (inject_Z (Z.abs (value q - k)))
  in Hbound.
assert (Hlt : (inject_Z (Z.abs (value q - k)) < inject_Z 1)%Q).
{ apply (Qmult_lt_r _ _ T HT).
  change (inject_Z 1) with 1%Q. lra. }
rewrite <- Zlt_Qlt in Hlt.
assert (value q = k) as -> by lia. reflexivity.
Qed.

End decimal_facts.

(** ** Facts about package [domain] *)

Module domain_facts.
Import decimal domain decimal_facts.

(** *** Facts about fixed-point prices *)

(** [rescale 0] truncates toward zero: the integer it leaves lies between
  zero and the number, less than one away from it. *)
Lemma rescale0_trunc (m : Decimal) :
let T := inject_Z (value (rescale 0 m)) in
((0 <= toQ m)%Q -> (0 <= T <= toQ m)%Q /\ (toQ m - T < 1)%Q) /\
((toQ m <= 0)%Q -> (toQ m <= T <= 0)%Q /\ (T - toQ m < 1)%Q).
Proof.
intros T. subst T.
destruct (Z.le_gt_cases 0 (exp m)) as [Hge | Hlt].
- (* no fractional digits: exact *)
pose proof (toQ_rescale 0 m Hge) as Heq.
assert (Hexp : exp (rescale 0 m) = 0).
{ unfold rescale. destruct (Z.eqb_spec (exp m) 0) as [E | E]; [exact E |].
  now destruct (exp m <? 0). }
assert (HT : (inject_Z (value (rescale 0 m)) == toQ m)%Q).
{ rewrite <- Heq. unfold toQ. rewrite Hexp. simpl. ring. }
rewrite HT. split; intros H; split; try split; lra.
- unfold rescale.
destruct (Z.eqb_spec (exp m) 0) as [E | _]; [lia |].
destruct (Z.ltb_spec (exp m) 0) as [_ | E]; [| lia]. simpl.
set (K := 10 ^ (0 - exp m)).
assert (HK : 0 < K) by (apply Z.pow_pos_nonneg; lia).
assert (HKq : (0 < inject_Z K)%Q).
{ change 0%Q with (inject_Z 0). now rewrite <- Zlt_Qlt. }
assert (Hv : (inject_Z (value m) == toQ m * inject_Z K)%Q).
{ unfold toQ, K. rewrite ten_pow_inject by lia.
  rewrite <- Qmult_assoc, <- Qpower_plus by apply ten_neq0.
  replace (exp m + (0 - exp m)) with 0 by lia. simpl. ring. }
pose proof (Z.quot_rem' (value m) K) as Hqr.
set (q := Z.quot (value m) K) in *. set (r := Z.rem (value m) K) in *.
assert (Hq : (toQ m - inject_Z q == inject_Z r / inject_Z K)%Q).
{ assert (Hi : (inject_Z (value m) == inject_Z K * inject_Z q + inject_Z r)%Q).
  { rewrite <- inject_Z_mult, <- inject_Z_plus. now rewrite <- Hqr. }
  rewrite Hv in Hi. field_simplify_eq; [| lra]. lra. }
split; intros Hsign.
+ assert (0 <= value m) as Hvn.
  { destruct (Z.le_gt_cases 0 (value m)) as [? | Hneg]; [assumption |].
    apply (toQ_sign m) in Hneg. lra. }
  pose proof (Z.rem_bound_pos (value m) K Hvn HK) as Hr. fold r in Hr.
  pose proof (Z.quot_pos (value m) K Hvn HK) as Hq0. fold q in Hq0.
  assert (0 <= inject_Z r / inject_Z K < 1)%Q as Hfrac.
  { split.
    - apply Qle_shift_div_l; [exact HKq |]. rewrite Qmult_0_l.
      change 0%Q with (inject_Z 0). rewrite <- Zle_Qle. lia.
    - apply Qlt_shift_div_r; [exact HKq |]. rewrite Qmult_1_l.
      rewrite <- Zlt_Qlt. lia. }
  assert (0 <= inject_Z q)%Q as Hq0q.
  { change 0%Q with (inject_Z 0). now rewrite <- Zle_Qle. }
  repeat split; lra.
+ assert (value m <= 0) as Hvn.
  { destruct (Z.le_gt_cases (value m) 0) as [? | Hpos]; [assumption |].
    apply (toQ_sign m) in Hpos. lra. }
  pose proof (Z.rem_bound_pos (- value m) K ltac:(lia) HK) as Hr.
  rewrite Z.rem_opp_l in Hr by lia. fold r in Hr.
  assert (q <= 0) as Hq0.
  { unfold q. rewrite <- (Z.opp_involutive (value m)), Z.quot_opp_l by lia.
    pose proof (Z.quot_pos (- value m) K ltac:(lia) HK). lia. }
  assert (-1 < inject_Z r / inject_Z K <= 0)%Q as Hfrac.
  { split.
    - apply Qlt_shift_div_l; [exact HKq |].
      assert (Hk : (-1 * inject_Z K == inject_Z (- K))%Q)
        by (rewrite inject_Z_opp; ring).
      rewrite Hk, <- Zlt_Qlt. lia.
    - apply Qle_shift_div_r; [exact HKq |]. rewrite Qmult_0_l.
      change 0%Q with (inject_Z 0). rewrite <- Zle_Qle. lia. }
  assert (inject_Z q <= 0)%Q as Hq0q.
  { change 0%Q with (inject_Z 0). now rewrite <- Zle_Qle. }
  repeat split; lra.
Qed.

Lemma toQ_scaled (d : Decimal) :
(toQ (Mul d pricePrecisionDec) == toQ d * inject_Z PricePrecision)%Q.
Proof. unfold pricePrecisionDec. now rewrite toQ_Mul, toQ_NewFromInt. Qed.

(** C9. For a decimal [d] whose scaled value [d * 10^9] fits in a signed
  64-bit integer, the round trip through fixed point loses at most
  [10^-9]: [|d - ToFixed(d).ToDecimal()| <= 10^-9]. *)
Theorem fixed_round_trip (d : Decimal) :
(inject_Z Int64.min_int <= toQ d * inject_Z PricePrecision
                      <= inject_Z Int64.max_int)%Q ->
(Qabs (toQ d - toQ (FixedPrice.ToDecimal (ToFixed d))) <= 1 # 1000000000)%Q.
Proof.
intros Hfit. rewrite <- toQ_scaled in Hfit.
pose proof (rescale0_trunc (Mul d pricePrecisionDec)) as Htr.
cbv zeta in Htr.
set (T := value (rescale 0 (Mul d pricePrecisionDec))) in *.
set (x := toQ (Mul d pricePrecisionDec)) in *.
assert (Hmin : (inject_Z Int64.min_int <= 0)%Q) by (vm_compute; discriminate).
assert (Hmax : (0 <= inject_Z Int64.max_int)%Q) by (vm_compute; discriminate).
assert (Hcases : (inject_Z Int64.min_int <= inject_Z T <= inject_Z Int64.max_int)%Q
               /\ (Qabs (x - inject_Z T) < 1)%Q).
{ destruct (Qlt_le_dec x 0) as [Hneg | Hpos].
- destruct Htr as [_ Htr]. destruct (Htr ltac:(lra)) as ((H1 & H2) & H3).
  split; [lra |]. apply Qabs_Qlt_condition. lra.
- destruct Htr as [Htr _]. destruct (Htr Hpos) as ((H1 & H2) & H3).
  split; [lra |]. apply Qabs_Qlt_condition. lra. }
destruct Hcases as ((Hlo & Hhi) & Herr).
rewrite <- Zle_Qle in Hlo, Hhi.
assert (Hfix : ToFixed d = T).
{ unfold ToFixed, IntPart. fold T. apply Int64_facts.of_big_small.
unfold Int64.in_range. lia. }
rewrite Hfix.
assert (Hd : (toQ d == x * (1 # 1000000000))%Q).
{ unfold x. rewrite toQ_scaled. unfold PricePrecision.
field. }
assert (Hback : (toQ (FixedPrice.ToDecimal T) == inject_Z T * (1 # 1000000000))%Q).
{ unfold FixedPrice.ToDecimal, toQ. simpl value. simpl exp.
assert (ten ^ (-9) == 1 # 1000000000)%Q as -> by reflexivity. reflexivity. }
rewrite Hd, Hback.
assert (Hfac : (x * (1 # 1000000000) - inject_Z T * (1 # 1000000000)
              == (x - inject_Z T) * (1 # 1000000000))%Q) by ring.
rewrite Hfac, Qabs_Qmult.
assert (Qabs (1 # 1000000000) == 1 # 1000000000)%Q as -> by reflexivity.
assert (0 <= Qabs (x - inject_Z T))%Q by apply Qabs_nonneg.
assert (0 < 1 # 1000000000)%Q by reflexivity.
nra.
Qed.

Lemma fixed_round_trip_witness :
(inject_Z Int64.min_int <= toQ (New 123456789012 (-12)) * inject_Z PricePrecision
                      <= inject_Z Int64.max_int)%Q /\
(Qabs (toQ (New 123456789012 (-12))
     - toQ (FixedPrice.ToDecimal (ToFixed (New 123456789012 (-12)))))
 <= 1 # 1000000000)%Q.
Proof.
assert (H : (inject_Z Int64.min_int
           <= toQ (New 123456789012 (-12)) * inject_Z PricePrecision
           <= inject_Z Int64.max_int)%Q).
{ split; vm_compute; discriminate. }
split; [exact H | exact (fixed_round_trip _ H)].
Defined.

(** The cases of [fixedpoint_test.go]. *)
Example ToFixed_one : ToFixed (NewFromInt 1) = PricePrecision.
Proof. reflexivity. Qed.

Example ToFixed_half : ToFixed (New 5 (-1)) = 500000000.
Proof. reflexivity. Qed.

Example ToFixed_large : ToFixed (NewFromInt 50000) = 50000 * PricePrecision.
Proof. reflexivity. Qed.

Example ToFixed_truncates : ToFixed (New 123456789012 (-12)) = 123456789.
Proof. reflexivity. Qed.

Example FixedFromBps_18 : FixedFromBps 18 = Ok 1800000.
Proof. reflexivity. Qed.

Lemma FixedPrice_Div_zero (f : FixedPrice.t) : FixedPrice.Div f 0 = Ok 0.
Proof. reflexivity. Qed.

Lemma FixedPrice_Div_total (f other : FixedPrice.t) :
exists r, FixedPrice.Div f other = Ok r.
Proof.
unfold FixedPrice.Div, int64_div.
destruct (Z.eqb_spec other 0); eauto.
Qed.

Lemma FixedPrice_Mul_total (f other : FixedPrice.t) :
FixedPrice.Mul f other =
Ok (Int64.quo (Int64.mul f other) PricePrecision).
Proof. reflexivity. Qed.

Lemma FixedFromBps_total (bps : Z) :
FixedFromBps bps = Ok (Int64.quo (Int64.mul bps PricePrecision) 10000).
Proof. reflexivity. Qed.

(** *** Fixed-point arithmetic within the range of [int64] *)

(** X1. A fixed-point price converted to a decimal and back is the price
    itself. *)
Theorem ToFixed_ToDecimal (f : FixedPrice.t) :
Int64.in_range f -> ToFixed (FixedPrice.ToDecimal f) = f.
Proof.
intros Hf. unfold ToFixed, IntPart, FixedPrice.ToDecimal, Mul, pricePrecisionDec,
  NewFromInt, rescale, PricePrecision.
cbn [value exp]. change (-9 + 0 =? 0) with false. change (-9 + 0 <? 0) with true.
cbn [value]. change (10 ^ (0 - (-9 + 0))) with 1000000000.
rewrite Z.quot_mul by lia. now apply Int64_facts.of_big_small.
Qed.

Lemma ToFixed_ToDecimal_witness :
Int64.in_range 123456789 /\ ToFixed (FixedPrice.ToDecimal 123456789) = 123456789.
Proof.
assert (H : Int64.in_range 123456789) by (unfold Int64.in_range, Int64.min_int, Int64.max_int; lia).
split; [exact H | exact (ToFixed_ToDecimal _ H)].
Defined.

Lemma toQ_ToDecimal (f : FixedPrice.t) :
(toQ (FixedPrice.ToDecimal f) == inject_Z f * (1 # 1000000000))%Q.
Proof.
unfold FixedPrice.ToDecimal, toQ. cbn [value exp].
assert (ten ^ (-9) == 1 # 1000000000)%Q as -> by reflexivity. reflexivity.
Qed.

Lemma quot_in_range (a b : Z) :
Int64.in_range a -> 1 < b -> Int64.in_range (Z.quot a b).
Proof.
unfold Int64.in_range, Int64.min_int, Int64.max_int. intros [Hlo Hhi] Hb.
destruct (Z_le_gt_dec 0 a) as [Ha | Ha].
- pose proof (Z.quot_pos a b Ha ltac:(lia)).
  pose proof (Z.quot_le_upper_bound a b a ltac:(lia) ltac:(nia)). lia.
- pose proof (Z.quot_opp_l a b ltac:(lia)) as Hopp.
  pose proof (Z.quot_pos (- a) b ltac:(lia) ltac:(lia)).
  pose proof (Z.quot_le_upper_bound (- a) b (- a) ltac:(lia) ltac:(nia)). lia.
Qed.

(** The truncated quotient is less than one unit away from the exact
    one. *)
Lemma quot_error (a b : Z) :
b <> 0 -> Z.abs (Z.quot a b * b - a) < Z.abs b.
Proof.
intros Hb. pose proof (Z.quot_rem' a b) as Hqr.
pose proof (Z.rem_bound_abs a b Hb). lia.
Qed.

(** X2. [Mul] is the product truncated to nine fractional digits, as long as
    the product of the two raw values fits in [int64]. *)
Theorem FixedPrice_Mul_accuracy (f g : FixedPrice.t) :
Int64.in_range (f * g) ->
FixedPrice.Mul f g = Ok (Z.quot (f * g) PricePrecision) /\
(Qabs (toQ (FixedPrice.ToDecimal (Z.quot (f * g) PricePrecision))
       - toQ (FixedPrice.ToDecimal f) * toQ (FixedPrice.ToDecimal g))
 < 1 # 1000000000)%Q.
Proof.
intros Hfit. split.
- rewrite FixedPrice_Mul_total. unfold Int64.mul, Int64.quo.
  rewrite (Int64_facts.wrap_small (f * g)) by exact Hfit.
  rewrite Int64_facts.wrap_small; [reflexivity |].
  apply quot_in_range; [exact Hfit | unfold PricePrecision; lia].
- rewrite !toQ_ToDecimal.
  pose proof (quot_error (f * g) PricePrecision ltac:(unfold PricePrecision; lia)) as Herr.
  set (r := Z.quot (f * g) PricePrecision) in *. unfold PricePrecision in Herr.
  change (Z.abs 1000000000) with 1000000000 in Herr.
  assert (Heq : (inject_Z r * (1 # 1000000000)
                 - inject_Z f * (1 # 1000000000) * (inject_Z g * (1 # 1000000000))
                 == inject_Z (r * 1000000000 - f * g)
                    * (1 # 1000000000000000000))%Q).
  { unfold Z.sub. rewrite inject_Z_plus, inject_Z_opp, !inject_Z_mult.
    change (inject_Z 1000000000) with (1000000000 # 1)%Q. field. }
  rewrite Heq, Qabs_Qmult.
  assert (Qabs (1 # 1000000000000000000) == 1 # 1000000000000000000)%Q as ->
    by reflexivity.
  assert (Habs : (Qabs (inject_Z (r * 1000000000 - f * g))
                  == inject_Z (Z.abs (r * 1000000000 - f * g)))%Q).
  { unfold Qabs, inject_Z. reflexivity. }
  rewrite Habs.
  assert (Hlt : (inject_Z (Z.abs (r * 1000000000 - f * g)) < inject_Z 1000000000)%Q)
    by (rewrite <- Zlt_Qlt; exact Herr).
  change (inject_Z 1000000000) with (1000000000 # 1)%Q in Hlt.
  assert (0 < 1 # 1000000000000000000)%Q by reflexivity.
  assert (Hone : (1 # 1000000000 == (1000000000 # 1) * (1 # 1000000000000000000))%Q)
    by reflexivity.
  rewrite Hone. nra.
Qed.

Lemma FixedPrice_Mul_accuracy_witness :
Int64.in_range (2000000000 * 1500000000) /\
FixedPrice.Mul 2000000000 1500000000 = Ok 3000000000.
Proof.
assert (H : Int64.in_range (2000000000 * 1500000000))
  by (unfold Int64.in_range, Int64.min_int, Int64.max_int; lia).
split; [exact H | exact (proj1 (FixedPrice_Mul_accuracy _ _ H))].
Defined.

(** X3. [Div] is the quotient truncated to nine fractional digits, as long as
    the dividend scaled by [10^9] fits in [int64]. *)
Theorem FixedPrice_Div_accuracy (f g : FixedPrice.t) :
g <> 0 ->
Int64.in_range (f * PricePrecision) ->
FixedPrice.Div f g = Ok (Z.quot (f * PricePrecision) g) /\
(Qabs (toQ (FixedPrice.ToDecimal (Z.quot (f * PricePrecision) g))
       - toQ (FixedPrice.ToDecimal f) / toQ (FixedPrice.ToDecimal g))
 < 1 # 1000000000)%Q.
Proof.
intros Hg Hfit.
assert (Hq : Int64.in_range (Z.quot (f * PricePrecision) g)).
{ revert Hfit. unfold Int64.in_range, Int64.min_int, Int64.max_int, PricePrecision.
  intros [Hlo Hhi].
  pose proof (Z.quot_abs (f * 1000000000) g Hg) as Habs.
  assert (Hle : Z.abs (f * 1000000000) ÷ Z.abs g <= Z.abs (f * 1000000000)).
  { destruct (Z.eq_dec (Z.abs g) 1) as [-> | Hne].
    - rewrite Z.quot_1_r. lia.
    - destruct (Z.eq_dec (f * 1000000000) 0) as [-> | Hnz].
      + cbn [Z.abs]. rewrite Z.quot_0_l by lia. lia.
      + apply Z.lt_le_incl, Z.quot_lt; lia. }
  lia. }
split.
- unfold FixedPrice.Div. destruct (g =? 0) eqn:Hz; [lia |].
  unfold int64_div. rewrite Hz. unfold Int64.quo, Int64.mul.
  rewrite (Int64_facts.wrap_small (f * PricePrecision)) by exact Hfit.
  now rewrite Int64_facts.wrap_small.
- rewrite !toQ_ToDecimal.
  pose proof (quot_error (f * PricePrecision) g Hg) as Herr.
  set (r := Z.quot (f * PricePrecision) g) in *. unfold PricePrecision in Herr.
  assert (HgQ : ~ (inject_Z g == 0)%Q).
  { intros H. apply Hg. unfold Qeq, inject_Z in H. cbn [Qnum Qden] in H. lia. }
  assert (Heq : (inject_Z r * (1 # 1000000000)
                 - inject_Z f * (1 # 1000000000) / (inject_Z g * (1 # 1000000000))
                 == inject_Z (r * g - f * 1000000000)
                    * (1 # 1000000000) / inject_Z g)%Q).
  { unfold Z.sub. rewrite inject_Z_plus, inject_Z_opp, !inject_Z_mult.
    change (inject_Z 1000000000) with (1000000000 # 1)%Q. field. exact HgQ. }
  rewrite Heq. unfold Qdiv. rewrite !Qabs_Qmult.
  assert (Qabs (1 # 1000000000) == 1 # 1000000000)%Q as -> by reflexivity.
  assert (Habs : forall z, (Qabs (inject_Z z) == inject_Z (Z.abs z))%Q)
    by (intros z; unfold Qabs, inject_Z; reflexivity).
  rewrite Qabs_Qinv, !Habs.
  assert (Hlt : (inject_Z (Z.abs (r * g - f * 1000000000)) < inject_Z (Z.abs g))%Q)
    by (rewrite <- Zlt_Qlt; exact Herr).
  assert (Hpos : (0 < inject_Z (Z.abs g))%Q).
  { change 0%Q with (inject_Z 0). rewrite <- Zlt_Qlt. lia. }
  assert (Hnn : (0 <= inject_Z (Z.abs (r * g - f * 1000000000)))%Q).
  { change 0%Q with (inject_Z 0). rewrite <- Zle_Qle. lia. }
  set (a := inject_Z (Z.abs (r * g - f * 1000000000))) in *.
  set (b := inject_Z (Z.abs g)) in *. clearbody a b.
  assert (Hfrac : (a * / b < 1)%Q).
  { apply Qlt_shift_div_r; [exact Hpos | lra]. }
  assert (Hre : (a * (1 # 1000000000) * / b == a * / b * (1 # 1000000000))%Q) by ring.
  rewrite Hre.
  assert (Hinv : (0 <= a * / b)%Q).
  { apply Qmult_le_0_compat; [exact Hnn |]. apply Qinv_le_0_compat. lra. }
  assert (0 < 1 # 1000000000)%Q by reflexivity.
  nra.
Qed.

Lemma FixedPrice_Div_accuracy_witness :
3 <> 0 /\ Int64.in_range (1000000000 * PricePrecision) /\
FixedPrice.Div 1000000000 3 = Ok 333333333333333333.
Proof.
assert (H3 : 3 <> 0) by lia.
assert (H : Int64.in_range (1000000000 * PricePrecision))
  by (unfold Int64.in_range, Int64.min_int, Int64.max_int, PricePrecision; lia).
split; [exact H3 |]. split; [exact H |].
exact (proj1 (FixedPrice_Div_accuracy _ _ H3 H)).
Defined.

(** Within the range of [int64], [ToFixed] is the scaled number truncated
    toward zero. *)
Lemma ToFixed_value (d : Decimal) :
(inject_Z Int64.min_int <= toQ d * inject_Z PricePrecision
                      <= inject_Z Int64.max_int)%Q ->
ToFixed d = value (rescale 0 (Mul d pricePrecisionDec)).
Proof.
intros Hfit. rewrite <- toQ_scaled in Hfit.
pose proof (rescale0_trunc (Mul d pricePrecisionDec)) as Htr.
cbv zeta in Htr.
set (T := value (rescale 0 (Mul d pricePrecisionDec))) in *.
set (x := toQ (Mul d pricePrecisionDec)) in *.
assert (Hmin : (inject_Z Int64.min_int <= 0)%Q) by (vm_compute; discriminate).
assert (Hmax : (0 <= inject_Z Int64.max_int)%Q) by (vm_compute; discriminate).
assert (Hcases : (inject_Z Int64.min_int <= inject_Z T <= inject_Z Int64.max_int)%Q).
{ destruct (Qlt_le_dec x 0) as [Hneg | Hpos].
  - destruct Htr as [_ Htr]. destruct (Htr ltac:(lra)) as ((H1 & H2) & H3). lra.
  - destruct Htr as [Htr _]. destruct (Htr Hpos) as ((H1 & H2) & H3). lra. }
destruct Hcases as (Hlo & Hhi). rewrite <- Zle_Qle in Hlo, Hhi.
unfold ToFixed, IntPart. fold T. apply Int64_facts.of_big_small.
unfold Int64.in_range. lia.
Qed.

(** X4. The conversion to fixed point preserves the order of prices. *)
Theorem ToFixed_monotone (d1 d2 : Decimal) :
(inject_Z Int64.min_int <= toQ d1 * inject_Z PricePrecision)%Q ->
(toQ d2 * inject_Z PricePrecision <= inject_Z Int64.max_int)%Q ->
(toQ d1 <= toQ d2)%Q ->
ToFixed d1 <= ToFixed d2.
Proof.
intros Hlo Hhi Hle.
assert (Hpp : (0 < inject_Z PricePrecision)%Q) by reflexivity.
assert (Hscaled : (toQ d1 * inject_Z PricePrecision
                   <= toQ d2 * inject_Z PricePrecision)%Q) by nra.
rewrite (ToFixed_value d1) by lra. rewrite (ToFixed_value d2) by lra.
rewrite <- !toQ_scaled in Hscaled.
pose proof (rescale0_trunc (Mul d1 pricePrecisionDec)) as H1.
pose proof (rescale0_trunc (Mul d2 pricePrecisionDec)) as H2.
cbv zeta in H1, H2.
set (T1 := value (rescale 0 (Mul d1 pricePrecisionDec))) in *.
set (T2 := value (rescale 0 (Mul d2 pricePrecisionDec))) in *.
set (x1 := toQ (Mul d1 pricePrecisionDec)) in *.
set (x2 := toQ (Mul d2 pricePrecisionDec)) in *.
clearbody T1 T2 x1 x2.
assert (Hlt : (inject_Z T1 < inject_Z (T2 + 1))%Q).
{ rewrite inject_Z_plus. change (inject_Z 1) with 1%Q.
  destruct (Qlt_le_dec x1 0) as [Hn1 | Hp1].
  - destruct H1 as [_ H1]. destruct (H1 ltac:(lra)) as ((? & ?) & ?).
    destruct (Qlt_le_dec x2 0) as [Hn2 | Hp2].
    + destruct H2 as [_ H2]. destruct (H2 ltac:(lra)) as ((? & ?) & ?). lra.
    + destruct H2 as [H2 _]. destruct (H2 Hp2) as ((? & ?) & ?). lra.
  - destruct H1 as [H1 _]. destruct (H1 Hp1) as ((? & ?) & ?).
    destruct H2 as [H2 _]. destruct (H2 ltac:(lra)) as ((? & ?) & ?). lra. }
rewrite <- Zlt_Qlt in Hlt. lia.
Qed.

Lemma ToFixed_monotone_witness :
(inject_Z Int64.min_int <= toQ (New 5 (-1)) * inject_Z PricePrecision)%Q /\
(toQ (NewFromInt 50000) * inject_Z PricePrecision <= inject_Z Int64.max_int)%Q /\
(toQ (New 5 (-1)) <= toQ (NewFromInt 50000))%Q /\
ToFixed (New 5 (-1)) <= ToFixed (NewFromInt 50000).
Proof.
assert (H1 : (inject_Z Int64.min_int <= toQ (New 5 (-1)) * inject_Z PricePrecision)%Q)
  by (vm_compute; discriminate).
assert (H2 : (toQ (NewFromInt 50000) * inject_Z PricePrecision
              <= inject_Z Int64.max_int)%Q) by (vm_compute; discriminate).
assert (H3 : (toQ (New 5 (-1)) <= toQ (NewFromInt 50000))%Q)
  by (vm_compute; discriminate).
split; [exact H1 |]. split; [exact H2 |]. split; [exact H3 |].
exact (ToFixed_monotone _ _ H1 H2 H3).
Defined.

(** *** The mid price *)

(** X5. [MidPrice] needs both sides of the book; it never panics, and the
    value it returns is the mean of the best bid and the best ask rounded
    to sixteen fractional digits. *)
Theorem MidPrice_spec (ob : OrderBookSnapshot.t) :
match OrderBookSnapshot.BestBid ob, OrderBookSnapshot.BestAsk ob with
| Some bid, Some ask =>
    exists mid,
      OrderBookSnapshot.MidPrice ob = Ok (Some mid) /\
      exp mid = - DivisionPrecision /\
      (Qabs (toQ mid - (toQ (PriceLevel.Price bid) + toQ (PriceLevel.Price ask)) / 2)
       <= (1 # 2) * ten ^ (- DivisionPrecision))%Q
| _, _ => OrderBookSnapshot.MidPrice ob = Ok None
end.
Proof.
unfold OrderBookSnapshot.MidPrice.
destruct (OrderBookSnapshot.BestBid ob) as [bid |];
  destruct (OrderBookSnapshot.BestAsk ob) as [ask |]; try reflexivity.
set (sum := Add (PriceLevel.Price bid) (PriceLevel.Price ask)).
assert (H2 : value (NewFromInt 2) <> 0) by (cbn; lia).
destruct (DivRound_spec sum (NewFromInt 2) DivisionPrecision H2) as [Hexp Herr].
exists (DivRound sum (NewFromInt 2) DivisionPrecision).
split; [reflexivity |]. split; [exact Hexp |].
assert (Hsum : (toQ sum / toQ (NewFromInt 2)
                == (toQ (PriceLevel.Price bid) + toQ (PriceLevel.Price ask)) / 2)%Q).
{ unfold sum. rewrite toQ_Add, toQ_NewFromInt. reflexivity. }
rewrite <- Hsum. exact Herr.
Qed.

End domain_facts.

(** ** Facts about package [marketdata] *)

Module marketdata_facts.
Import decimal domain marketdata decimal_facts domain_facts.

Example ApplyDelta_merges :
option_map OrderBookSnapshot.Bids
(GetOrderBook (fst (ApplyDelta 1 example_gap_delta example_service))
              "nobitex" "BTC/USDT")
= Some [PriceLevel.mk (NewFromInt 50000) (NewFromInt 1);
      PriceLevel.mk (NewFromInt 49999) (NewFromInt 2)].
Proof. vm_compute. reflexivity. Qed.



(** *** Sorting *)

Lemma swaps_spec (descending : bool) (x y : PriceLevel.t) :
swaps descending x y = true <->
(if descending then (price_of y < price_of x)%Q else (price_of x < price_of y)%Q).
Proof.
unfold swaps, price_of. destruct descending.
- apply GreaterThan_spec.
- apply LessThan_spec.
Qed.

Lemma swaps_before (descending : bool) (x y : PriceLevel.t) :
(swaps descending x y = true -> before descending x y) /\
(swaps descending x y = false -> before descending y x).
Proof.
pose proof (swaps_spec descending x y) as Hs. unfold before.
destruct (swaps descending x y); destruct descending; split; intros H;
  try discriminate.
- apply Qlt_le_weak, Hs; reflexivity.
- apply Qlt_le_weak, Hs; reflexivity.
- apply Qnot_lt_le. intros Hlt. apply Hs in Hlt. discriminate.
- apply Qnot_lt_le. intros Hlt. apply Hs in Hlt. discriminate.
Qed.

Lemma before_trans (descending : bool) (x y z : PriceLevel.t) :
before descending x y -> before descending y z -> before descending x z.
Proof. unfold before. destruct descending; intros; lra. Qed.

Lemma bubble_perm (descending : bool) (x : PriceLevel.t) (l : list PriceLevel.t) :
bubble descending x l ≡ₚ x :: l.
Proof.
induction l as [| y rest IH]; [reflexivity |]. cbn [bubble].
destruct (swaps descending x y); [| reflexivity].
rewrite IH. apply Permutation_swap.
Qed.

(** The prefix is held in reverse: its head is the level that stands
    last. *)
Lemma bubble_sorted (descending : bool) (x : PriceLevel.t) (l : list PriceLevel.t) :
StronglySorted (fun a b => before descending b a) l ->
StronglySorted (fun a b => before descending b a) (bubble descending x l).
Proof.
induction 1 as [| y rest Hrest IH Hy]; cbn [bubble].
- repeat constructor.
- destruct (swaps_before descending x y) as [Hyes Hno].
  destruct (swaps descending x y).
  + constructor; [exact IH |].
    rewrite bubble_perm. constructor; [now apply Hyes | exact Hy].
  + specialize (Hno eq_refl). constructor.
    * constructor; assumption.
    * constructor; [exact Hno |].
      eapply Forall_impl; [exact Hy |]. cbn. intros z Hz.
      eapply before_trans; eassumption.
Qed.

Lemma fold_bubble (descending : bool) (levels acc : list PriceLevel.t) :
StronglySorted (fun a b => before descending b a) acc ->
fold_left (fun rev_prefix x => bubble descending x rev_prefix) levels acc
  ≡ₚ levels ++ acc /\
StronglySorted (fun a b => before descending b a)
  (fold_left (fun rev_prefix x => bubble descending x rev_prefix) levels acc).
Proof.
revert acc. induction levels as [| x rest IH]; intros acc Hacc; cbn [fold_left].
- split; [reflexivity | exact Hacc].
- destruct (IH (bubble descending x acc) (bubble_sorted _ _ _ Hacc)) as [Hp Hs].
  split; [| exact Hs]. rewrite Hp, bubble_perm. cbn.
  symmetry. apply Permutation_middle.
Qed.

Lemma StronglySorted_rev {A : Type} (R : A -> A -> Prop) (l : list A) :
StronglySorted (fun a b => R b a) l -> StronglySorted R (rev l).
Proof.
induction 1 as [| a l Hl IH Ha]; cbn [rev]; [constructor |].
assert (Hsnoc : forall k, StronglySorted R k -> Forall (fun y => R y a) k ->
                          StronglySorted R (k ++ [a])).
{ induction 1 as [| b k Hk IHk Hb]; intros Hall; cbn.
  - repeat constructor.
  - apply Forall_cons_1 in Hall as [Hba Hall]. constructor; [now apply IHk |].
    apply Forall_app. split; [exact Hb | repeat constructor; exact Hba]. }
apply Hsnoc; [exact IH |]. rewrite List.Forall_forall in *. intros y Hy.
apply Ha. now apply in_rev.
Qed.

Lemma sortLevels_spec (levels : list PriceLevel.t) (descending : bool) :
sortLevels levels descending ≡ₚ levels /\ sorted descending (sortLevels levels descending).
Proof.
unfold sortLevels, sorted.
destruct (fold_bubble descending levels [] ltac:(constructor)) as [Hp Hs].
split.
- rewrite <- Permutation_rev, Hp, app_nil_r. reflexivity.
- now apply StronglySorted_rev.
Qed.

(** X6. After a delta, whatever the book held before, the bids run from the
    highest price down and the asks from the lowest price up: the best
    bid is the highest bid and the best ask the lowest ask. *)
Theorem ApplyDelta_sorts_the_book (now : Z) (delta : OrderBookDelta.t) (s : Service) :
exists book,
  GetOrderBook (fst (ApplyDelta now delta s))
               (OrderBookDelta.Venue delta) (OrderBookDelta.Symbol delta) = Some book /\
  sorted true (OrderBookSnapshot.Bids book) /\
  sorted false (OrderBookSnapshot.Asks book) /\
  (forall best l, OrderBookSnapshot.BestBid book = Some best ->
                  In l (OrderBookSnapshot.Bids book) ->
                  (price_of l <= price_of best)%Q) /\
  (forall best l, OrderBookSnapshot.BestAsk book = Some best ->
                  In l (OrderBookSnapshot.Asks book) ->
                  (price_of best <= price_of l)%Q).
Proof.
assert (Hbest : forall descending levels best l,
          sorted descending levels -> head levels = Some best -> In l levels ->
          before descending best l).
{ intros descending levels best l Hs Hh Hin.
  destruct levels as [| x rest]; [discriminate |]. cbn in Hh. injection Hh as ->.
  apply StronglySorted_inv in Hs as [_ Hall].
  destruct Hin as [<- | Hin].
  - unfold before. destruct descending; lra.
  - rewrite List.Forall_forall in Hall. now apply Hall. }
unfold ApplyDelta, GetOrderBook. cbn [fst books].
rewrite lookup_insert_eq. eexists. split; [reflexivity |].
cbn [OrderBookSnapshot.Bids OrderBookSnapshot.Asks
     OrderBookSnapshot.BestBid OrderBookSnapshot.BestAsk].
unfold applyLevelDeltas.
split; [apply sortLevels_spec |]. split; [apply sortLevels_spec |].
split; intros best l Hh Hin.
- apply (Hbest true _ best l (proj2 (sortLevels_spec _ _)) Hh Hin).
- apply (Hbest false _ best l (proj2 (sortLevels_spec _ _)) Hh Hin).
Qed.

(** *** Deltas as updates of a price-to-size map *)

Lemma applyLevelDeltas_applyOne (levels deltas : list PriceLevel.t) (descending : bool) :
applyLevelDeltas levels deltas descending
= sortLevels (fold_left applyOne deltas levels) descending.
Proof. reflexivity. Qed.

Lemma matches_price (l d : PriceLevel.t) :
Equal (PriceLevel.Price l) (PriceLevel.Price d) = true
<-> Qred (price_of l) = Qred (price_of d).
Proof. unfold price_of. rewrite Equal_spec. symmetry. apply Qred_eq_iff. Qed.

Lemma Qeq_bool_key (l : PriceLevel.t) (p : Q) :
Qeq_bool (price_of l) p = true <-> Qred (price_of l) = Qred p.
Proof. rewrite Qeq_bool_iff. symmetry. apply Qred_eq_iff. Qed.

(** The level a delta hits, if any, is the first at its price. *)
Lemma applyLevelDelta_Some (levels : list PriceLevel.t) (d : PriceLevel.t)
  (levels' : list PriceLevel.t) :
applyLevelDelta levels d = Some levels' ->
exists pre x post,
  levels = pre ++ x :: post /\
  Qred (price_of x) = Qred (price_of d) /\
  levels' = pre ++ (if IsZero (PriceLevel.Size d) then post
                    else PriceLevel.mk (PriceLevel.Price x) (PriceLevel.Size d) :: post).
Proof.
revert levels'. induction levels as [| l rest IH]; intros levels' H; [discriminate |].
cbn [applyLevelDelta] in H.
destruct (Equal (PriceLevel.Price l) (PriceLevel.Price d)) eqn:He.
- exists [], l, rest. split; [reflexivity |]. split; [now apply matches_price |].
  destruct (IsZero (PriceLevel.Size d)); now injection H as <-.
- destruct (applyLevelDelta rest d) as [rest' |]; [| discriminate].
  cbn in H. injection H as <-.
  destruct (IH rest' eq_refl) as (pre & x & post & -> & Hx & ->).
  exists (l :: pre), x, post. repeat split; assumption.
Qed.

Lemma applyLevelDelta_None (levels : list PriceLevel.t) (d : PriceLevel.t) :
applyLevelDelta levels d = None ->
~ In (Qred (price_of d)) (map (fun l => Qred (price_of l)) levels).
Proof.
induction levels as [| l rest IH]; intros H; [intros [] |].
cbn [applyLevelDelta] in H.
destruct (Equal (PriceLevel.Price l) (PriceLevel.Price d)) eqn:He.
- destruct (IsZero (PriceLevel.Size d)); discriminate.
- destruct (applyLevelDelta rest d) as [rest' |]; [discriminate |].
  cbn [map]. intros [Hl | Hr]; [| now apply IH].
  apply matches_price in Hl. congruence.
Qed.

Lemma find_no_key (p : Q) (levels : list PriceLevel.t) :
~ In (Qred p) (map (fun l => Qred (price_of l)) levels) ->
find (fun l => Qeq_bool (price_of l) p) levels = None.
Proof.
induction levels as [| l rest IH]; intros H; [reflexivity |]. cbn [find].
destruct (Qeq_bool (price_of l) p) eqn:Hq.
- exfalso. apply H. left. now apply Qeq_bool_key.
- apply IH. intros Hin. apply H. now right.
Qed.

Lemma find_app_no_key (p : Q) (pre post : list PriceLevel.t) :
~ In (Qred p) (map (fun l => Qred (price_of l)) pre) ->
find (fun l => Qeq_bool (price_of l) p) (pre ++ post)
= find (fun l => Qeq_bool (price_of l) p) post.
Proof.
induction pre as [| l rest IH]; intros H; [reflexivity |]. cbn [app find].
destruct (Qeq_bool (price_of l) p) eqn:Hq.
- exfalso. apply H. left. now apply Qeq_bool_key.
- apply IH. intros Hin. apply H. now right.
Qed.

Lemma find_app_key (p : Q) (pre post : list PriceLevel.t) :
~ In (Qred p) (map (fun l => Qred (price_of l)) post) ->
find (fun l => Qeq_bool (price_of l) p) (pre ++ post)
= find (fun l => Qeq_bool (price_of l) p) pre.
Proof.
induction pre as [| l rest IH]; intros H; cbn [app find].
- now apply find_no_key.
- destruct (Qeq_bool (price_of l) p); [reflexivity | now apply IH].
Qed.

Lemma find_middle (p : Q) (pre post : list PriceLevel.t) (y : PriceLevel.t) :
Qeq_bool (price_of y) p = false ->
find (fun l => Qeq_bool (price_of l) p) (pre ++ y :: post)
= find (fun l => Qeq_bool (price_of l) p) (pre ++ post).
Proof.
intros Hy. induction pre as [| l rest IH]; cbn [app find].
- now rewrite Hy.
- destruct (Qeq_bool (price_of l) p); [reflexivity | exact IH].
Qed.

Lemma NoDup_middle {A : Type} (pre post : list A) (x : A) :
NoDup (pre ++ x :: post) ->
NoDup (pre ++ post) /\ ~ In x pre /\ ~ In x post.
Proof.
intros H. apply NoDup_ListNoDup in H.
pose proof (List.NoDup_remove _ _ _ H) as [Hnd Hnin].
split; [now apply NoDup_ListNoDup |].
split; intros Hin; apply Hnin, in_or_app; [now left | now right].
Qed.

(** One delta: the side stays well formed, and as a map it is
    overwritten at the delta's price and nowhere else. *)
Lemma applyOne_spec (levels : list PriceLevel.t) (d : PriceLevel.t) (p : Q) :
well_formed levels ->
well_formed (applyOne levels d) /\
size_at p (applyOne levels d) = overwrite p (size_at p levels) d.
Proof.
intros [Hnd Hnz]. unfold applyOne, overwrite, size_at.
destruct (applyLevelDelta levels d) as [levels' |] eqn:Ha.
- apply applyLevelDelta_Some in Ha as (pre & x & post & -> & Hx & ->).
  rewrite map_app in Hnd. cbn [map] in Hnd.
  destruct (NoDup_middle _ _ _ Hnd) as (Hnd' & Hpre & Hpost).
  apply Forall_app in Hnz as [Hnz1 Hnz2]. apply Forall_cons_1 in Hnz2 as [Hxz Hnz2].
  split.
  + destruct (IsZero (PriceLevel.Size d)) eqn:Hz.
    * split; [now rewrite map_app | now apply Forall_app].
    * split; [now rewrite map_app |].
      apply Forall_app. split; [exact Hnz1 |]. now constructor.
  + destruct (Qeq_bool (price_of d) p) eqn:Hq.
    * apply Qeq_bool_key in Hq. rewrite Hq in Hx. rewrite Hx in Hpre, Hpost.
      rewrite find_app_no_key by exact Hpre.
      destruct (IsZero (PriceLevel.Size d)).
      -- now rewrite find_no_key.
      -- cbn [find]. change (price_of (PriceLevel.mk (PriceLevel.Price x) (PriceLevel.Size d)))
           with (price_of x).
         assert (Qeq_bool (price_of x) p = true) as -> by now apply Qeq_bool_key.
         reflexivity.
    * assert (Hxp : Qeq_bool (price_of x) p = false).
      { destruct (Qeq_bool (price_of x) p) eqn:Hxp; [| reflexivity].
        apply Qeq_bool_key in Hxp. rewrite Hx in Hxp.
        apply Qeq_bool_key in Hxp. congruence. }
      rewrite (find_middle p pre post x Hxp).
      destruct (IsZero (PriceLevel.Size d)); [reflexivity |].
      now rewrite find_middle.
- apply applyLevelDelta_None in Ha.
  destruct (IsZero (PriceLevel.Size d)) eqn:Hz.
  + split; [now split |].
    destruct (Qeq_bool (price_of d) p) eqn:Hq; [| reflexivity].
    apply Qeq_bool_key in Hq. rewrite Hq in Ha. now rewrite find_no_key.
  + split.
    * split.
      -- rewrite map_app. cbn [map]. apply NoDup_app. split; [exact Hnd |].
         split; [| apply NoDup_singleton].
         intros k Hk Hk'. apply list_elem_of_singleton in Hk'. subst k.
         apply Ha. now apply list_elem_of_In.
      -- apply Forall_app. split; [exact Hnz |]. now repeat constructor.
    * destruct (Qeq_bool (price_of d) p) eqn:Hq.
      -- apply Qeq_bool_key in Hq. rewrite Hq in Ha.
         rewrite find_app_no_key by exact Ha. cbn [find].
         assert (Qeq_bool (price_of d) p = true) as -> by now apply Qeq_bool_key.
         reflexivity.
      -- rewrite find_app_key; [reflexivity |]. cbn [map]. intros [Hk | []].
         apply Qeq_bool_key in Hk. congruence.
Qed.

Lemma well_formed_perm (l l' : list PriceLevel.t) :
l ≡ₚ l' -> well_formed l -> well_formed l'.
Proof.
intros Hp [Hnd Hnz]. split.
- apply NoDup_ListNoDup. apply NoDup_ListNoDup in Hnd.
  eapply Permutation_NoDup; [| exact Hnd]. now apply Permutation_map.
- now rewrite <- Hp.
Qed.

Lemma size_at_perm (p : Q) (l l' : list PriceLevel.t) :
l ≡ₚ l' -> well_formed l -> size_at p l = size_at p l'.
Proof.
unfold size_at. induction 1 as [| x l l' Hp IH | x y l | l l' l'' Hp1 IH1 Hp2 IH2];
  intros Hwf.
- reflexivity.
- cbn [find]. destruct (Qeq_bool (price_of x) p); [reflexivity |].
  apply IH. destruct Hwf as [Hnd Hnz]. cbn [map] in Hnd. split.
  + now apply NoDup_cons_1_2 in Hnd.
  + now apply Forall_cons_1 in Hnz as [_ ?].
- cbn [find].
  destruct (Qeq_bool (price_of y) p) eqn:Hy, (Qeq_bool (price_of x) p) eqn:Hx;
    try reflexivity.
  exfalso. destruct Hwf as [Hnd _]. cbn [map] in Hnd.
  apply NoDup_cons_1_1 in Hnd. apply Hnd. apply list_elem_of_In. left.
  apply Qeq_bool_key in Hx, Hy. congruence.
- rewrite IH1 by exact Hwf. apply IH2. now apply (well_formed_perm l).
Qed.

Lemma fold_applyOne_spec (p : Q) (deltas levels : list PriceLevel.t) :
well_formed levels ->
well_formed (fold_left applyOne deltas levels) /\
size_at p (fold_left applyOne deltas levels)
= fold_left (overwrite p) deltas (size_at p levels).
Proof.
revert levels. induction deltas as [| d rest IH]; intros levels Hwf; cbn [fold_left].
- now split.
- destruct (applyOne_spec levels d p Hwf) as [Hwf' Hsize].
  destruct (IH _ Hwf') as [Hwf'' Hsize'']. split; [exact Hwf'' |].
  now rewrite Hsize'', Hsize.
Qed.

(** X7. A side with one level per price and no empty level keeps that shape
    under any list of deltas, and comes out sorted. *)
Theorem applyLevelDeltas_well_formed (levels deltas : list PriceLevel.t)
  (descending : bool) :
well_formed levels ->
well_formed (applyLevelDeltas levels deltas descending) /\
sorted descending (applyLevelDeltas levels deltas descending).
Proof.
intros Hwf. rewrite applyLevelDeltas_applyOne.
destruct (sortLevels_spec (fold_left applyOne deltas levels) descending) as [Hp Hs].
split; [| exact Hs].
apply (well_formed_perm (fold_left applyOne deltas levels)); [now symmetry |].
apply (fold_applyOne_spec 0 deltas levels Hwf).
Qed.

(** X8. Read as a map from prices to sizes, a side after a list of deltas is
    the old map overwritten by the deltas in order: the last delta at a
    price sets its size, or removes the level when its size is zero. *)
Theorem applyLevelDeltas_overwrites (p : Q) (levels deltas : list PriceLevel.t)
  (descending : bool) :
well_formed levels ->
size_at p (applyLevelDeltas levels deltas descending)
= fold_left (overwrite p) deltas (size_at p levels).
Proof.
intros Hwf. rewrite applyLevelDeltas_applyOne.
destruct (sortLevels_spec (fold_left applyOne deltas levels) descending) as [Hp _].
destruct (fold_applyOne_spec p deltas levels Hwf) as [Hwf' Hsize].
rewrite <- Hsize. symmetry. apply size_at_perm; [now symmetry | exact Hwf'].
Qed.

Lemma example_bids_well_formed :
well_formed [PriceLevel.mk (NewFromInt 50000) (NewFromInt 1);
             PriceLevel.mk (NewFromInt 49990) (NewFromInt 3)].
Proof.
split.
- apply NoDup_ListNoDup. repeat constructor; cbn; intros H; intuition discriminate.
- repeat constructor.
Qed.

Lemma applyLevelDeltas_well_formed_witness :
well_formed [PriceLevel.mk (NewFromInt 50000) (NewFromInt 1);
             PriceLevel.mk (NewFromInt 49990) (NewFromInt 3)] /\
sorted true
  (applyLevelDeltas [PriceLevel.mk (NewFromInt 50000) (NewFromInt 1);
                     PriceLevel.mk (NewFromInt 49990) (NewFromInt 3)]
                    [PriceLevel.mk (NewFromInt 49999) (NewFromInt 2);
                     PriceLevel.mk (NewFromInt 49990) (New 0 0)] true).
Proof.
split; [exact example_bids_well_formed |].
exact (proj2 (applyLevelDeltas_well_formed _ _ true example_bids_well_formed)).
Defined.

Lemma applyLevelDeltas_overwrites_witness :
well_formed [PriceLevel.mk (NewFromInt 50000) (NewFromInt 1);
             PriceLevel.mk (NewFromInt 49990) (NewFromInt 3)] /\
size_at (49990 # 1)
  (applyLevelDeltas [PriceLevel.mk (NewFromInt 50000) (NewFromInt 1);
                     PriceLevel.mk (NewFromInt 49990) (NewFromInt 3)]
                    [PriceLevel.mk (NewFromInt 49999) (NewFromInt 2);
                     PriceLevel.mk (NewFromInt 49990) (New 0 0)] true)
= None.
Proof.
split; [exact example_bids_well_formed |].
exact (applyLevelDeltas_overwrites (49990 # 1) _ _ true example_bids_well_formed).
Defined.

(** *** Snapshots and freshness *)

(** X9. A snapshot is read back as it was stored, stamped with the time of
    the update; from then on the feed is fresh for less than
    [staleDuration] and blocked after more than [blockDuration]. A feed
    that was never updated is stale and blocked. *)
Theorem UpdateOrderBook_read_back (now : Z) (snap : OrderBookSnapshot.t) (s : Service) :
let venue := OrderBookSnapshot.Venue snap in
let symbol := OrderBookSnapshot.Symbol snap in
let s' := fst (UpdateOrderBook now snap s) in
GetOrderBook s' venue symbol =
  Some (OrderBookSnapshot.mk venue symbol
          (OrderBookSnapshot.Bids snap) (OrderBookSnapshot.Asks snap)
          (OrderBookSnapshot.Sequence snap) (OrderBookSnapshot.VenueTimestamp snap)
          now) /\
(forall t, IsDataFresh t s' venue symbol = true <-> t - now < staleDuration s) /\
(forall t, IsDataBlocked t s' venue symbol = true <-> blockDuration s < t - now) /\
(forall t stale block v sym,
   IsDataFresh t (NewService stale block) v sym = false /\
   IsDataBlocked t (NewService stale block) v sym = true).
Proof.
cbv zeta. unfold UpdateOrderBook, GetOrderBook, IsDataFresh, IsDataBlocked.
cbn [fst books lastUpdate staleDuration blockDuration]. rewrite !lookup_insert_eq.
split; [reflexivity |]. split; [intros t; apply Z.ltb_lt |].
split; [intros t; apply Z.ltb_lt |].
intros t stale block v sym. unfold NewService. cbn [lastUpdate].
rewrite lookup_empty. split; reflexivity.
Qed.

(** *** Keys *)

Lemma no_colon_tail (c : ascii) (s : string) : no_colon (String c s) -> no_colon s.
Proof. intros H a b ->. apply (H (String c a) b). reflexivity. Qed.

(** X10. Feeds are told apart by venue and symbol as long as venue names hold
    no colon. *)
Theorem bookKey_injective (venue1 symbol1 venue2 symbol2 : string) :
no_colon venue1 -> no_colon venue2 ->
bookKey venue1 symbol1 = bookKey venue2 symbol2 ->
venue1 = venue2 /\ symbol1 = symbol2.
Proof.
unfold bookKey. revert venue2.
induction venue1 as [| c v1 IH]; intros [| c' v2] H1 H2 Heq; simpl in Heq.
- injection Heq as Heq. now split.
- injection Heq as <- _. exfalso. apply (H2 EmptyString v2). reflexivity.
- injection Heq as -> _. exfalso. apply (H1 EmptyString v1). reflexivity.
- injection Heq as -> Heq.
  destruct (IH v2 (no_colon_tail _ _ H1) (no_colon_tail _ _ H2) Heq) as [-> ->].
  now split.
Qed.

Lemma no_colon_nobitex : no_colon "nobitex".
Proof.
intros a b H.
repeat (destruct a as [| ? a]; cbn in H; [discriminate |]; injection H as <- H).
destruct a; discriminate.
Qed.

Lemma bookKey_injective_witness :
no_colon "nobitex" /\
(bookKey "nobitex" "BTC/USDT" = bookKey "nobitex" "BTC/USDT" ->
 "nobitex" = "nobitex" /\ "BTC/USDT" = "BTC/USDT").
Proof.
split; [exact no_colon_nobitex |].
exact (bookKey_injective "nobitex" "BTC/USDT" "nobitex" "BTC/USDT"
         no_colon_nobitex no_colon_nobitex).
Defined.

(** With a colon in a venue name two feeds can share a key. *)
Example bookKey_collision : bookKey "a:b" "c" = bookKey "a" "b:c".
Proof. reflexivity. Qed.

(** *** The ring buffer *)

Lemma uint64_small (z : Z) : 0 <= z < 2 ^ 64 -> uint64 z = z.
Proof. intros H. unfold uint64. now apply Z.mod_small. Qed.

Lemma slot_in_range (capacity : Z) (pushed : list Trade.t) (rb : TradeRingBuffer.t)
  (i : Z) :
0 < capacity -> holds capacity pushed rb -> 0 <= i ->
TradeRingBuffer.slot rb i = Slot (Z.to_nat (i mod capacity)).
Proof.
intros Hc (Hcap & Hlen & _) Hi. unfold TradeRingBuffer.slot. rewrite Hcap, Hlen.
destruct (capacity =? 0) eqn:Hz; [lia |].
pose proof (Z.mod_pos_bound i capacity Hc).
destruct (Nat.ltb_spec (Z.to_nat (i mod capacity)) (Z.to_nat capacity)); [reflexivity | lia].
Qed.

Lemma distinct_slots (capacity i k : Z) :
0 < capacity -> 0 <= i < k -> k - capacity < i ->
Z.to_nat (i mod capacity) <> Z.to_nat (k mod capacity).
Proof.
intros Hc Hik Hwin Heq.
pose proof (Z.mod_pos_bound i capacity Hc). pose proof (Z.mod_pos_bound k capacity Hc).
assert (Hmod : i mod capacity = k mod capacity) by lia.
pose proof (Z.div_mod i capacity ltac:(lia)). pose proof (Z.div_mod k capacity ltac:(lia)).
assert (Hd : k - i = capacity * (k / capacity - i / capacity)) by lia.
assert (0 < k / capacity - i / capacity < 1) by nia. lia.
Qed.

Lemma Push_holds (capacity : Z) (pushed : list Trade.t) (trade : Trade.t)
  (rb : TradeRingBuffer.t) :
0 < capacity -> Z.of_nat (length pushed) + 1 < 2 ^ 64 ->
holds capacity pushed rb ->
exists rb', TradeRingBuffer.Push (Some trade) rb = Slot rb' /\
            holds capacity (pushed ++ [trade]) rb'.
Proof.
intros Hc Hfit Hholds. pose proof Hholds as (Hcap & Hlen & Hhead & Hslots).
unfold TradeRingBuffer.Push. rewrite Hhead.
rewrite (uint64_small (Z.of_nat (length pushed) + 1)) by lia.
replace (Z.of_nat (length pushed) + 1 - 1) with (Z.of_nat (length pushed)) by lia.
rewrite (uint64_small (Z.of_nat (length pushed))) by lia.
rewrite (slot_in_range capacity pushed rb _ Hc Hholds) by lia.
eexists. split; [reflexivity |].
unfold holds. cbn [TradeRingBuffer.cap TradeRingBuffer.trades TradeRingBuffer.head].
rewrite length_insert, length_app. cbn [length].
split; [exact Hcap |]. split; [exact Hlen |]. split; [lia |].
intros j Hj. pose proof (Z.mod_pos_bound (Z.of_nat (length pushed)) capacity Hc).
destruct (Nat.eq_dec j (length pushed)) as [-> | Hne].
- rewrite list_lookup_insert_eq by lia.
  rewrite lookup_app_r by lia. now rewrite Nat.sub_diag.
- rewrite list_lookup_insert_ne.
  + rewrite lookup_app_l by lia. apply Hslots. lia.
  + intros Heq. symmetry in Heq. revert Heq.
    apply distinct_slots; lia.
Qed.

Lemma PushAll_holds (capacity : Z) (more pushed : list Trade.t) (rb : TradeRingBuffer.t) :
0 < capacity -> Z.of_nat (length pushed + length more) < 2 ^ 64 ->
holds capacity pushed rb ->
exists rb', PushAll more rb = Slot rb' /\ holds capacity (pushed ++ more) rb'.
Proof.
intros Hc. revert pushed rb.
induction more as [| trade rest IH]; intros pushed rb Hfit Hholds; cbn [PushAll].
- exists rb. rewrite app_nil_r. now split.
- cbn [length] in Hfit.
  destruct (Push_holds capacity pushed trade rb Hc ltac:(lia) Hholds) as (rb1 & -> & H1).
  destruct (IH (pushed ++ [trade]) rb1) as (rb' & Hpush & H').
  + rewrite length_app. cbn [length]. lia.
  + exact H1.
  + exists rb'. split; [exact Hpush |]. now rewrite <- app_assoc in H'.
Qed.

Lemma NewTradeRingBuffer_holds (capacity : Z) :
0 <= capacity < 2 ^ 64 ->
exists rb, NewTradeRingBuffer capacity = Some rb /\ holds capacity [] rb.
Proof.
intros Hc. unfold NewTradeRingBuffer. destruct (capacity <? 0) eqn:Hneg; [lia |].
eexists. split; [reflexivity |]. unfold holds.
cbn [TradeRingBuffer.cap TradeRingBuffer.trades TradeRingBuffer.head length].
rewrite length_replicate, uint64_small by lia.
repeat split; try reflexivity. intros j Hj. lia.
Qed.

Lemma collect_holds (capacity : Z) (pushed : list Trade.t) (rb : TradeRingBuffer.t) :
0 < capacity -> holds capacity pushed rb ->
forall (steps : nat) (i : Z),
  0 <= i -> Z.of_nat (length pushed) - capacity <= i ->
  i + Z.of_nat steps <= Z.of_nat (length pushed) ->
  TradeRingBuffer.collect rb i steps = Slot (take steps (drop (Z.to_nat i) pushed)).
Proof.
intros Hc Hholds. pose proof Hholds as (Hcap & Hlen & Hhead & Hslots).
induction steps as [| steps IH]; intros i Hi Hwin Hend; cbn [TradeRingBuffer.collect].
- now rewrite take_0.
- rewrite (slot_in_range capacity pushed rb i Hc Hholds Hi).
  rewrite (IH (i + 1)) by lia.
  specialize (Hslots (Z.to_nat i) ltac:(lia)). rewrite Z2Nat.id in Hslots by lia.
  rewrite Hslots.
  destruct (pushed !! Z.to_nat i) as [trade |] eqn:Hlook.
  + rewrite (drop_S _ _ _ Hlook). cbn [take].
    now replace (Z.to_nat (i + 1)) with (S (Z.to_nat i)) by lia.
  + apply lookup_ge_None in Hlook. lia.
Qed.

(** X11. After [k] trades were pushed into a new buffer of capacity [c],
    [Recent n] returns the last [min (n, c, k)] of them, the oldest
    first, and [Len] is [min (k, c)]; no push and no read panics. A
    negative [n] counts as a huge one. On a buffer of capacity zero, the
    one [NewTradeRingBuffer 0] builds, every push panics. *)
Theorem ring_buffer_keeps_the_latest (capacity n : Z) (pushed : list Trade.t) :
0 < capacity <= Int64.max_int ->
Z.of_nat (length pushed) <= Int64.max_int ->
exists rb0 rb,
  NewTradeRingBuffer capacity = Some rb0 /\
  PushAll pushed rb0 = Slot rb /\
  TradeRingBuffer.Recent n rb =
    Slot (drop (length pushed
                - Z.to_nat (Z.min (uint64 n)
                                  (Z.min capacity (Z.of_nat (length pushed)))))
               pushed) /\
  TradeRingBuffer.Len rb = Z.min (Z.of_nat (length pushed)) capacity /\
  forall empty trade,
    NewTradeRingBuffer 0 = Some empty ->
    TradeRingBuffer.Push trade empty = ModuloByZero.
Proof.
unfold Int64.max_int. intros Hc Hk.
destruct (NewTradeRingBuffer_holds capacity ltac:(lia)) as (rb0 & Hnew & H0).
destruct (PushAll_holds capacity pushed [] rb0 ltac:(lia) ltac:(cbn [length]; lia) H0)
  as (rb & Hpush & Hholds).
cbn [app] in Hholds. exists rb0, rb. split; [exact Hnew |]. split; [exact Hpush |].
pose proof Hholds as (Hcap & Hlen & Hhead & Hslots).
set (k := Z.of_nat (length pushed)) in *.
assert (Hu : 0 <= uint64 n) by (unfold uint64; apply Z.mod_pos_bound; lia).
split.
- unfold TradeRingBuffer.Recent. rewrite Hhead, Hcap.
  destruct (k =? 0) eqn:Hz.
  + assert (length pushed = 0%nat) as Hnil by lia.
    destruct pushed; [| discriminate]. now rewrite drop_nil.
  + set (count1 := if capacity <? uint64 n then capacity else uint64 n).
    set (count := if k <? count1 then k else count1).
    assert (Hcount : count = Z.min (uint64 n) (Z.min capacity k)).
    { unfold count, count1.
      destruct (Z.ltb_spec capacity (uint64 n)), (Z.ltb_spec k capacity),
        (Z.ltb_spec k (uint64 n)); lia. }
    replace (k - (k - count)) with count by lia.
    rewrite (collect_holds capacity pushed rb ltac:(lia) Hholds) by (fold k; lia).
    rewrite <- Hcount.
    replace (Z.to_nat (k - count)) with (length pushed - Z.to_nat count)%nat by lia.
    apply f_equal. apply take_ge. rewrite length_drop. lia.
- split; [| intros empty trade Hempty; injection Hempty as <-; reflexivity].
  unfold TradeRingBuffer.Len. rewrite Hhead, Hcap.
  destruct (Z.ltb_spec capacity k).
  + rewrite Int64_facts.wrap_small; [lia |].
    unfold Int64.in_range, Int64.min_int, Int64.max_int. lia.
  + rewrite Int64_facts.wrap_small; [lia |].
    unfold Int64.in_range, Int64.min_int, Int64.max_int. lia.
Qed.

Lemma ring_buffer_keeps_the_latest_witness :
0 < 2 <= Int64.max_int /\
Z.of_nat (length [Trade.mk "v" "s" (NewFromInt 1) (NewFromInt 1) SideBuy 1 "a";
                  Trade.mk "v" "s" (NewFromInt 2) (NewFromInt 1) SideBuy 2 "b";
                  Trade.mk "v" "s" (NewFromInt 3) (NewFromInt 1) SideSell 3 "c"])
  <= Int64.max_int /\
exists rb0 rb,
  NewTradeRingBuffer 2 = Some rb0 /\
  PushAll [Trade.mk "v" "s" (NewFromInt 1) (NewFromInt 1) SideBuy 1 "a";
           Trade.mk "v" "s" (NewFromInt 2) (NewFromInt 1) SideBuy 2 "b";
           Trade.mk "v" "s" (NewFromInt 3) (NewFromInt 1) SideSell 3 "c"] rb0
    = Slot rb /\
  TradeRingBuffer.Recent 5 rb =
    Slot [Trade.mk "v" "s" (NewFromInt 2) (NewFromInt 1) SideBuy 2 "b";
          Trade.mk "v" "s" (NewFromInt 3) (NewFromInt 1) SideSell 3 "c"] /\
  TradeRingBuffer.Len rb = 2.
Proof.
assert (H1 : 0 < 2 <= Int64.max_int) by (unfold Int64.max_int; lia).
assert (H2 : Z.of_nat (length
          [Trade.mk "v" "s" (NewFromInt 1) (NewFromInt 1) SideBuy 1 "a";
           Trade.mk "v" "s" (NewFromInt 2) (NewFromInt 1) SideBuy 2 "b";
           Trade.mk "v" "s" (NewFromInt 3) (NewFromInt 1) SideSell 3 "c"])
          <= Int64.max_int) by (unfold Int64.max_int; cbn; lia).
split; [exact H1 |]. split; [exact H2 |].
destruct (ring_buffer_keeps_the_latest 2 5 _ H1 H2)
  as (rb0 & rb & Hnew & Hpush & Hrecent & Hlen & _).
exists rb0, rb. repeat split; assumption.
Defined.

End marketdata_facts.

(** ** Facts about package [risk] *)

Module risk_facts.
Import decimal domain risk decimal_facts domain_facts.

(** *** Facts about the checks *)



Lemma prefix_app (a s : string) :
String.prefix a s = true <-> exists rest, s = a +:+ rest.
Proof.
revert s. induction a as [| c a IH]; intros s.
- split; [intros _; now exists s | intros _; now destruct s].
- destruct s as [| c' s]; simpl.
  + split; [discriminate | intros [rest Hr]; discriminate].
  + destruct (Ascii.ascii_dec c c') as [-> | Hne].
    * rewrite IH. split; intros [rest Hr]; exists rest.
      -- now rewrite Hr.
      -- now injection Hr.
    * split; [discriminate |].
      intros [rest Hr]. injection Hr as Hc _. congruence.
Qed.

Lemma before_slash_None (s : string) : before_slash s = None <-> ~ has_slash s.
Proof.
unfold has_slash. induction s as [| c s IH]; simpl.
- split; [| reflexivity]. intros _ (a & b & H). destruct a; discriminate.
- destruct (Ascii.eqb_spec c "/"%char) as [-> | Hne].
  + split; [discriminate |]. intros H. exfalso. apply H.
    now exists EmptyString, s.
  + destruct (before_slash s) as [a |] eqn:Hb; simpl.
    * split; [discriminate |]. intros H. exfalso.
      destruct IH as [_ IH].
      assert (Some a = None) as Habs; [| discriminate].
      apply IH. intros (a' & b & ->). apply H. now exists (String c a'), b.
    * split; [| reflexivity]. intros _ (a & b & H).
      destruct a as [| c' a]; simpl in H; injection H as Hc Hs.
      -- congruence.
      -- destruct IH as [IH _]. apply IH; [reflexivity |]. now exists a, b.
Qed.



Lemma prefix_nil (s : string) : String.prefix EmptyString s = true.
Proof. now destruct s. Qed.


Lemma extractAsset_other (symbol : string) :
~ has_slash symbol ->
(forall a rest, In a ["BTC"; "ETH"; "SOL"] -> symbol <> a +:+ rest) ->
extractAsset symbol = symbol.
Proof.
intros Hno Hpre. unfold extractAsset.
apply before_slash_None in Hno. rewrite Hno.
assert (Hp : forall a, In a ["BTC"; "ETH"; "SOL"] -> String.prefix a symbol = false).
{ intros a Ha. destruct (String.prefix a symbol) eqn:E; [| reflexivity].
  apply prefix_app in E as [rest E]. now apply Hpre in E. }
simpl. rewrite !Hp by (simpl; tauto). reflexivity.
Qed.




Lemma daily_loss_spec (m : Manager) :
LessThanOrEqual (TotalDailyPnL (pnlTracker m))
                (Neg (config.DailyLossCapUSDT (cfg m))) = true
<-> daily_loss_reached m.
Proof.
unfold daily_loss_reached, TotalDailyPnL.
now rewrite LessThanOrEqual_spec, toQ_Add, toQ_Neg.
Qed.




Lemma checkPnLLimits_cases (String_ : Decimal -> string) (e : env)
  (m : Manager) (d : disk) :
let total := TotalDailyPnL (pnlTracker m) in
if LessThanOrEqual total (Neg (config.DailyLossCapUSDT (cfg m)))
then exists effs,
  checkPnLLimits String_ e m d =
  Ok (setKillSwitch
        (mkKillSwitch true (breachReason String_ total) (now e)
                      (filePath (killSwitch m)))
        (setMode RiskModeHalted m),
      persistState (write_ok e)
        (mkKillSwitch true (breachReason String_ total) (now e)
                      (filePath (killSwitch m))) d,
      effs)
else exists m' effs,
  checkPnLLimits String_ e m d = Ok (m', d, effs) /\
  killSwitch m' = killSwitch m.
Proof.
intros total. unfold checkPnLLimits. fold total.
change (Div ?x (NewFromInt 100)) with (Some (DivRound x (NewFromInt 100) DivisionPrecision)).
cbn [of_option bind].
destruct (LessThanOrEqual total _).
- eexists. reflexivity.
- destruct (LessThanOrEqual total _).
  + destruct (decide _); eexists _, _; split; reflexivity.
  + eexists _, _; split; reflexivity.
Qed.




Example ValidateSignal_approves :
ValidateSignal 1000 example_md example_manager (example_signal (New 5 (-1)))
= approve.
Proof. vm_compute. reflexivity. Qed.

Example ValidateSignal_position_limit :
Reason (ValidateSignal 1000 example_md example_manager (example_signal (NewFromInt 2)))
= Some RejectPositionLimit.
Proof. vm_compute. reflexivity. Qed.

Example ValidateSignal_stale_before_position :
Reason (ValidateSignal 3000000000 example_md example_manager
                       (example_signal (NewFromInt 2)))
= Some RejectDataStale.
Proof. vm_compute. reflexivity. Qed.


(** *** The kill switch across restarts *)


(** *** The PnL tracker from day to day *)

(** X13. The first update of a new UTC day starts from zero: yesterday's PnL
    does not count toward today's. Within a day realized PnL adds up and
    unrealized PnL is replaced. *)
Theorem PnLTracker_daily_reset (today : Z) (amount : Decimal) (p : PnLTracker) :
(lastReset p < today ->
 (toQ (TotalDailyPnL (AddRealizedPnL today amount p)) == toQ amount)%Q /\
 (toQ (TotalDailyPnL (UpdateUnrealizedPnL today amount p)) == toQ amount)%Q /\
 lastReset (AddRealizedPnL today amount p) = today /\
 lastReset (UpdateUnrealizedPnL today amount p) = today) /\
(today <= lastReset p ->
 (toQ (TotalDailyPnL (AddRealizedPnL today amount p))
  == toQ (TotalDailyPnL p) + toQ amount)%Q /\
 (toQ (TotalDailyPnL (UpdateUnrealizedPnL today amount p))
  == toQ (dailyRealizedPnL p) + toQ amount)%Q /\
 lastReset (AddRealizedPnL today amount p) = lastReset p /\
 lastReset (UpdateUnrealizedPnL today amount p) = lastReset p).
Proof.
unfold AddRealizedPnL, UpdateUnrealizedPnL, checkDailyReset, TotalDailyPnL.
split; intros H.
- destruct (Z.ltb_spec (lastReset p) today); [| lia].
  cbn [dailyRealizedPnL dailyUnrealizedPnL lastReset].
  rewrite !toQ_Add, !toQ_Zero. repeat split; try reflexivity; ring.
- destruct (Z.ltb_spec (lastReset p) today); [lia |].
  cbn [dailyRealizedPnL dailyUnrealizedPnL lastReset].
  rewrite !toQ_Add. repeat split; try reflexivity; ring.
Qed.

(** *** Open-order counters *)





(** *** Deactivating the kill switch during a breach *)

(** X15. [DeactivateKillSwitch] clears the switch and the mode, not the day's
    PnL. While the loss is at or beyond the cap every signal is still
    rejected, and the next PnL check activates the switch again. *)
Theorem deactivation_keeps_the_breach (String_ : Decimal -> string) (e e' : env)
  (m : Manager) (d : disk) :
daily_loss_reached m ->
let m1 := fst (DeactivateKillSwitch e m d) in
let d1 := snd (DeactivateKillSwitch e m d) in
active (killSwitch m1) = false /\
Mode (state m1) = RiskModeNormal /\
(forall now md signal, Approved (ValidateSignal now md m1 signal) = false) /\
exists m2 d2 effs,
  periodicCheck String_ e' m1 d1 = Ok (m2, d2, effs) /\
  active (killSwitch m2) = true /\
  Mode (state m2) = RiskModeHalted.
Proof.
intros Hloss. cbv zeta.
unfold DeactivateKillSwitch, Deactivate. cbn [fst snd].
set (m1 := setKillSwitch _ _).
assert (Hloss1 : daily_loss_reached m1) by exact Hloss.
split; [reflexivity |]. split; [reflexivity |]. split.
- intros now md signal. unfold ValidateSignal.
  change (IsActive (killSwitch m1)) with false. cbv iota.
  change (Mode (state m1)) with RiskModeNormal.
  rewrite decide_False by discriminate.
  apply daily_loss_spec in Hloss1. rewrite Hloss1.
  repeat (match goal with |- Approved (if ?c then _ else _) = false =>
            destruct c; [reflexivity |] end).
  reflexivity.
- unfold periodicCheck. pose proof (checkPnLLimits_cases String_ e' m1
    (persistState (write_ok e)
       (mkKillSwitch false EmptyString (activatedAt (killSwitch (setMode RiskModeNormal m)))
                     (filePath (killSwitch (setMode RiskModeNormal m)))) d)) as Hcases.
  cbv zeta in Hcases. apply daily_loss_spec in Hloss1. rewrite Hloss1 in Hcases.
  destruct Hcases as (effs & ->). eexists _, _, effs. split; [reflexivity |].
  split; reflexivity.
Qed.

Lemma deactivation_keeps_the_breach_witness :
daily_loss_reached
  (mkManager (state example_manager)
     (AddRealizedPnL 0 (NewFromInt (-13000)) (pnlTracker example_manager))
     (killSwitch example_manager) (cfg example_manager) false) /\
forall now md signal,
  Approved
    (ValidateSignal now md
       (fst (DeactivateKillSwitch (mkEnv 5 0 true)
               (mkManager (state example_manager)
                  (AddRealizedPnL 0 (NewFromInt (-13000)) (pnlTracker example_manager))
                  (killSwitch example_manager) (cfg example_manager) false) ∅))
       signal) = false.
Proof.
assert (H : daily_loss_reached
  (mkManager (state example_manager)
     (AddRealizedPnL 0 (NewFromInt (-13000)) (pnlTracker example_manager))
     (killSwitch example_manager) (cfg example_manager) false)).
{ apply daily_loss_spec. vm_compute. reflexivity. }
split; [exact H |].
destruct (deactivation_keeps_the_breach (fun _ => EmptyString) (mkEnv 5 0 true)
            (mkEnv 6 0 true) _ ∅ H) as (_ & _ & Hrej & _).
exact Hrej.
Defined.

(** *** The warning threshold *)

(** The warning level is the loss cap scaled by the threshold
    percentage, exactly, for a cap with at most fourteen fractional
    digits. *)
Lemma warningLevel_exact (cap : Decimal) (pct : Z) :
-14 <= exp cap ->
exists w,
  Div (Mul (Neg cap) (NewFromInt pct)) (NewFromInt 100) = Some w /\
  (toQ w == - toQ cap * inject_Z pct / 100)%Q.
Proof.
intros Hexp. unfold Div. cbn [value NewFromInt]. change (100 =? 0) with false.
eexists. split; [reflexivity |].
assert (H100 : value (NewFromInt 100) <> 0) by (cbn; lia).
destruct (DivRound_spec (Mul (Neg cap) (NewFromInt pct)) (NewFromInt 100)
            DivisionPrecision H100) as [He Herr].
assert (Hx : (toQ (Mul (Neg cap) (NewFromInt pct)) / toQ (NewFromInt 100)
              == - toQ cap * inject_Z pct / 100)%Q).
{ rewrite toQ_Mul, toQ_Neg, !toQ_NewFromInt. reflexivity. }
rewrite Hx in Herr.
apply (rounded_exact _ DivisionPrecision (- value cap * pct * 10 ^ (exp cap + 14)));
  [exact He | exact Herr |].
unfold toQ. rewrite !inject_Z_mult, inject_Z_opp.
rewrite (ten_pow_inject (exp cap + 14)) by lia.
assert (Hsplit : (ten ^ exp cap == ten ^ (exp cap + 14) * ten ^ (-14))%Q).
{ rewrite <- Qpower_plus by apply ten_neq0. f_equiv. lia. }
rewrite Hsplit.
assert (H14 : (ten ^ (-14) == 100 * ten ^ (- DivisionPrecision))%Q) by reflexivity.
rewrite H14. field.
Qed.

(** X16. Between the cap and the warning level the manager only warns: a
    manager in normal mode goes to warning mode, the kill switch and the
    file stay as they are. Above the warning level nothing changes. *)
Theorem checkPnLLimits_warning (String_ : Decimal -> string) (e : env)
  (m : Manager) (d : disk) :
-14 <= exp (config.DailyLossCapUSDT (cfg m)) ->
(- toQ (config.DailyLossCapUSDT (cfg m)) < toQ (TotalDailyPnL (pnlTracker m)))%Q ->
((toQ (TotalDailyPnL (pnlTracker m))
  <= - toQ (config.DailyLossCapUSDT (cfg m))
     * inject_Z (config.WarningThresholdPct (cfg m)) / 100)%Q ->
 Mode (state m) = RiskModeNormal ->
 checkPnLLimits String_ e m d =
 Ok (setMode RiskModeWarning m, d, [LogWarn "PnL warning threshold reached"])) /\
((toQ (TotalDailyPnL (pnlTracker m))
  <= - toQ (config.DailyLossCapUSDT (cfg m))
     * inject_Z (config.WarningThresholdPct (cfg m)) / 100)%Q ->
 Mode (state m) <> RiskModeNormal ->
 checkPnLLimits String_ e m d = Ok (m, d, [])) /\
((- toQ (config.DailyLossCapUSDT (cfg m))
  * inject_Z (config.WarningThresholdPct (cfg m)) / 100
  < toQ (TotalDailyPnL (pnlTracker m)))%Q ->
 checkPnLLimits String_ e m d = Ok (m, d, [])).
Proof.
intros Hexp Habove.
destruct (warningLevel_exact (config.DailyLossCapUSDT (cfg m))
            (config.WarningThresholdPct (cfg m)) Hexp) as (w & Hw & HwQ).
assert (Hcap : LessThanOrEqual (TotalDailyPnL (pnlTracker m))
                 (Neg (config.DailyLossCapUSDT (cfg m))) = false).
{ destruct (LessThanOrEqual _ _) eqn:Hle; [| reflexivity].
  apply LessThanOrEqual_spec in Hle. rewrite toQ_Neg in Hle. lra. }
unfold checkPnLLimits. rewrite Hw. cbn [of_option bind]. rewrite Hcap.
split; [| split].
- intros Hwarn Hmode.
  assert (LessThanOrEqual (TotalDailyPnL (pnlTracker m)) w = true) as ->
    by (apply LessThanOrEqual_spec; rewrite HwQ; exact Hwarn).
  now rewrite decide_True by exact Hmode.
- intros Hwarn Hmode.
  assert (LessThanOrEqual (TotalDailyPnL (pnlTracker m)) w = true) as ->
    by (apply LessThanOrEqual_spec; rewrite HwQ; exact Hwarn).
  now rewrite decide_False by exact Hmode.
- intros Hok.
  assert (LessThanOrEqual (TotalDailyPnL (pnlTracker m)) w = false) as ->.
  { destruct (LessThanOrEqual _ w) eqn:Hle; [| reflexivity].
    apply LessThanOrEqual_spec in Hle. rewrite HwQ in Hle. lra. }
  reflexivity.
Qed.

Lemma checkPnLLimits_warning_witness :
-14 <= exp (config.DailyLossCapUSDT (cfg example_manager)) /\
(- toQ (config.DailyLossCapUSDT (cfg example_manager))
 < toQ (TotalDailyPnL
          (pnlTracker
             (mkManager (state example_manager)
                (AddRealizedPnL 0 (NewFromInt (-11000)) (pnlTracker example_manager))
                (killSwitch example_manager) (cfg example_manager) false))))%Q /\
checkPnLLimits (fun _ => EmptyString) (mkEnv 5 0 true)
  (mkManager (state example_manager)
     (AddRealizedPnL 0 (NewFromInt (-11000)) (pnlTracker example_manager))
     (killSwitch example_manager) (cfg example_manager) false) ∅
= Ok (setMode RiskModeWarning
        (mkManager (state example_manager)
           (AddRealizedPnL 0 (NewFromInt (-11000)) (pnlTracker example_manager))
           (killSwitch example_manager) (cfg example_manager) false),
      ∅, [LogWarn "PnL warning threshold reached"]).
Proof.
assert (H1 : -14 <= exp (config.DailyLossCapUSDT (cfg example_manager)))
  by (vm_compute; discriminate).
assert (H2 : (- toQ (config.DailyLossCapUSDT (cfg example_manager))
 < toQ (TotalDailyPnL
          (pnlTracker
             (mkManager (state example_manager)
                (AddRealizedPnL 0 (NewFromInt (-11000)) (pnlTracker example_manager))
                (killSwitch example_manager) (cfg example_manager) false))))%Q)
  by (vm_compute; reflexivity).
split; [exact H1 |]. split; [exact H2 |].
destruct (checkPnLLimits_warning (fun _ => EmptyString) (mkEnv 5 0 true)
            (mkManager (state example_manager)
               (AddRealizedPnL 0 (NewFromInt (-11000)) (pnlTracker example_manager))
               (killSwitch example_manager) (cfg example_manager) false) ∅ H1 H2)
  as (Hwarn & _ & _).
apply Hwarn; [vm_compute; discriminate | reflexivity].
Defined.

End risk_facts.

(** ** Facts about package [order] *)

Module order_facts.
Import decimal domain order decimal_facts domain_facts.

Example SubmitOrder_fills :
status_of (after_submit 0 (example_request 1 "nobitex" "s-leg-0") example_manager) 1
= Some OrderStatusFilled.
Proof. vm_compute. reflexivity. Qed.

Example SubmitOrder_unknown_venue :
status_of (after_submit 0 (example_request 1 "elsewhere" "s-leg-0") example_manager) 1
= Some OrderStatusSubmitFailed
/\ snd (SubmitOrder 0 (example_request 1 "elsewhere" "s-leg-0") example_manager)
   = Failed "unknown venue".
Proof. vm_compute. split; reflexivity. Qed.

(** *** Terminal orders *)

(** [CancelOrder] does not look at the order's status: whenever the
    venue accepts the cancel, the order ends Cancelled. *)
Lemma CancelOrder_any_status (now id : Z) (m : Manager) (o : Order.t)
  (gw : VenueGateway) :
orders m !! id = Some o ->
gateways m !! Order.Venue o = Some gw ->
CancelOrder_at_venue gw (Order.VenueID o) = Some tt ->
CancelOrder now id m =
(setOrders (<[id := withStatus now OrderStatusCancelled o]> (orders m)) m,
 [VenueCancelOrder (Order.Venue o) (Order.VenueID o);
  publishStateChange now (withStatus now OrderStatusCancelled o)
                     (Order.Status o) OrderStatusCancelled],
 None).
Proof.
intros Ho Hgw Hc. unfold CancelOrder, updateStatus.
now rewrite Ho, Hgw, Hc.
Qed.

(** [UpdateOrderFill] does not look at the previous status either. *)
Lemma UpdateOrderFill_any_status (now id : Z) (filledSize avgPrice : Decimal)
  (m : Manager) (o : Order.t) :
orders m !! id = Some o ->
(toQ (Order.Size o) <= toQ filledSize)%Q ->
status_of (fst (UpdateOrderFill now id filledSize avgPrice m)) id
= Some OrderStatusFilled.
Proof.
intros Ho Hsize. unfold UpdateOrderFill, status_of. rewrite Ho. simpl.
rewrite lookup_insert_eq. simpl.
apply GreaterThanOrEqual_spec in Hsize. now rewrite Hsize.
Qed.

(** C3, at the failing inputs. Order 1 is Filled: [CancelOrder] calls the
    venue and leaves it Cancelled, publishing Filled -> Cancelled. Order 2
    is Cancelled: [UpdateOrderFill] with its full size leaves it Filled. *)
Theorem terminal_status_is_overwritten :
status_of filled_order_manager 1 = Some OrderStatusFilled /\
status_of (fst (fst (CancelOrder 5 1 filled_order_manager))) 1
  = Some OrderStatusCancelled /\
In (VenueCancelOrder "nobitex" "v-1") (snd (fst (CancelOrder 5 1 filled_order_manager))) /\
snd (CancelOrder 5 1 filled_order_manager) = None /\
status_of cancelled_order_manager 2 = Some OrderStatusCancelled /\
status_of (fst (UpdateOrderFill 9 2 (NewFromInt 1) (NewFromInt 50000)
                                cancelled_order_manager)) 2
  = Some OrderStatusFilled.
Proof. vm_compute. repeat split; auto. Qed.

(** *** Submission *)

Lemma SubmitOrder_existing (now : Z) (req : OrderRequest.t) (m : Manager)
  (id : Z) (o : Order.t) :
OrderRequest.IdempotencyKey req <> EmptyString ->
idempotencyMap m !! OrderRequest.IdempotencyKey req = Some id ->
orders m !! id = Some o ->
SubmitOrder now req m = (m, [], Returned (Some o)).
Proof.
intros Hk Hi Ho. unfold SubmitOrder. rewrite Hi.
destruct (String.eqb_spec (OrderRequest.IdempotencyKey req) EmptyString) as [E | _];
  [contradiction |].
simpl. now rewrite Ho.
Qed.

Lemma SubmitOrder_fresh (now : Z) (req : OrderRequest.t) (m : Manager) :
OrderRequest.IdempotencyKey req = EmptyString \/
idempotencyMap m !! OrderRequest.IdempotencyKey req = None ->
SubmitOrder now req m = submitNew now req m.
Proof.
intros H. unfold SubmitOrder.
destruct (idempotencyMap m !! OrderRequest.IdempotencyKey req) as [id |] eqn:Hi;
  [| reflexivity].
destruct H as [H | H]; [| discriminate].
now rewrite H.
Qed.

(** The three ways a fresh submission ends. *)
Lemma submitNew_unknown_venue (now : Z) (req : OrderRequest.t) (m : Manager) :
gateways m !! OrderRequest.Venue req = None ->
let o := newOrder now req in
let failed := withStatus now OrderStatusSubmitFailed o in
submitNew now req m =
(mkManager (<[Order.InternalID o := failed]> (<[Order.InternalID o := o]> (orders m)))
           (venueIDMap m)
           (if negb (String.eqb (OrderRequest.IdempotencyKey req) EmptyString)
            then <[OrderRequest.IdempotencyKey req := Order.InternalID o]>
                   (idempotencyMap m)
            else idempotencyMap m)
           (gateways m),
 [publishStateChange now o OrderStatusUnset OrderStatusPendingNew;
  publishStateChange now failed OrderStatusPendingNew OrderStatusSubmitFailed],
 Failed "unknown venue").
Proof.
intros Hgw o failed. unfold submitNew, updateStatus, setOrders.
repeat first [ rewrite Hgw | rewrite lookup_insert_eq
             | progress cbn [fst snd gateways orders venueIDMap idempotencyMap] ].
reflexivity.
Qed.

Lemma submitNew_rejected_by_venue (now : Z) (req : OrderRequest.t) (m : Manager)
  (gw : VenueGateway) :
gateways m !! OrderRequest.Venue req = Some gw ->
PlaceOrder gw req = None ->
let o := newOrder now req in
let submitted := withStatus now OrderStatusSubmitted o in
let failed := withStatus now OrderStatusSubmitFailed submitted in
fst (fst (submitNew now req m)) =
  mkManager (<[Order.InternalID o := failed]>
               (<[Order.InternalID o := submitted]>
                  (<[Order.InternalID o := o]> (orders m))))
            (venueIDMap m)
            (if negb (String.eqb (OrderRequest.IdempotencyKey req) EmptyString)
             then <[OrderRequest.IdempotencyKey req := Order.InternalID o]>
                    (idempotencyMap m)
             else idempotencyMap m)
            (gateways m) /\
snd (fst (submitNew now req m)) =
  [publishStateChange now o OrderStatusUnset OrderStatusPendingNew;
   publishStateChange now submitted OrderStatusPendingNew OrderStatusSubmitted;
   VenuePlaceOrder (OrderRequest.Venue req) req;
   publishStateChange now failed OrderStatusSubmitted OrderStatusSubmitFailed] /\
snd (submitNew now req m) = Failed "place order".
Proof.
intros Hgw Hp o submitted failed. unfold submitNew, updateStatus, setOrders.
repeat first [ rewrite Hgw | rewrite Hp | rewrite lookup_insert_eq
             | progress cbn [fst snd gateways orders venueIDMap idempotencyMap] ].
repeat split.
Qed.

Lemma submitNew_acknowledged (now : Z) (req : OrderRequest.t) (m : Manager)
  (gw : VenueGateway) (ack : OrderAck.t) :
gateways m !! OrderRequest.Venue req = Some gw ->
PlaceOrder gw req = Some ack ->
let o := newOrder now req in
let submitted := withStatus now OrderStatusSubmitted o in
let acked := acknowledged now ack submitted in
fst (fst (submitNew now req m)) =
  mkManager (<[Order.InternalID o := acked]>
               (<[Order.InternalID o := submitted]>
                  (<[Order.InternalID o := o]> (orders m))))
            (<[OrderAck.VenueID ack := Order.InternalID o]> (venueIDMap m))
            (if negb (String.eqb (OrderRequest.IdempotencyKey req) EmptyString)
             then <[OrderRequest.IdempotencyKey req := Order.InternalID o]>
                    (idempotencyMap m)
             else idempotencyMap m)
            (gateways m) /\
snd (fst (submitNew now req m)) =
  [publishStateChange now o OrderStatusUnset OrderStatusPendingNew;
   publishStateChange now submitted OrderStatusPendingNew OrderStatusSubmitted;
   VenuePlaceOrder (OrderRequest.Venue req) req;
   publishStateChange now acked OrderStatusSubmitted (OrderAck.Status ack)] /\
snd (submitNew now req m) = Returned (Some acked) /\
Order.VenueID acked = OrderAck.VenueID ack /\
Order.Status acked = OrderAck.Status ack.
Proof.
intros Hgw Hp o submitted acked. unfold submitNew, updateStatus, setOrders.
repeat first [ rewrite Hgw | rewrite Hp | rewrite lookup_insert_eq
             | progress cbn [fst snd gateways orders venueIDMap idempotencyMap] ].
repeat split.
Qed.

(** C7, at the failing input. The key still sits in the idempotency map
    but its order is gone: [SubmitOrder] returns a nil order with a nil
    error, creates no order, publishes nothing and does not call the
    venue. *)
Theorem SubmitOrder_collected_key_returns_nil :
idempotencyMap collected_manager !! "s-leg-0" = Some 1 /\
orders collected_manager !! 1 = None /\
SubmitOrder 200 (example_request 2 "nobitex" "s-leg-0") collected_manager
= (collected_manager, [], Returned None) /\
orders (fst (fst (SubmitOrder 200 (example_request 2 "nobitex" "s-leg-0")
                              collected_manager))) !! 2 = None.
Proof. vm_compute. repeat split; reflexivity. Qed.

(** *** Idempotent submission *)

(** What a first submission under a key leaves behind: the key, and the
    order, which is the one returned or, after an error, the failed
    one. *)
Lemma submitNew_stores (now : Z) (req : OrderRequest.t) (m : Manager) :
OrderRequest.IdempotencyKey req <> EmptyString ->
let m1 := fst (fst (submitNew now req m)) in
idempotencyMap m1 !! OrderRequest.IdempotencyKey req
  = Some (OrderRequest.InternalID req) /\
gateways m1 = gateways m /\
exists o,
  orders m1 !! OrderRequest.InternalID req = Some o /\
  (snd (submitNew now req m) = Returned (Some o) \/
   (exists err, snd (submitNew now req m) = Failed err) /\
   Order.Status o = OrderStatusSubmitFailed /\
   ~ In (VenuePlaceOrder (OrderRequest.Venue req) req) (snd (fst (submitNew now req m)))
   \/
   (exists err, snd (submitNew now req m) = Failed err) /\
   Order.Status o = OrderStatusSubmitFailed /\
   exists gw, gateways m !! OrderRequest.Venue req = Some gw /\ PlaceOrder gw req = None).
Proof.
intros Hkey. cbv zeta.
assert (Hneq : negb (String.eqb (OrderRequest.IdempotencyKey req) EmptyString) = true).
{ destruct (String.eqb_spec (OrderRequest.IdempotencyKey req) EmptyString);
    [contradiction | reflexivity]. }
destruct (gateways m !! OrderRequest.Venue req) as [gw |] eqn:Hgw.
- destruct (PlaceOrder gw req) as [ack |] eqn:Hack.
  + destruct (submitNew_acknowledged now req m gw ack Hgw Hack)
      as (Hm & _ & Hr & _). cbv zeta in Hm, Hr. rewrite Hm, Hr, Hneq.
    cbn [idempotencyMap gateways orders newOrder Order.InternalID].
    rewrite !lookup_insert_eq. split; [reflexivity |]. split; [reflexivity |].
    eexists. split; [reflexivity |]. left. reflexivity.
  + destruct (submitNew_rejected_by_venue now req m gw Hgw Hack) as (Hm & _ & Hr).
    cbv zeta in Hm, Hr. rewrite Hm, Hr, Hneq.
    cbn [idempotencyMap gateways orders newOrder Order.InternalID].
    rewrite !lookup_insert_eq. split; [reflexivity |]. split; [reflexivity |].
    eexists. split; [reflexivity |]. right. right.
    split; [eexists; reflexivity |]. split; [reflexivity |].
    exists gw. now split.
- pose proof (submitNew_unknown_venue now req m Hgw) as Hm. cbv zeta in Hm.
  rewrite Hm, Hneq. cbn [fst snd idempotencyMap gateways orders newOrder Order.InternalID].
  rewrite !lookup_insert_eq. split; [reflexivity |]. split; [reflexivity |].
  eexists. split; [reflexivity |]. right. left.
  split; [eexists; reflexivity |]. split; [reflexivity |].
  cbn [In]. intros [H | [H | []]]; discriminate.
Qed.

(** X17. A second submission under the same non-empty key changes nothing and
    contacts no venue: it returns, without an error, the order the first
    submission stored, also when the first submission failed and that
    order is [SubmitFailed]. *)
Theorem SubmitOrder_same_key_twice (now now' : Z) (req req' : OrderRequest.t)
  (m : Manager) :
OrderRequest.IdempotencyKey req <> EmptyString ->
OrderRequest.IdempotencyKey req' = OrderRequest.IdempotencyKey req ->
idempotencyMap m !! OrderRequest.IdempotencyKey req = None ->
let m1 := fst (fst (SubmitOrder now req m)) in
exists o,
  orders m1 !! OrderRequest.InternalID req = Some o /\
  SubmitOrder now' req' m1 = (m1, [], Returned (Some o)) /\
  (snd (SubmitOrder now req m) = Returned (Some o) \/
   (exists err, snd (SubmitOrder now req m) = Failed err) /\
   Order.Status o = OrderStatusSubmitFailed).
Proof.
intros Hkey Hsame Hfresh. cbv zeta.
rewrite (SubmitOrder_fresh now req m (or_intror Hfresh)).
destruct (submitNew_stores now req m Hkey) as (Hid & _ & o & Ho & Hres).
cbv zeta in Hid, Ho. exists o. split; [exact Ho |]. split.
- apply (SubmitOrder_existing now' req' _ (OrderRequest.InternalID req) o).
  + now rewrite Hsame.
  + now rewrite Hsame.
  + exact Ho.
- destruct Hres as [Hr | [(He & Hs & _) | (He & Hs & _)]]; [now left | right | right];
    now split.
Qed.

Lemma SubmitOrder_same_key_twice_witness :
"s-leg-0" <> EmptyString /\
exists o,
  orders (fst (fst (SubmitOrder 0 (example_request 1 "elsewhere" "s-leg-0")
                                example_manager))) !! 1 = Some o /\
  SubmitOrder 7 (example_request 2 "nobitex" "s-leg-0")
    (fst (fst (SubmitOrder 0 (example_request 1 "elsewhere" "s-leg-0") example_manager)))
  = (fst (fst (SubmitOrder 0 (example_request 1 "elsewhere" "s-leg-0") example_manager)),
     [], Returned (Some o)).
Proof.
assert (Hk : OrderRequest.IdempotencyKey (example_request 1 "elsewhere" "s-leg-0")
             <> EmptyString) by discriminate.
split; [exact Hk |].
destruct (SubmitOrder_same_key_twice 0 7 (example_request 1 "elsewhere" "s-leg-0")
            (example_request 2 "nobitex" "s-leg-0") example_manager Hk eq_refl eq_refl)
  as (o & Ho & Hsecond & _).
exists o. split; [exact Ho | exact Hsecond].
Defined.

(** *** Cancelling every open order *)

Lemma map_fmap {A B : Type} (f : A -> B) (l : list A) : map f l = f <$> l.
Proof. induction l as [| x l IH]; [reflexivity |]. cbn. now rewrite IH. Qed.

Lemma CancelOrder_frame (now id id' : Z) (m : Manager) :
gateways (fst (fst (CancelOrder now id m))) = gateways m /\
(id <> id' -> orders (fst (fst (CancelOrder now id m))) !! id' = orders m !! id').
Proof.
unfold CancelOrder, updateStatus, setOrders.
destruct (orders m !! id) as [o |] eqn:Ho; [| now split].
destruct (gateways m !! Order.Venue o) as [gw |]; [| now split].
destruct (CancelOrder_at_venue gw (Order.VenueID o)); [| now split].
cbn [fst gateways orders]. split; [reflexivity |].
intros Hne. now rewrite lookup_insert_ne.
Qed.

(** The loop of [CancelAllOrders]. *)
Lemma cancel_loop_frame (now : Z) (ids : list Z) (acc : Manager * list effect) (id' : Z) :
let looped :=
  fold_left (fun acc id =>
               let '(m, es) := acc in
               let '(m, es', _) := CancelOrder now id m in (m, es ++ es'))
            ids acc in
gateways (fst looped) = gateways (fst acc) /\
(~ In id' ids -> orders (fst looped) !! id' = orders (fst acc) !! id').
Proof.
cbv zeta. revert acc. induction ids as [| id rest IH]; intros [m es]; cbn [fold_left].
- now split.
- destruct (CancelOrder now id m) as [[m1 es1] r] eqn:Hc.
  destruct (IH (m1, es ++ es1)) as [Hg Ho]. cbn [fst] in *.
  destruct (CancelOrder_frame now id id' m) as [Hg1 Ho1]. rewrite Hc in Hg1, Ho1.
  cbn [fst] in Hg1, Ho1. split; [now rewrite Hg |].
  intros Hnin. rewrite Ho by (intros H; apply Hnin; now right).
  apply Ho1. intros ->. apply Hnin. now left.
Qed.

Lemma cancel_loop_hit (now : Z) (ids : list Z) (acc : Manager * list effect)
  (id : Z) (o : Order.t) (gw : VenueGateway) :
List.NoDup ids -> In id ids ->
orders (fst acc) !! id = Some o ->
gateways (fst acc) !! Order.Venue o = Some gw ->
CancelOrder_at_venue gw (Order.VenueID o) = Some tt ->
orders (fst (fold_left (fun acc id =>
                          let '(m, es) := acc in
                          let '(m, es', _) := CancelOrder now id m in (m, es ++ es'))
                       ids acc)) !! id
= Some (withStatus now OrderStatusCancelled o).
Proof.
revert acc. induction ids as [| id0 rest IH]; intros [m es] Hnd Hin Ho Hgw Hcancel;
  [destruct Hin |].
cbn [fold_left fst] in *. apply List.NoDup_cons_iff in Hnd as [Hnotin Hnd].
destruct Hin as [-> | Hin].
- rewrite (CancelOrder_any_status now id m o gw Ho Hgw Hcancel).
  destruct (cancel_loop_frame now rest
              (setOrders (<[id := withStatus now OrderStatusCancelled o]> (orders m)) m,
               es ++ [VenueCancelOrder (Order.Venue o) (Order.VenueID o);
                      publishStateChange now (withStatus now OrderStatusCancelled o)
                        (Order.Status o) OrderStatusCancelled]) id) as [_ Hframe].
  cbv zeta in Hframe. rewrite Hframe by exact Hnotin.
  cbn [fst setOrders orders]. now rewrite lookup_insert_eq.
- assert (Hne : id0 <> id) by (intros ->; contradiction).
  destruct (CancelOrder now id0 m) as [[m1 es1] r] eqn:Hc.
  destruct (CancelOrder_frame now id0 id m) as [Hg1 Ho1]. rewrite Hc in Hg1, Ho1.
  cbn [fst] in Hg1, Ho1.
  apply (IH (m1, es ++ es1) Hnd Hin); cbn [fst].
  + rewrite Ho1 by exact Hne. exact Ho.
  + rewrite Hg1. exact Hgw.
  + exact Hcancel.
Qed.

(** X18. [CancelAllOrders] leaves every terminal order as it is, and turns
    every open order whose venue accepts the cancellation into a
    [Cancelled] one. *)
Theorem CancelAllOrders_spec (now id : Z) (m : Manager) (o : Order.t) :
orders m !! id = Some o ->
(IsTerminal (Order.Status o) = true ->
 orders (fst (CancelAllOrders now m)) !! id = Some o) /\
(IsTerminal (Order.Status o) = false ->
 forall gw, gateways m !! Order.Venue o = Some gw ->
            CancelOrder_at_venue gw (Order.VenueID o) = Some tt ->
            orders (fst (CancelAllOrders now m)) !! id
            = Some (withStatus now OrderStatusCancelled o)).
Proof.
intros Ho. unfold CancelAllOrders.
set (active := filter (fun p : Z * Order.t => negb (IsTerminal (Order.Status (snd p))))
                      (map_to_list (orders m))).
assert (Hmem : forall id', In id' (map fst active) <->
          exists o', orders m !! id' = Some o' /\ IsTerminal (Order.Status o') = false).
{ intros id'. rewrite in_map_iff. split.
  - intros ([k o'] & <- & Hin). apply list_elem_of_In in Hin.
    apply list_elem_of_filter in Hin as [Hp Hin]. apply elem_of_map_to_list in Hin.
    exists o'. split; [exact Hin |]. cbn in Hp. now destruct (IsTerminal _).
  - intros (o' & Ho' & Hopen). exists (id', o'). split; [reflexivity |].
    apply list_elem_of_In. apply list_elem_of_filter. split.
    + cbn. now rewrite Hopen.
    + now apply elem_of_map_to_list. }
split.
- intros Hterm.
  destruct (cancel_loop_frame now (map fst active) (m, []) id) as [_ Hframe].
  cbv zeta in Hframe. rewrite Hframe; [exact Ho |].
  intros Hin. apply Hmem in Hin as (o' & Ho' & Hopen). congruence.
- intros Hopen gw Hgw Hcancel.
  apply (cancel_loop_hit now (map fst active) (m, []) id o gw); try assumption.
  + apply NoDup_ListNoDup. rewrite map_fmap.
    eapply sublist_NoDup; [apply (NoDup_fst_map_to_list (orders m)) |].
    apply fmap_sublist, sublist_filter.
  + apply Hmem. now exists o.
Qed.

Lemma CancelAllOrders_spec_witness :
orders filled_order_manager !! 1
  = Some (Order.mk 1 "v-1" 1 "nobitex" "BTC/USDT" SideBuy OrderTypeLimit
            (NewFromInt 50000) (NewFromInt 1) (New 0 0) (New 0 0)
            OrderStatusFilled 0 0) /\
orders (fst (CancelAllOrders 5 filled_order_manager)) !! 1
  = Some (Order.mk 1 "v-1" 1 "nobitex" "BTC/USDT" SideBuy OrderTypeLimit
            (NewFromInt 50000) (NewFromInt 1) (New 0 0) (New 0 0)
            OrderStatusFilled 0 0).
Proof.
assert (H : orders filled_order_manager !! 1
  = Some (Order.mk 1 "v-1" 1 "nobitex" "BTC/USDT" SideBuy OrderTypeLimit
            (NewFromInt 50000) (NewFromInt 1) (New 0 0) (New 0 0)
            OrderStatusFilled 0 0)) by (vm_compute; reflexivity).
split; [exact H |].
exact (proj1 (CancelAllOrders_spec 5 1 filled_order_manager _ H) eq_refl).
Defined.

(** *** Collecting stale orders *)

Lemma classic_in {A : Type} `{EqDecision A} (x : A) (l : list A) : In x l \/ ~ In x l.
Proof. destruct (decide (x ∈ l)) as [H | H]; rewrite list_elem_of_In in H; tauto. Qed.

Lemma delete_loop (gone : list (Z * Order.t)) (os : gmap Z Order.t) (id : Z) :
(In id (map fst gone) ->
 fold_left (fun os p => delete (fst p) os) gone os !! id = None) /\
(~ In id (map fst gone) ->
 fold_left (fun os p => delete (fst p) os) gone os !! id = os !! id).
Proof.
revert os. induction gone as [| [k o] rest IH]; intros os; cbn [fold_left map fst].
- split; [intros [] | reflexivity].
- destruct (IH (delete k os)) as [IHin IHout]. split.
  + intros [-> | Hin].
    * destruct (classic_in id (map fst rest)) as [Hin | Hnin]; [now apply IHin |].
      rewrite IHout by exact Hnin. apply lookup_delete_eq.
    * now apply IHin.
  + intros Hnin. rewrite IHout by (intros H; apply Hnin; now right).
    apply lookup_delete_ne. intros ->. apply Hnin. now left.
Qed.

Lemma delete_venue_loop (gone : list (Z * Order.t)) (vs : gmap string Z) (v : string) :
(v <> EmptyString -> In v (map (fun p => Order.VenueID (snd p)) gone) ->
 fold_left (fun vs p =>
              if negb (String.eqb (Order.VenueID (snd p)) EmptyString)
              then delete (Order.VenueID (snd p)) vs else vs) gone vs !! v = None) /\
(~ In v (map (fun p => Order.VenueID (snd p)) gone) ->
 fold_left (fun vs p =>
              if negb (String.eqb (Order.VenueID (snd p)) EmptyString)
              then delete (Order.VenueID (snd p)) vs else vs) gone vs !! v = vs !! v).
Proof.
revert vs. induction gone as [| [k o] rest IH]; intros vs; cbn [fold_left map snd].
- split; [intros _ [] | reflexivity].
- split.
  + intros Hv [Hhd | Htl].
    * destruct (String.eqb_spec (Order.VenueID o) EmptyString) as [He | Hne];
        [congruence |]. cbn [negb].
      destruct (classic_in v (map (fun p => Order.VenueID (snd p)) rest)) as [Hin | Hnin].
      -- now apply IH.
      -- destruct (IH (delete (Order.VenueID o) vs)) as [_ IHout].
         rewrite IHout by exact Hnin. rewrite Hhd. apply lookup_delete_eq.
    * now apply IH.
  + intros Hnin.
    assert (Hrest : ~ In v (map (fun p => Order.VenueID (snd p)) rest))
      by (intros H; apply Hnin; now right).
    destruct (String.eqb_spec (Order.VenueID o) EmptyString) as [He | Hne]; cbn [negb].
    * now apply IH.
    * destruct (IH (delete (Order.VenueID o) vs)) as [_ IHout].
      rewrite IHout by exact Hrest. apply lookup_delete_ne.
      intros Heq. apply Hnin. now left.
Qed.

(** X19. [CleanupStaleOrders] removes exactly the terminal orders last updated
    more than [maxAge] ago, and the venue ids of the removed orders; open
    orders stay whatever their age, and the idempotency keys stay, those
    of the removed orders included. *)
Theorem CleanupStaleOrders_spec (now maxAge : Z) (m : Manager) :
let m' := CleanupStaleOrders now maxAge m in
(forall id,
   orders m' !! id =
   match orders m !! id with
   | Some o => if stale now maxAge o then None else Some o
   | None => None
   end) /\
(forall v,
   (v <> EmptyString /\
    exists id o, orders m !! id = Some o /\ stale now maxAge o = true /\
                 Order.VenueID o = v) ->
   venueIDMap m' !! v = None) /\
(forall v,
   (forall id o, orders m !! id = Some o -> stale now maxAge o = true ->
                 Order.VenueID o <> v) ->
   venueIDMap m' !! v = venueIDMap m !! v) /\
idempotencyMap m' = idempotencyMap m /\
gateways m' = gateways m.
Proof.
cbv zeta. unfold CleanupStaleOrders. cbn [orders venueIDMap idempotencyMap gateways].
set (gone := filter (fun p : Z * Order.t => stale now maxAge (snd p))
                    (map_to_list (orders m))).
assert (Hgone : forall id o, In (id, o) gone <->
                             orders m !! id = Some o /\ stale now maxAge o = true).
{ intros id o. rewrite <- list_elem_of_In. unfold gone.
  rewrite list_elem_of_filter, elem_of_map_to_list. cbn [snd].
  split; intros [H1 H2]; split; try assumption.
  - now apply Is_true_true.
  - now apply Is_true_true. }
split; [| split; [| split; [| split; reflexivity]]].
- intros id. destruct (delete_loop gone (orders m) id) as [Hin Hout].
  destruct (classic_in id (map fst gone)) as [Hyes | Hno].
  + rewrite Hin by exact Hyes.
    apply in_map_iff in Hyes as ([k o] & <- & Hyes). apply Hgone in Hyes as [Ho Hs].
    cbn [fst]. now rewrite Ho, Hs.
  + rewrite Hout by exact Hno.
    destruct (orders m !! id) as [o |] eqn:Ho; [| reflexivity].
    destruct (stale now maxAge o) eqn:Hs; [| reflexivity].
    exfalso. apply Hno. apply in_map_iff. exists (id, o). split; [reflexivity |].
    apply Hgone. now split.
- intros v (Hv & id & o & Ho & Hs & Hid).
  apply (delete_venue_loop gone (venueIDMap m) v); [exact Hv |].
  apply in_map_iff. exists (id, o). split; [exact Hid |]. apply Hgone. now split.
- intros v Hnone. apply (delete_venue_loop gone (venueIDMap m) v).
  intros Hin. apply in_map_iff in Hin as ([id o] & Hid & Hin).
  apply Hgone in Hin as [Ho Hs]. exact (Hnone id o Ho Hs Hid).
Qed.

End order_facts.

(** ** Facts about package [simulated] *)

Module simulated_facts.
Import decimal domain simulated decimal_facts domain_facts.

Lemma liquidity_nonneg (levels : list PriceLevel.t) :
positive_sizes levels -> (0 <= liquidity levels)%Q.
Proof.
induction 1 as [| l rest Hl _ IH]; simpl; [lra |]. lra.
Qed.

Lemma consumed_nonpos (levels : list PriceLevel.t) (r : Q) :
positive_sizes levels -> (r <= 0)%Q ->
(sumQ (consumed levels r) == 0)%Q /\ (cost levels r == 0)%Q.
Proof.
intros Hpos. revert r. unfold cost.
induction Hpos as [| l rest Hl _ IH]; intros r Hr; simpl.
- split; reflexivity.
- destruct (IH (r - size_of l)%Q ltac:(lra)) as [IH1 IH2].
  rewrite IH1, IH2.
  rewrite (Q.max_l 0 r) by lra. rewrite (Q.min_r (size_of l) 0) by lra.
  split; ring.
Qed.

Lemma consumed_total (levels : list PriceLevel.t) (r : Q) :
positive_sizes levels -> (0 <= r)%Q ->
(sumQ (consumed levels r) == Qmin r (liquidity levels))%Q.
Proof.
intros Hpos. revert r.
induction Hpos as [| l rest Hl Hrest IH]; intros r Hr; simpl.
- rewrite Q.min_r by lra. reflexivity.
- pose proof (liquidity_nonneg rest Hrest) as HL.
  rewrite (Q.max_r 0 r) by lra.
  destruct (Qlt_le_dec r (size_of l)) as [Hlt | Hge].
  + destruct (consumed_nonpos rest (r - size_of l)%Q Hrest ltac:(lra)) as [H0 _].
    rewrite H0, (Q.min_r (size_of l) r) by lra.
    rewrite (Q.min_l r) by lra. ring.
  + rewrite IH by lra. rewrite (Q.min_l (size_of l) r) by lra.
    destruct (Qlt_le_dec (r - size_of l) (liquidity rest)) as [Ha | Hb].
    * rewrite (Q.min_l (r - size_of l)) by lra. rewrite (Q.min_l r) by lra. ring.
    * rewrite (Q.min_r (r - size_of l)) by lra. rewrite (Q.min_r r) by lra. ring.
Qed.

Lemma consumed_wd (levels : list PriceLevel.t) (r r' : Q) :
(r == r')%Q ->
(sumQ (consumed levels r) == sumQ (consumed levels r'))%Q /\
(cost levels r == cost levels r')%Q.
Proof.
revert r r'. unfold cost.
induction levels as [| l rest IH]; intros r r' Hr; simpl.
- split; reflexivity.
- destruct (IH (r - size_of l)%Q (r' - size_of l)%Q) as [IH1 IH2].
  { now rewrite Hr. }
  rewrite IH1, IH2, Hr. split; reflexivity.
Qed.

(** The loop computes the consumed sizes and their cost. *)
Lemma walk_spec (levels : list PriceLevel.t) :
positive_sizes levels ->
forall remaining totalCost totalFilled : Decimal,
(0 <= toQ remaining)%Q ->
(toQ (fst (walk levels remaining totalCost totalFilled))
 == toQ totalCost + cost levels (toQ remaining))%Q /\
(toQ (snd (walk levels remaining totalCost totalFilled))
 == toQ totalFilled + sumQ (consumed levels (toQ remaining)))%Q.
Proof.
induction 1 as [| l rest Hl Hrest IH]; intros remaining totalCost totalFilled Hr.
- unfold cost. simpl. split; ring.
- simpl walk.
  destruct (IsZero remaining) eqn:Hz.
  + apply IsZero_spec in Hz.
    assert (Hall : positive_sizes (l :: rest)) by (constructor; assumption).
    destruct (consumed_nonpos (l :: rest) (toQ remaining) Hall ltac:(lra))
      as [H1 H2].
    rewrite H1, H2. simpl. split; ring.
  + assert (Hnz : ~ (toQ remaining == 0)%Q).
    { intros E. apply IsZero_spec in E. congruence. }
    set (fill := Min remaining (PriceLevel.Size l)).
    assert (Hfill : (toQ fill == Qmin (toQ remaining) (size_of l))%Q)
      by apply toQ_Min.
    assert (Hrem : (toQ (Sub remaining fill) == toQ remaining - toQ fill)%Q)
      by apply toQ_Sub.
    assert (Hfill_le : (toQ fill <= toQ remaining)%Q).
    { rewrite Hfill. apply Q.le_min_l. }
    destruct (IH (Sub remaining fill)
                 (Add totalCost (Mul fill (PriceLevel.Price l)))
                 (Add totalFilled fill) ltac:(lra)) as [IH1 IH2].
    rewrite IH1, IH2, !toQ_Add, toQ_Mul.
    unfold cost. simpl. fold (cost rest (toQ remaining - size_of l)).
    fold (cost rest (toQ (Sub remaining fill))).
    rewrite (Q.max_r 0 (toQ remaining)) by lra.
    fold (price_of l).
    destruct (Qlt_le_dec (toQ remaining) (size_of l)) as [Hlt | Hge].
    * assert (Hf : (toQ fill == toQ remaining)%Q).
      { rewrite Hfill. apply Q.min_l. lra. }
      destruct (consumed_nonpos rest (toQ (Sub remaining fill)) Hrest
                  ltac:(lra)) as [A1 A2].
      destruct (consumed_nonpos rest (toQ remaining - size_of l)%Q Hrest
                  ltac:(lra)) as [B1 B2].
      rewrite A1, A2, B1, B2, Hf.
      rewrite (Q.min_r (size_of l) (toQ remaining)) by lra.
      split; ring.
    * assert (Hf : (toQ fill == size_of l)%Q).
      { rewrite Hfill. apply Q.min_r. lra. }
      rewrite (Q.min_l (size_of l) (toQ remaining)) by lra.
      destruct (consumed_wd rest (toQ (Sub remaining fill))
                  (toQ remaining - size_of l)%Q) as [W1 W2].
      { rewrite Hrem, Hf. reflexivity. }
      rewrite W1, W2, Hf. split; ring.
Qed.

Lemma liquidity_pos (levels : list PriceLevel.t) :
positive_sizes levels -> levels <> [] -> (0 < liquidity levels)%Q.
Proof.
intros Hpos Hne. destruct Hpos as [| l rest Hl Hrest]; [congruence |].
simpl. pose proof (liquidity_nonneg rest Hrest). lra.
Qed.

(** A market fill of a positive size against a non-empty side: what
    [simulateMarketFill] returns. *)
Lemma simulateMarketFill_spec (levels : list PriceLevel.t) (size : Decimal) :
positive_sizes levels -> levels <> [] -> (0 < toQ size)%Q ->
exists avgPrice totalFilled,
  simulateMarketFill levels size = Ok (avgPrice, totalFilled) /\
  (toQ totalFilled == Qmin (toQ size) (liquidity levels))%Q /\
  exp avgPrice = - DivisionPrecision /\
  (Qabs (toQ avgPrice - weighted_average levels (toQ size))
   <= (1 # 2) * ten ^ (- DivisionPrecision))%Q.
Proof.
intros Hpos Hne Hsize. unfold simulateMarketFill.
destruct (walk_spec levels Hpos size Zero Zero ltac:(lra)) as [HC HF].
destruct (walk levels size Zero Zero) as [C F]. simpl in HC, HF.
rewrite toQ_Zero, Qplus_0_l in HC, HF.
pose proof (consumed_total levels (toQ size) Hpos ltac:(lra)) as Htot.
pose proof (liquidity_pos levels Hpos Hne) as HL.
assert (HFpos : (0 < toQ F)%Q).
{ rewrite HF, Htot. apply Q.min_glb_lt; assumption. }
assert (HFz : IsZero F = false).
{ destruct (IsZero F) eqn:E; [| reflexivity].
  apply IsZero_spec in E. lra. }
rewrite HFz.
assert (HFv : value F <> 0).
{ intros E. apply (toQ_sign F) in E. lra. }
unfold Div. destruct (Z.eqb_spec (value F) 0) as [E | _]; [contradiction |].
cbn [of_option bind].
exists (DivRound C F DivisionPrecision), F.
split; [reflexivity |]. split; [now rewrite HF |].
destruct (DivRound_spec C F DivisionPrecision HFv) as [Hexp Hbound].
split; [exact Hexp |].
unfold weighted_average. rewrite <- HC, <- HF. exact Hbound.
Qed.

(** C5, with the price as the code computes it. A market order against
    a book, not hit by reject injection: the fill size is the minimum of
    the requested size and the liquidity of the opposite side; the fill
    price is the size-weighted average of the consumed levels rounded to
    sixteen fractional digits, so within [5 * 10^-17] of it and equal to
    it when it has no more than sixteen fractional digits; the status
    is Filled when the full size is consumed and PartialFill otherwise.
    A nil book or an empty opposite side gives Rejected. A market buy of
    1.0 against the single ask level 0.3 at 50000 returns PartialFill
    with filled size 0.3 at price 50000. *)
Theorem market_fill_walks_the_book
  (s : DefaultFillSimulator) (order : OrderRequest.t) (book : OrderBookSnapshot.t) :
OrderRequest.OrderType order = OrderTypeMarket ->
fst (rejectDraw s) = false ->
positive_sizes (opposite_side order book) ->
(0 < toQ (OrderRequest.Size order))%Q ->
let levels := opposite_side order book in
let size := toQ (OrderRequest.Size order) in
(levels <> [] ->
 exists fill,
   snd (SimulateFill s order (Some book)) = Ok fill /\
   (toQ (FillSize fill) == Qmin size (liquidity levels))%Q /\
   exp (FillPrice fill) = -16 /\
   (Qabs (toQ (FillPrice fill) - weighted_average levels size)
    <= 1 # 20000000000000000)%Q /\
   (forall k : Z,
      (weighted_average levels size == inject_Z k * (1 # 10000000000000000))%Q ->
      (toQ (FillPrice fill) == weighted_average levels size)%Q) /\
   ((liquidity levels < size)%Q -> Status fill = OrderStatusPartialFill) /\
   ((size <= liquidity levels)%Q -> Status fill = OrderStatusFilled)) /\
(levels = [] -> snd (SimulateFill s order (Some book)) = Ok (rejected s)) /\
snd (SimulateFill s order None) = Ok (rejected s) /\
(exists fill,
   snd (SimulateFill quiet (market_buy (NewFromInt 1)) (Some thin_book)) = Ok fill /\
   Status fill = OrderStatusPartialFill /\
   Equal (FillSize fill) (New 3 (-1)) = true /\
   Equal (FillPrice fill) (NewFromInt 50000) = true).
Proof.
intros Hmarket Hdraw Hpos Hsize levels size.
unfold SimulateFill. destruct (rejectDraw s) as [hit r]. simpl in Hdraw.
subst hit. cbn [snd].
assert (Hlevels : matchOrder s order book =
  match levels with
  | [] => Ok (Done (rejected s))
  | _ => let* walked := simulateMarketFill levels (OrderRequest.Size order) in
         let '(fillPrice, fillSize) := walked in
         Ok (Walked fillPrice fillSize (takerFeeBps s))
  end).
{ unfold matchOrder. rewrite Hmarket. reflexivity. }
rewrite Hlevels.
split; [| split; [| split; [reflexivity |]]].
- intros Hne.
  destruct (simulateMarketFill_spec levels (OrderRequest.Size order) Hpos Hne Hsize)
    as (avg & filled & Hsim & Hfilled & Hexp & Hbound).
  destruct levels as [| l rest] eqn:El; [congruence |].
  rewrite Hsim. cbn [bind of_option].
  change (Div ?x (NewFromInt 10000))
    with (Some (DivRound x (NewFromInt 10000) DivisionPrecision)).
  cbn [bind of_option].
  eexists. split; [reflexivity |]. cbn [FillSize FillPrice Status].
  split; [exact Hfilled |]. split; [exact Hexp |].
  split.
  { assert (Heps : ((1 # 2) * ten ^ (- DivisionPrecision)
                    == 1 # 20000000000000000)%Q) by reflexivity.
    rewrite <- Heps. exact Hbound. }
  split.
  { intros k Hk. apply (rounded_exact avg DivisionPrecision k); assumption. }
  split.
  + intros Hshort.
    assert (Hlt : LessThan filled (OrderRequest.Size order) = true).
    { apply LessThan_spec. rewrite Hfilled. fold size.
      rewrite Q.min_r by lra. exact Hshort. }
    now rewrite Hlt.
  + intros Hfull.
    assert (Hlt : LessThan filled (OrderRequest.Size order) = false).
    { destruct (LessThan filled (OrderRequest.Size order)) eqn:E; [| reflexivity].
      apply LessThan_spec in E. rewrite Hfilled in E. fold size in E.
      rewrite Q.min_l in E by lra. lra. }
    now rewrite Hlt.
- intros ->. reflexivity.
- eexists. split; [vm_compute; reflexivity |]. vm_compute. auto.
Qed.

Lemma market_fill_walks_the_book_witness :
OrderRequest.OrderType (market_buy (NewFromInt 1)) = OrderTypeMarket /\
fst (rejectDraw quiet) = false /\
positive_sizes (opposite_side (market_buy (NewFromInt 1)) thin_book) /\
(0 < toQ (OrderRequest.Size (market_buy (NewFromInt 1))))%Q /\
exists fill,
  snd (SimulateFill quiet (market_buy (NewFromInt 1)) (Some thin_book)) = Ok fill /\
  (toQ (FillSize fill)
   == Qmin (toQ (NewFromInt 1))
           (liquidity (opposite_side (market_buy (NewFromInt 1)) thin_book)))%Q.
Proof.
assert (H1 : OrderRequest.OrderType (market_buy (NewFromInt 1)) = OrderTypeMarket)
  by reflexivity.
assert (H2 : fst (rejectDraw quiet) = false) by reflexivity.
assert (H3 : positive_sizes (opposite_side (market_buy (NewFromInt 1)) thin_book)).
{ repeat constructor. }
assert (H4 : (0 < toQ (OrderRequest.Size (market_buy (NewFromInt 1))))%Q)
  by reflexivity.
split; [exact H1 |]. split; [exact H2 |]. split; [exact H3 |]. split; [exact H4 |].
destruct (market_fill_walks_the_book quiet (market_buy (NewFromInt 1)) thin_book
            H1 H2 H3 H4) as (Hfill & _).
destruct (Hfill ltac:(discriminate)) as (fill & Hrun & Hsize & _).
exists fill. split; [exact Hrun | exact Hsize].
Defined.

(** C5, refuted as stated: a market buy of 3 consumes 1 at price 1 and 2
    at price 2; the size-weighted average is 5/3, the fill price returned
    is 1.6666666666666667. *)
Lemma market_fill_price_is_rounded :
exists fill,
  snd (SimulateFill quiet (market_buy (NewFromInt 3)) (Some two_level_book)) = Ok fill /\
  FillPrice fill = New 16666666666666667 (-16) /\
  (weighted_average (OrderBookSnapshot.Asks two_level_book) (toQ (NewFromInt 3))
   == 5 # 3)%Q /\
  ~ (toQ (FillPrice fill)
     == weighted_average (OrderBookSnapshot.Asks two_level_book)
                         (toQ (NewFromInt 3)))%Q.
Proof.
eexists. split; [vm_compute; reflexivity |].
split; [reflexivity |]. split; [vm_compute; reflexivity |].
vm_compute. discriminate.
Qed.

(** The other cases of the test suite. *)
Example market_buy_fills :
exists fill,
  snd (SimulateFill quiet (market_buy (New 5 (-1)))
         (Some (asks_book [PriceLevel.mk (NewFromInt 50000) (NewFromInt 1);
                           PriceLevel.mk (NewFromInt 50100) (NewFromInt 2)])))
  = Ok fill /\
  Status fill = OrderStatusFilled /\
  Equal (FillSize fill) (New 5 (-1)) = true /\
  Equal (FillPrice fill) (NewFromInt 50000) = true /\
  IsZero (Fee fill) = false.
Proof. eexists. split; [vm_compute; reflexivity |]. vm_compute. auto. Qed.




(** *** Limit orders *)

(** X26. A limit order whose price does not reach the best level of the other
    side rests: it is acknowledged at its own price with nothing filled.
    A marketable limit order is filled exactly as the market order of
    the same size would be, at the maker rate: the walk over the book
    does not stop at the limit price, and the fill price can be worse
    than the limit. *)
Theorem limit_order_fill (s : DefaultFillSimulator) (order : OrderRequest.t)
  (book : OrderBookSnapshot.t) :
OrderRequest.OrderType order = OrderTypeLimit ->
match best_opposite order book with
| None =>
    fst (rejectDraw s) = false ->
    snd (SimulateFill s order (Some book)) = Ok (rejected s)
| Some best =>
    (marketable order best ->
     snd (SimulateFill s order (Some book))
     = snd (SimulateFill (at_maker_rate s) (as_market order) (Some book))) /\
    (~ marketable order best ->
     fst (rejectDraw s) = false ->
     snd (SimulateFill s order (Some book))
     = Ok (resting s (OrderRequest.Price order)))
end /\
exists fill,
  snd (SimulateFill quiet (limit_buy (NewFromInt 1) (NewFromInt 3)) (Some two_level_book))
  = Ok fill /\
  Status fill = OrderStatusFilled /\
  (toQ (OrderRequest.Price (limit_buy (NewFromInt 1) (NewFromInt 3)))
   < toQ (FillPrice fill))%Q.
Proof.
intros Hlimit. split.
- unfold best_opposite, marketable, SimulateFill.
  assert (Hdraw : rejectDraw (at_maker_rate s) = rejectDraw s) by reflexivity.
  rewrite Hdraw. destruct (rejectDraw s) as [hit r]. cbn [fst snd].
  unfold matchOrder. rewrite Hlimit. cbn [as_market OrderRequest.OrderType
    OrderRequest.Side OrderRequest.Size OrderRequest.Price].
  unfold OrderBookSnapshot.BestAsk, OrderBookSnapshot.BestBid.
  destruct (OrderRequest.Side order).
  + destruct (OrderBookSnapshot.Asks book) as [| best rest] eqn:Hasks; cbn [head].
    * now intros ->.
    * split.
      -- intros Hm. destruct hit; [reflexivity |].
         assert (LessThan (OrderRequest.Price order) (PriceLevel.Price best) = false) as ->.
         { destruct (LessThan _ _) eqn:E; [| reflexivity].
           apply LessThan_spec in E. lra. }
         reflexivity.
      -- intros Hm ->.
         assert (LessThan (OrderRequest.Price order) (PriceLevel.Price best) = true) as ->.
         { apply LessThan_spec. apply Qnot_le_lt. exact Hm. }
         reflexivity.
  + destruct (OrderBookSnapshot.Bids book) as [| best rest] eqn:Hbids; cbn [head].
    * now intros ->.
    * split.
      -- intros Hm. destruct hit; [reflexivity |].
         assert (GreaterThan (OrderRequest.Price order) (PriceLevel.Price best) = false)
           as ->.
         { destruct (GreaterThan _ _) eqn:E; [| reflexivity].
           apply GreaterThan_spec in E. lra. }
         reflexivity.
      -- intros Hm ->.
         assert (GreaterThan (OrderRequest.Price order) (PriceLevel.Price best) = true)
           as ->.
         { apply GreaterThan_spec. apply Qnot_le_lt. exact Hm. }
         reflexivity.
- eexists. split; [vm_compute; reflexivity |]. split; [reflexivity |].
  vm_compute. reflexivity.
Qed.

Lemma limit_order_fill_witness :
OrderRequest.OrderType (limit_buy (New 5 (-1)) (NewFromInt 3)) = OrderTypeLimit /\
snd (SimulateFill quiet (limit_buy (New 5 (-1)) (NewFromInt 3)) (Some two_level_book))
= Ok (resting quiet (New 5 (-1))).
Proof.
split; [reflexivity |].
destruct (limit_order_fill quiet (limit_buy (New 5 (-1)) (NewFromInt 3))
            two_level_book eq_refl) as [Hcases _].
cbn [best_opposite limit_buy OrderRequest.Side two_level_book asks_book
     OrderBookSnapshot.BestAsk OrderBookSnapshot.Asks head] in Hcases.
destruct Hcases as [_ Hrest].
apply Hrest; [| reflexivity].
unfold marketable. cbn. intros H. vm_compute in H. apply H. reflexivity.
Defined.

(** *** Fees *)

(** X27. Whenever anything is filled, the fee is the notional of the fill
    times the fee rate of the order type, in basis points, rounded to
    sixteen fractional digits; a rejected or resting order pays
    nothing. *)
Theorem fee_of_a_fill (s : DefaultFillSimulator) (order : OrderRequest.t)
  (book : option OrderBookSnapshot.t) (fill : SimulatedFill) :
snd (SimulateFill s order book) = Ok fill ->
match Status fill with
| OrderStatusFilled | OrderStatusPartialFill =>
    (Qabs (toQ (Fee fill)
           - toQ (FillPrice fill) * toQ (FillSize fill) * toQ (feeRate s order) / 10000)
     <= (1 # 2) * ten ^ (- DivisionPrecision))%Q
| _ => Fee fill = New 0 0 /\ (toQ (FillSize fill) == 0)%Q
end.
Proof.
unfold SimulateFill. destruct (rejectDraw s) as [hit r]. cbn [snd].
assert (Hrej : forall f, Ok (rejected s) = Ok f ->
          match Status f with
          | OrderStatusFilled | OrderStatusPartialFill =>
              (Qabs (toQ (Fee f)
                     - toQ (FillPrice f) * toQ (FillSize f) * toQ (feeRate s order) / 10000)
               <= (1 # 2) * ten ^ (- DivisionPrecision))%Q
          | _ => Fee f = New 0 0 /\ (toQ (FillSize f) == 0)%Q
          end).
{ intros f H. injection H as <-. cbn. split; reflexivity. }
assert (Hrest : forall f price, Ok (resting s price) = Ok f ->
          match Status f with
          | OrderStatusFilled | OrderStatusPartialFill =>
              (Qabs (toQ (Fee f)
                     - toQ (FillPrice f) * toQ (FillSize f) * toQ (feeRate s order) / 10000)
               <= (1 # 2) * ten ^ (- DivisionPrecision))%Q
          | _ => Fee f = New 0 0 /\ (toQ (FillSize f) == 0)%Q
          end).
{ intros f price H. injection H as <-. cbn. split; reflexivity. }
assert (Hwalk : forall levels rate f,
          rate = feeRate s order ->
          (let* m :=
             (let* walked := simulateMarketFill levels (OrderRequest.Size order) in
              let '(fillPrice, fillSize) := walked in
              Ok (Walked fillPrice fillSize rate)) in
           match m with
           | Done fill => Ok fill
           | Walked fillPrice fillSize feeBps =>
               let* fee :=
                 of_option DivideByZero
                   (Div (Mul (Mul fillPrice fillSize) feeBps) (NewFromInt 10000)) in
               let status :=
                 if LessThan fillSize (OrderRequest.Size order)
                 then OrderStatusPartialFill else OrderStatusFilled in
               Ok (mkFill fillPrice fillSize fee (latencyMs s) status)
           end) = Ok f ->
          match Status f with
          | OrderStatusFilled | OrderStatusPartialFill =>
              (Qabs (toQ (Fee f)
                     - toQ (FillPrice f) * toQ (FillSize f) * toQ (feeRate s order) / 10000)
               <= (1 # 2) * ten ^ (- DivisionPrecision))%Q
          | _ => Fee f = New 0 0 /\ (toQ (FillSize f) == 0)%Q
          end).
{ intros levels rate f Hrate.
  destruct (simulateMarketFill levels (OrderRequest.Size order)) as [[fp fs] | p];
    [| discriminate].
  cbn [bind]. destruct (Div (Mul (Mul fp fs) rate) (NewFromInt 10000)) as [fee |] eqn:Hdiv;
    [| discriminate].
  cbn [of_option bind]. intros H. injection H as <-.
  pose proof (Div_spec _ _ _ Hdiv) as Herr.
  rewrite !toQ_Mul, toQ_NewFromInt, Hrate in Herr.
  cbn [Status Fee FillPrice FillSize].
  destruct (LessThan fs (OrderRequest.Size order)); exact Herr. }
destruct hit; [apply Hrej |]. destruct book as [book |]; [| apply Hrej].
unfold matchOrder, feeRate in *.
destruct (OrderRequest.OrderType order).
- destruct (OrderRequest.Side order).
  + destruct (OrderBookSnapshot.Asks book) as [| best rest] eqn:Hasks; [apply Hrej |].
    destruct (LessThan _ _); [apply Hrest |]. now apply Hwalk.
  + destruct (OrderBookSnapshot.Bids book) as [| best rest] eqn:Hbids; [apply Hrej |].
    destruct (GreaterThan _ _); [apply Hrest |]. now apply Hwalk.
- destruct (OrderRequest.Side order).
  + destruct (OrderBookSnapshot.Asks book) as [| best rest] eqn:Hasks; [apply Hrej |].
    now apply Hwalk.
  + destruct (OrderBookSnapshot.Bids book) as [| best rest] eqn:Hbids; [apply Hrej |].
    now apply Hwalk.
Qed.

Lemma fee_of_a_fill_witness :
exists fill,
  snd (SimulateFill quiet (market_buy (NewFromInt 1)) (Some thin_book)) = Ok fill /\
  (Qabs (toQ (Fee fill)
         - toQ (FillPrice fill) * toQ (FillSize fill)
           * toQ (feeRate quiet (market_buy (NewFromInt 1))) / 10000)
   <= (1 # 2) * ten ^ (- DivisionPrecision))%Q.
Proof.
eexists. split; [vm_compute; reflexivity |].
exact (fee_of_a_fill quiet (market_buy (NewFromInt 1)) (Some thin_book) _ eq_refl).
Defined.

End simulated_facts.

(** ** Facts about package [costmodel] *)

Module costmodel_facts.
Import decimal domain costmodel decimal_facts domain_facts.

(** *** The cost model does not panic *)

Lemma interpolate_total (orderSize : Decimal) (last prev : SlippagePoint)
  (rest : list SlippagePoint) :
(toQ (Size prev) < toQ orderSize)%Q ->
exists bps, interpolate orderSize last prev rest = Ok bps.
Proof.
revert prev. induction rest as [| curr rest IH]; intros prev Hprev.
- eexists. reflexivity.
- cbn [interpolate].
  destruct (LessThanOrEqual orderSize (Size curr)) eqn:Hle.
  + apply LessThanOrEqual_spec in Hle.
    assert (Hnz : IsZero (Sub (Size curr) (Size prev)) = false).
    { destruct (IsZero _) eqn:E; [| reflexivity].
      apply IsZero_spec in E. rewrite toQ_Sub in E. lra. }
    destruct (Div_total (Sub orderSize (Size prev)) _ Hnz) as [q Hq].
    rewrite Hq. eexists. reflexivity.
  + apply IH.
    destruct (Qlt_le_dec (toQ (Size curr)) (toQ orderSize)) as [H | H];
      [exact H |].
    apply LessThanOrEqual_spec in H. congruence.
Qed.

Lemma EstimateSlippage_total (points : list SlippagePoint) (orderSize : Decimal) :
exists bps, EstimateSlippage points orderSize = Ok bps.
Proof.
unfold EstimateSlippage. destruct points as [| first rest]; [eexists; reflexivity |].
destruct (LessThanOrEqual orderSize (Size first)) eqn:Hle; [eexists; reflexivity |].
destruct (GreaterThanOrEqual _ _); [eexists; reflexivity |].
apply interpolate_total.
destruct (Qlt_le_dec (toQ (Size first)) (toQ orderSize)) as [H | H]; [exact H |].
apply LessThanOrEqual_spec in H. congruence.
Qed.

Lemma getFundingBps_total (s : Service) (venue symbol : string) :
exists r, getFundingBps s venue symbol = Ok r.
Proof.
unfold getFundingBps.
destruct (fundingRates s !! (venue +:+ ":" +:+ symbol)) as [[| r rates] |];
  try (eexists; reflexivity).
destruct (weigh _ _ _ _) as [sum totalWeight].
destruct (IsZero totalWeight) eqn:Hz; [eexists; reflexivity |].
destruct (Div_total sum totalWeight Hz) as [q Hq]. rewrite Hq.
eexists. reflexivity.
Qed.

Lemma EstimateCost_total (s : Service) (venue symbol : string)
  (side : domain.Side) (size : Decimal) (orderType : OrderType) :
exists costEst, EstimateCost s venue symbol side size orderType = Ok (Some costEst).
Proof.
unfold EstimateCost, getSlippageBps.
destruct (EstimateSlippage_total
            (default defaultSlippageCurve
                     (slippageCurves s !! (venue +:+ ":" +:+ symbol))) size)
  as [bps Hb].
rewrite Hb. cbn [bind].
destruct (getFundingBps_total s venue symbol) as [f Hf]. rewrite Hf. cbn [bind].
eexists. reflexivity.
Qed.

(** The monotonicity scenario of the test suite on the default curve. *)
Example default_curve_points :
map (fun size =>
       match EstimateSlippage defaultSlippageCurve size with
       | Ok bps => Some (Qred (toQ bps))
       | Panic _ => None
       end)
    [New 1 (-2); New 1 (-1); NewFromInt 1; NewFromInt 10; NewFromInt 100;
     NewFromInt 1000]
= map Some [1; 2; 5; 10; 20; 50]%Q.
Proof. vm_compute. reflexivity. Qed.

(** *** The slippage curve *)

Lemma Div_DivRound (a b q : Decimal) :
Div a b = Some q -> value b <> 0 /\ q = DivRound a b DivisionPrecision.
Proof.
unfold Div. destruct (Z.eqb_spec (value b) 0); [discriminate |].
intros H. injection H as <-. now split.
Qed.

(** A quotient between zero and one rounds to a number between zero and
    one. *)
Lemma Div_unit_interval (a b q : Decimal) :
Div a b = Some q ->
(0 <= toQ a / toQ b <= 1)%Q -> (0 <= toQ q <= 1)%Q.
Proof.
intros Hdiv Hx. destruct (Div_DivRound a b q Hdiv) as [Hb ->].
destruct (DivRound_spec a b DivisionPrecision Hb) as [Hexp Herr].
set (q := DivRound a b DivisionPrecision) in *.
set (x := (toQ a / toQ b)%Q) in *. clearbody x.
unfold toQ in Herr |- *. rewrite Hexp in *.
set (k := value q) in *. clearbody k.
assert (Hpow : (ten ^ (- DivisionPrecision) == 1 # 10000000000000000)%Q) by reflexivity.
rewrite Hpow in *. apply Qabs_Qle_condition in Herr as [Hlo Hhi].
assert (Hk0 : (inject_Z (-1) < inject_Z k)%Q).
{ change (inject_Z (-1)) with (-1)%Q. lra. }
assert (Hk1 : (inject_Z k < inject_Z (10000000000000000 + 1))%Q).
{ change (inject_Z (10000000000000000 + 1)) with (10000000000000001 # 1)%Q. lra. }
rewrite <- Zlt_Qlt in Hk0, Hk1.
assert (H0 : (inject_Z 0 <= inject_Z k)%Q) by (rewrite <- Zle_Qle; lia).
assert (H1 : (inject_Z k <= inject_Z 10000000000000000)%Q) by (rewrite <- Zle_Qle; lia).
change (inject_Z 0) with 0%Q in H0.
change (inject_Z 10000000000000000) with (10000000000000000 # 1)%Q in H1.
split; lra.
Qed.

(** A quotient of two equal numbers is one, exactly. *)
Lemma Div_same (a b q : Decimal) :
Div a b = Some q -> (toQ a == toQ b)%Q -> (toQ q == 1)%Q.
Proof.
intros Hdiv Heq. pose proof (Div_spec a b q Hdiv) as Herr.
destruct (Div_DivRound a b q Hdiv) as [Hb Hq].
destruct (DivRound_spec a b DivisionPrecision Hb) as [Hexp _]. rewrite <- Hq in Hexp.
assert (HbQ : ~ (toQ b == 0)%Q).
{ intros H. apply (proj1 (proj2 (toQ_sign b))) in H. contradiction. }
assert (Hone : (toQ a / toQ b == 1)%Q) by (rewrite Heq; field; exact HbQ).
rewrite Hone in Herr.
apply (rounded_exact q DivisionPrecision 10000000000000000 1 Hexp Herr).
reflexivity.
Qed.

Lemma interpolate_range (orderSize : Decimal) (last : SlippagePoint)
  (rest : list SlippagePoint) :
forall (prev : SlippagePoint) (r : Decimal),
(toQ (Size prev) < toQ orderSize)%Q ->
interpolate orderSize last prev rest = Ok r ->
exists p q,
  In p (last :: prev :: rest) /\ In q (last :: prev :: rest) /\
  (toQ (SlippageBps p) <= toQ r <= toQ (SlippageBps q))%Q.
Proof.
induction rest as [| curr rest IH]; intros prev r Hprev Hrun; cbn [interpolate] in Hrun.
- injection Hrun as <-. exists last, last. cbn. split; [tauto |]. split; [tauto | lra].
- destruct (LessThanOrEqual orderSize (Size curr)) eqn:Hle.
  + apply LessThanOrEqual_spec in Hle.
    destruct (Div (Sub orderSize (Size prev)) (Sub (Size curr) (Size prev)))
      as [ratio |] eqn:Hdiv; [| discriminate].
    cbn [of_option bind] in Hrun. injection Hrun as Hr.
    assert (HrQ : (toQ r == toQ (SlippageBps prev)
                            + toQ ratio * (toQ (SlippageBps curr) - toQ (SlippageBps prev)))%Q)
      by (rewrite <- Hr, toQ_Add, toQ_Mul, toQ_Sub; reflexivity).
    assert (Hunit : (0 <= toQ ratio <= 1)%Q).
    { apply (Div_unit_interval _ _ _ Hdiv). rewrite !toQ_Sub.
      assert (Hpos : (0 < toQ (Size curr) - toQ (Size prev))%Q) by lra.
      split.
      - apply Qle_shift_div_l; [exact Hpos | lra].
      - apply Qle_shift_div_r; [exact Hpos | lra]. }
    destruct (Qlt_le_dec (toQ (SlippageBps curr)) (toQ (SlippageBps prev))) as [Hdown | Hup].
    * exists curr, prev. cbn. split; [tauto |]. split; [tauto |]. nra.
    * exists prev, curr. cbn. split; [tauto |]. split; [tauto |]. nra.
  + assert (Hcurr : (toQ (Size curr) < toQ orderSize)%Q).
    { destruct (Qlt_le_dec (toQ (Size curr)) (toQ orderSize)) as [H | H]; [exact H |].
      apply LessThanOrEqual_spec in H. congruence. }
    destruct (IH curr r Hcurr Hrun) as (p & q & Hp & Hq & Hpq).
    exists p, q. cbn in Hp, Hq |- *. split; [tauto |]. split; [tauto | exact Hpq].
Qed.

Lemma last_In {A : Type} (l : list A) (d : A) : l <> [] -> In (List.last l d) l.
Proof.
induction l as [| x [| y l] IH]; intros H; [contradiction | now left |].
right. apply IH. discriminate.
Qed.

(** X23. Whatever the curve and the size, the estimate is a value of the
    curve or lies between two of them: the curve is never extrapolated,
    and the division it takes never fails. *)
Theorem EstimateSlippage_within_curve (points : list SlippagePoint)
  (orderSize : Decimal) :
points <> [] ->
exists r p q,
  EstimateSlippage points orderSize = Ok r /\
  In p points /\ In q points /\
  (toQ (SlippageBps p) <= toQ r <= toQ (SlippageBps q))%Q.
Proof.
intros Hne. destruct (EstimateSlippage_total points orderSize) as [r Hr].
exists r. revert Hr. unfold EstimateSlippage.
destruct points as [| first rest]; [contradiction |].
destruct (LessThanOrEqual orderSize (Size first)) eqn:Hle.
- intros H. injection H as <-. exists first, first.
  split; [reflexivity |]. cbn. split; [tauto |]. split; [tauto | lra].
- pose proof (last_In (first :: rest) first Hne) as Hlast.
  destruct (GreaterThanOrEqual orderSize (Size (List.last (first :: rest) first))).
  + intros H. injection H as <-. exists (List.last (first :: rest) first), (List.last (first :: rest) first).
    split; [reflexivity |]. split; [exact Hlast |]. split; [exact Hlast |].
    split; apply Qle_refl.
  + intros Hrun.
    assert (Hfirst : (toQ (Size first) < toQ orderSize)%Q).
    { destruct (Qlt_le_dec (toQ (Size first)) (toQ orderSize)) as [H | H]; [exact H |].
      apply LessThanOrEqual_spec in H. congruence. }
    destruct (interpolate_range orderSize _ rest first r Hfirst Hrun)
      as (p & q & Hp & Hq & Hpq).
    exists p, q. split; [exact Hrun |].
    split; [| split; [| exact Hpq]].
    * destruct Hp as [<- | Hp]; [exact Hlast | exact Hp].
    * destruct Hq as [<- | Hq]; [exact Hlast | exact Hq].
Qed.

Lemma EstimateSlippage_within_curve_witness :
defaultSlippageCurve <> [] /\
exists r p q,
  EstimateSlippage defaultSlippageCurve (New 5 (-1)) = Ok r /\
  In p defaultSlippageCurve /\ In q defaultSlippageCurve /\
  (toQ (SlippageBps p) <= toQ r <= toQ (SlippageBps q))%Q.
Proof.
assert (H : defaultSlippageCurve <> []) by discriminate.
split; [exact H |]. exact (EstimateSlippage_within_curve _ (New 5 (-1)) H).
Defined.

Lemma interpolate_at_point (orderSize : Decimal) (last p : SlippagePoint)
  (rest : list SlippagePoint) :
(toQ orderSize == toQ (Size p))%Q ->
forall prev : SlippagePoint,
increasing (prev :: rest) -> In p rest ->
exists r, interpolate orderSize last prev rest = Ok r /\
          (toQ r == toQ (SlippageBps p))%Q.
Proof.
intros Hsize. induction rest as [| curr rest IH]; intros prev Hinc Hin; [destruct Hin |].
apply StronglySorted_inv in Hinc as [Hinc Hprev].
pose proof Hinc as Hinc'. apply StronglySorted_inv in Hinc' as [_ Hcurr].
apply Forall_cons_1 in Hprev as [Hpc _]. cbn [interpolate].
destruct Hin as [-> | Hin].
- assert (LessThanOrEqual orderSize (Size p) = true) as ->
    by (apply LessThanOrEqual_spec; lra).
  assert (Hnz : IsZero (Sub (Size p) (Size prev)) = false).
  { destruct (IsZero _) eqn:E; [| reflexivity].
    apply IsZero_spec in E. rewrite toQ_Sub in E. lra. }
  destruct (Div_total (Sub orderSize (Size prev)) _ Hnz) as [ratio Hdiv].
  rewrite Hdiv. cbn [of_option bind]. eexists. split; [reflexivity |].
  assert (Hone : (toQ ratio == 1)%Q).
  { apply (Div_same _ _ _ Hdiv). rewrite !toQ_Sub. lra. }
  rewrite toQ_Add, toQ_Mul, toQ_Sub, Hone. ring.
- assert (Hgt : (toQ (Size curr) < toQ (Size p))%Q).
  { rewrite List.Forall_forall in Hcurr. now apply Hcurr. }
  assert (LessThanOrEqual orderSize (Size curr) = false) as ->.
  { destruct (LessThanOrEqual _ _) eqn:E; [| reflexivity].
    apply LessThanOrEqual_spec in E. lra. }
  now apply IH.
Qed.

(** X24. On a curve whose sizes increase, the estimate at the size of a point
    of the curve is the slippage of that point: the interpolation passes
    through every point. *)
Theorem EstimateSlippage_through_points (points : list SlippagePoint)
  (p : SlippagePoint) (orderSize : Decimal) :
increasing points -> In p points ->
(toQ orderSize == toQ (Size p))%Q ->
exists r, EstimateSlippage points orderSize = Ok r /\
          (toQ r == toQ (SlippageBps p))%Q.
Proof.
intros Hinc Hin Hsize. unfold EstimateSlippage.
destruct points as [| first rest]; [destruct Hin |].
pose proof Hinc as Hinc'. apply StronglySorted_inv in Hinc' as [_ Hfirst].
destruct Hin as [-> | Hin].
- assert (LessThanOrEqual orderSize (Size p) = true) as ->
    by (apply LessThanOrEqual_spec; lra).
  eexists. split; [reflexivity | reflexivity].
- assert (Hgt : (toQ (Size first) < toQ (Size p))%Q).
  { rewrite List.Forall_forall in Hfirst. now apply Hfirst. }
  assert (LessThanOrEqual orderSize (Size first) = false) as ->.
  { destruct (LessThanOrEqual _ _) eqn:E; [| reflexivity].
    apply LessThanOrEqual_spec in E. lra. }
  set (last := List.last (first :: rest) first).
  destruct (GreaterThanOrEqual orderSize (Size last)) eqn:Hge.
  + apply GreaterThanOrEqual_spec in Hge.
    eexists. split; [reflexivity |].
    (* a point at least as large as the last one is the last one *)
    assert (Hlast : forall (l : list SlippagePoint) (d : SlippagePoint),
              increasing l -> In p l ->
              (toQ (Size (List.last l d)) <= toQ (Size p))%Q -> List.last l d = p).
    { induction l as [| x [| y l] IHl]; intros d Hl Hp Hle; [destruct Hp | |].
      - destruct Hp as [-> | []]. reflexivity.
      - apply StronglySorted_inv in Hl as [Hl Hx].
        destruct Hp as [-> | Hp].
        + exfalso. rewrite List.Forall_forall in Hx.
          specialize (Hx (List.last (y :: l) d) (last_In (y :: l) d ltac:(discriminate))).
          change (List.last (p :: y :: l) d) with (List.last (y :: l) d) in Hle. lra.
        + change (List.last (x :: y :: l) d) with (List.last (y :: l) d) in Hle |- *.
          now apply IHl. }
    unfold last in *.
    rewrite (Hlast (first :: rest) first Hinc (or_intror Hin)); [reflexivity |].
    lra.
  + now apply interpolate_at_point.
Qed.

Lemma default_curve_increasing : increasing defaultSlippageCurve.
Proof.
unfold increasing, defaultSlippageCurve.
repeat (constructor; [| repeat (constructor; [reflexivity |]); constructor]).
constructor.
Qed.

Lemma EstimateSlippage_through_points_witness :
increasing defaultSlippageCurve /\
exists r, EstimateSlippage defaultSlippageCurve (NewFromInt 10) = Ok r /\
          (toQ r == toQ (NewFromInt 10))%Q.
Proof.
split; [exact default_curve_increasing |].
exact (EstimateSlippage_through_points defaultSlippageCurve
         (mkPoint (NewFromInt 10) (NewFromInt 10)) (NewFromInt 10)
         default_curve_increasing ltac:(cbn; tauto) ltac:(reflexivity)).
Defined.

(** *** The funding history *)

(** X25. [AddFundingRate] appends the rate to the history of its feed and
    keeps the newest [2 * fundingLookback] entries; the other feeds are
    not touched. With a negative look-back the slice expression is out of
    bounds and the call panics. *)
Theorem AddFundingRate_keeps_the_newest (venue symbol : string)
  (rate : FundingRate.t) (s : Service) :
let key := venue +:+ ":" +:+ symbol in
let appended := default [] (fundingRates s !! key) ++ [rate] in
Z.of_nat (length appended) <= Int64.max_int ->
(0 <= fundingLookback s <= 2 ^ 62 - 1 ->
 exists s',
   AddFundingRate venue symbol rate s = Some s' /\
   fundingRates s' !! key
   = Some (drop (length appended - Z.to_nat (2 * fundingLookback s)) appended) /\
   (forall other, other <> key -> fundingRates s' !! other = fundingRates s !! other) /\
   fundingLookback s' = fundingLookback s /\
   feeTiers s' = feeTiers s /\ slippageCurves s' = slippageCurves s) /\
(- 2 ^ 62 <= fundingLookback s < 0 -> AddFundingRate venue symbol rate s = None).
Proof.
cbv zeta. unfold AddFundingRate.
set (key := venue +:+ ":" +:+ symbol).
set (appended := default [] (fundingRates s !! key) ++ [rate]).
assert (Hlen : (1 <= length appended)%nat).
{ unfold appended. rewrite length_app. cbn [length]. lia. }
unfold Int64.max_int. intros Hmem.
assert (Hwrap : forall z, - 2 ^ 63 <= z <= 2 ^ 63 - 1 -> Int64.wrap z = z).
{ intros z Hz. apply Int64_facts.wrap_small.
  unfold Int64.in_range, Int64.min_int, Int64.max_int. lia. }
split.
- intros Hpos. unfold Int64.mul, Int64.sub.
  rewrite (Hwrap (fundingLookback s * 2)) by lia.
  destruct (Z.ltb_spec (fundingLookback s * 2) (Z.of_nat (length appended)))
    as [Hover | Hfits].
  + rewrite Hwrap by lia.
    destruct (Z.ltb_spec (Z.of_nat (length appended) - fundingLookback s * 2) 0); [lia |].
    destruct (Z.ltb_spec (Z.of_nat (length appended))
                (Z.of_nat (length appended) - fundingLookback s * 2)); [lia |].
    cbn [orb]. eexists. split; [reflexivity |]. cbn [fundingRates fundingLookback
      feeTiers slippageCurves]. rewrite lookup_insert_eq.
    split; [do 2 f_equal; lia |].
    split; [intros other Hne; now rewrite lookup_insert_ne |].
    repeat split.
  + eexists. split; [reflexivity |]. cbn [fundingRates fundingLookback
      feeTiers slippageCurves]. rewrite lookup_insert_eq.
    split.
    * replace (length appended - Z.to_nat (2 * fundingLookback s))%nat with 0%nat by lia.
      reflexivity.
    * split; [intros other Hne; now rewrite lookup_insert_ne |]. repeat split.
- intros Hneg. unfold Int64.mul, Int64.sub.
  rewrite (Hwrap (fundingLookback s * 2)) by lia.
  destruct (Z.ltb_spec (fundingLookback s * 2) (Z.of_nat (length appended))); [| lia].
  set (z := Z.of_nat (length appended) - fundingLookback s * 2).
  assert (Hlow : Int64.wrap z < 0 \/ Z.of_nat (length appended) < Int64.wrap z).
  { destruct (Z_le_gt_dec z (2 ^ 63 - 1)) as [Hin | Hout].
    - right. rewrite Hwrap by (unfold z; lia). unfold z. lia.
    - left. unfold Int64.wrap.
      replace ((z + 2 ^ 63) mod 2 ^ 64) with (z + 2 ^ 63 - 2 ^ 64).
      + unfold z in *. lia.
      + apply (Z.mod_unique _ _ 1); unfold z in *; lia. }
  destruct (Z.ltb_spec (Int64.wrap z) 0); [reflexivity |].
  destruct (Z.ltb_spec (Z.of_nat (length appended)) (Int64.wrap z)); [reflexivity | lia].
Qed.

Lemma AddFundingRate_keeps_the_newest_witness :
Z.of_nat (length (default [] (fundingRates (mkService ∅ ∅ ∅ 1)
                                !! ("nobitex" +:+ ":" +:+ "BTCUSDT"))
                  ++ [FundingRate.mk "nobitex" "BTCUSDT" (New 1 (-4)) 0 8]))
  <= Int64.max_int /\
exists s',
  AddFundingRate "nobitex" "BTCUSDT"
    (FundingRate.mk "nobitex" "BTCUSDT" (New 1 (-4)) 0 8) (mkService ∅ ∅ ∅ 1)
  = Some s'.
Proof.
assert (H : Z.of_nat (length (default [] (fundingRates (mkService ∅ ∅ ∅ 1)
                                !! ("nobitex" +:+ ":" +:+ "BTCUSDT"))
                  ++ [FundingRate.mk "nobitex" "BTCUSDT" (New 1 (-4)) 0 8]))
            <= Int64.max_int) by (vm_compute; discriminate).
split; [exact H |].
destruct (AddFundingRate_keeps_the_newest "nobitex" "BTCUSDT"
            (FundingRate.mk "nobitex" "BTCUSDT" (New 1 (-4)) 0 8) (mkService ∅ ∅ ∅ 1) H)
  as [Hpos _].
destruct (Hpos ltac:(cbn; lia)) as (s' & Hrun & _). exists s'. exact Hrun.
Defined.

End costmodel_facts.

(** ** Facts about package [strategy] *)

Module strategy_facts.
Import decimal domain strategy decimal_facts domain_facts.

Lemma allBooksAvailable_spec (m : TriArbModule) (path : TriangularPath) :
allBooksAvailable m path = true <-> booksAvailable m (Legs path).
Proof.
unfold allBooksAvailable, booksAvailable.
rewrite forallb_forall, List.Forall_forall.
split; intros H leg Hin; specialize (H leg Hin).
- now apply bool_decide_eq_true in H.
- now apply bool_decide_eq_true.
Qed.

Lemma FixedPrice_Div_value (f other : FixedPrice.t) :
FixedPrice.Div f other = Ok (div_fixed f other).
Proof.
unfold FixedPrice.Div, div_fixed, int64_div.
now destruct (other =? 0).
Qed.

Lemma FixedPrice_Mul_value (f other : FixedPrice.t) :
FixedPrice.Mul f other = Ok (mul_fixed f other).
Proof. reflexivity. Qed.

Lemma compound_zero (qs : list (domain.Side * Decimal)) :
fold_left compound qs 0 = 0.
Proof.
induction qs as [| [side price] qs IH]; [reflexivity |].
simpl. replace (compound 0 (side, price)) with 0; [exact IH |].
unfold compound, div_fixed, mul_fixed. simpl.
destruct side; [destruct (ToFixed price =? 0) |]; reflexivity.
Qed.

(** The loop returns the compound rate, or leaves early when a quote is
    missing or when a buy price is zero in fixed point, where the
    compound rate is zero as well. *)
Lemma impliedLoop_spec (m : TriArbModule) (legs : list TriangularLeg) :
booksAvailable m legs ->
forall rate,
exists r, impliedLoop m legs rate = Ok r /\
  match quotesOf m legs with
  | Some qs => r = Some (fold_left compound qs rate)
               \/ (r = None /\ fold_left compound qs rate = 0)
  | None => r = None
  end.
Proof.
induction 1 as [| leg rest [book Hbook] Hrest IH]; intros rate.
- exists (Some rate). split; [reflexivity |]. now left.
- cbn [impliedLoop quotesOf]. unfold bookOf, bestLevel. rewrite Hbook.
  cbn [of_option bind].
  destruct (Side leg) eqn:Hside.
  + destruct (OrderBookSnapshot.BestAsk book) as [ask |] eqn:Hask.
    * destruct (Z.eqb_spec (ToFixed (PriceLevel.Price ask)) 0) as [Hz | Hnz].
      -- exists None. split; [reflexivity |].
         destruct (quotesOf m rest) as [qs |]; [| reflexivity].
         right. split; [reflexivity |]. simpl.
         unfold compound at 2. simpl. unfold div_fixed. rewrite Hz. simpl.
         apply compound_zero.
      -- rewrite FixedPrice_Div_value. cbn [bind].
         destruct (IH (div_fixed rate (ToFixed (PriceLevel.Price ask))))
           as (r & Hr & Hspec).
         exists r. split; [exact Hr |].
         destruct (quotesOf m rest) as [qs |]; [| exact Hspec].
         exact Hspec.
    * exists None. split; reflexivity.
  + destruct (OrderBookSnapshot.BestBid book) as [bid |] eqn:Hbid.
    * rewrite FixedPrice_Mul_value. cbn [bind].
      destruct (IH (mul_fixed rate (ToFixed (PriceLevel.Price bid))))
        as (r & Hr & Hspec).
      exists r. split; [exact Hr |].
      destruct (quotesOf m rest) as [qs |]; [| exact Hspec].
      exact Hspec.
    * exists None. split; reflexivity.
Qed.

Lemma computeEdge_spec (m : TriArbModule) (path : TriangularPath) :
booksAvailable m (Legs path) ->
computeEdge m path =
Ok match quotesOf m (Legs path) with
   | Some qs => edge_of (implied qs)
   | None => 0
   end.
Proof.
intros Hav. unfold computeEdge.
destruct (impliedLoop_spec m (Legs path) Hav (ToFixed (NewFromInt 1)))
  as (r & Hr & Hspec).
rewrite Hr. cbn [bind].
destruct (quotesOf m (Legs path)) as [qs |].
- destruct Hspec as [-> | [-> Hz]].
  + unfold edge_of, implied, one. now destruct (FixedPrice.GT _ _).
  + unfold edge_of, implied, one. fold one. unfold one in Hz |- *.
    rewrite Hz. reflexivity.
- now subst r.
Qed.

(** *** Building the signal *)

Lemma quoteLegs_total (m : TriArbModule) (legs : list TriangularLeg) :
booksAvailable m legs ->
forall minSize, exists r, quoteLegs m legs minSize = Ok r.
Proof.
induction 1 as [| leg rest [book Hbook] Hrest IH]; intros minSize.
- eexists. reflexivity.
- cbn [quoteLegs]. unfold bookOf. rewrite Hbook. cbn [of_option bind].
  destruct (match Side leg with
            | SideBuy => OrderBookSnapshot.BestAsk book
            | SideSell => OrderBookSnapshot.BestBid book
            end) as [level |]; [| eexists; reflexivity].
  match goal with
  | |- context [quoteLegs m rest ?ms] => destruct (IH ms) as (r & Hr)
  end.
  rewrite Hr. cbn [bind].
  destruct r as [[specs ms] |]; eexists; reflexivity.
Qed.

Lemma quoteLegs_head (m : TriArbModule) (leg : TriangularLeg)
  (rest : list TriangularLeg) (minSize ms : Decimal) (specs : list LegSpec.t) :
quoteLegs m (leg :: rest) minSize = Ok (Some (specs, ms)) ->
exists spec specs', specs = spec :: specs' /\
  LegSpec.Symbol spec = Symbol leg /\ LegSpec.Side spec = Side leg.
Proof.
cbn [quoteLegs]. destruct (bookOf m leg) as [book | p]; [| discriminate].
cbn [bind].
destruct (match Side leg with
          | SideBuy => OrderBookSnapshot.BestAsk book
          | SideSell => OrderBookSnapshot.BestBid book
          end) as [level |]; [| discriminate].
match goal with
| |- context [quoteLegs m rest ?x] => destruct (quoteLegs m rest x) as [r | p]
end; [| discriminate].
cbn [bind]. destruct r as [[specs' ms'] |]; [| discriminate].
intros [= <- _]. eexists _, _. split; [reflexivity |]. split; reflexivity.
Qed.

Lemma Div_positive (d d2 : Decimal) :
IsPositive d2 = true -> exists q, Div d d2 = Some q.
Proof.
unfold IsPositive, Div. intros H. apply Z.ltb_lt in H.
destruct (Z.eqb_spec (value d2) 0); [lia | eauto].
Qed.

Lemma sizeLegs_total (legs : list LegSpec.t) (minSize : Decimal) :
exists r, sizeLegs legs minSize = Ok r.
Proof.
induction legs as [| leg rest [r IH]]; [eexists; reflexivity |].
cbn [sizeLegs]. destruct (IsPositive (LegSpec.Price leg)) eqn:Hpos.
- destruct (Div_positive minSize _ Hpos) as [q Hq]. rewrite Hq.
  cbn [of_option bind]. rewrite IH. eexists. reflexivity.
- cbn [bind]. rewrite IH. eexists. reflexivity.
Qed.

Lemma sizeLegs_head (spec : LegSpec.t) (rest legs : list LegSpec.t)
  (minSize : Decimal) :
sizeLegs (spec :: rest) minSize = Ok legs ->
exists first rest', legs = first :: rest' /\
  LegSpec.Symbol first = LegSpec.Symbol spec /\
  LegSpec.Side first = LegSpec.Side spec.
Proof.
cbn [sizeLegs]. destruct (IsPositive (LegSpec.Price spec)).
- destruct (Div minSize (LegSpec.Price spec)) as [q |]; [| discriminate].
  cbn [of_option bind]. destruct (sizeLegs rest minSize) as [r | p]; [| discriminate].
  cbn [bind]. intros [= <-]. eexists _, _. repeat split.
- cbn [bind]. destruct (sizeLegs rest minSize) as [r | p]; [| discriminate].
  cbn [bind]. intros [= <-]. eexists _, _. repeat split.
Qed.

Lemma toQ_edgeDecimal (edgeBps : FixedPrice.t) :
(toQ (edgeDecimal edgeBps) == inject_Z edgeBps * (1 # 100000))%Q.
Proof.
unfold edgeDecimal. rewrite toQ_Mul, toQ_NewFromInt.
unfold FixedPrice.ToDecimal, toQ. cbn [value exp].
assert (ten ^ (-9) == 1 # 1000000000)%Q as -> by reflexivity.
rewrite <- Qmult_assoc. apply Qmult_comp; [reflexivity |]. reflexivity.
Qed.

Section Emission.

Variable EstimateCost :
  string -> string -> domain.Side -> Decimal -> OrderType
  -> outcome (option CostEstimate.t).

Lemma buildSignal_total (m : TriArbModule) (path : TriangularPath)
  (edgeBps : FixedPrice.t) (mdTimestamp id now : Z) :
returns EstimateCost ->
booksAvailable m (Legs path) ->
exists r, buildSignal EstimateCost m path edgeBps mdTimestamp id now = Ok r.
Proof.
intros Hcost Hav. unfold buildSignal.
destruct (quoteLegs_total m (Legs path) Hav (NewFromInt 999999999)) as (q & Hq).
rewrite Hq. cbn [bind].
destruct q as [[legs minSize] |]; [| eexists; reflexivity].
destruct (sizeLegs_total legs minSize) as (sized & Hs). rewrite Hs. cbn [bind].
destruct sized as [| first rest]; [eexists; reflexivity |].
destruct (Hcost (venue m) (LegSpec.Symbol first) (LegSpec.Side first)
                (LegSpec.Size first) OrderTypeLimit) as [estimate He].
rewrite He. cbn [bind].
destruct estimate as [costEst |]; [| eexists; reflexivity].
destruct (LessThanOrEqual _ _); eexists; reflexivity.
Qed.

(** What an emitted signal carries. *)
Lemma buildSignal_Some (m : TriArbModule) (path : TriangularPath)
  (edgeBps : FixedPrice.t) (mdTimestamp id now : Z) (signal : TradeSignal.t) :
buildSignal EstimateCost m path edgeBps mdTimestamp id now = Ok (Some signal) ->
exists first rest costEst,
  TradeSignal.Legs signal = first :: rest /\
  LegSpec.Symbol first = Symbol (Leg0 path) /\
  LegSpec.Side first = Side (Leg0 path) /\
  EstimateCost (venue m) (LegSpec.Symbol first) (LegSpec.Side first)
               (LegSpec.Size first) OrderTypeLimit = Ok (Some costEst) /\
  TradeSignal.CostEstimate signal = costEst /\
  (toQ (TradeSignal.ExpectedEdgeBps signal)
   == inject_Z edgeBps * (1 # 100000) - toQ (CostEstimate.TotalBps costEst))%Q /\
  (0 < toQ (TradeSignal.ExpectedEdgeBps signal))%Q.
Proof.
unfold buildSignal.
destruct (quoteLegs m (Legs path) (NewFromInt 999999999)) as [q | p] eqn:Hq;
  [| discriminate].
cbn [bind]. destruct q as [[legs minSize] |]; [| discriminate].
unfold Legs in Hq.
destruct (quoteLegs_head _ _ _ _ _ _ Hq) as (spec & specs' & -> & Hsym & Hside).
destruct (sizeLegs (spec :: specs') minSize) as [sized | p] eqn:Hs; [| discriminate].
cbn [bind].
destruct (sizeLegs_head _ _ _ _ Hs) as (first & rest & -> & Hsym' & Hside').
destruct (EstimateCost (venue m) (LegSpec.Symbol first) (LegSpec.Side first)
                       (LegSpec.Size first) OrderTypeLimit) as [estimate | p] eqn:Hc;
  [| discriminate].
cbn [bind]. destruct estimate as [costEst |]; [| discriminate].
destruct (LessThanOrEqual _ _) eqn:Hle; [discriminate |].
intros [= <-]. exists first, rest, costEst. cbn [TradeSignal.Legs
  TradeSignal.CostEstimate TradeSignal.ExpectedEdgeBps].
split; [reflexivity |]. split; [congruence |]. split; [congruence |].
split; [exact Hc |]. split; [reflexivity |]. split.
- now rewrite toQ_Sub, toQ_edgeDecimal.
- destruct (Qlt_le_dec 0 (toQ (Sub (edgeDecimal edgeBps)
                                   (CostEstimate.TotalBps costEst)))) as [H | H];
    [exact H |].
  assert (LessThanOrEqual (Sub (edgeDecimal edgeBps) (CostEstimate.TotalBps costEst))
                          Zero = true) as Habs.
  { apply LessThanOrEqual_spec. now rewrite toQ_Zero. }
  congruence.
Qed.

End Emission.

(** The happy path of the specification: asks 50000 and 0.06, bid 3050. *)
Example computeEdge_happy_path :
computeEdge (example_module (NewFromInt 3050)) example_path = Ok 16665650.
Proof. vm_compute. reflexivity. Qed.

Example evaluate_happy_path :
exists signal,
  evaluate free_of_cost (example_module (NewFromInt 3050)) "ETH/USDT" 0 (fun _ => 7) 0
  = Ok [signal] /\
  TradeSignal.Strategy signal = StrategyTriArb /\
  map LegSpec.Side (TradeSignal.Legs signal) = [SideBuy; SideBuy; SideSell] /\
  TradeSignal.ExpectedEdgeBps signal = New 166656500000 (-9).
Proof. eexists. split; [vm_compute; reflexivity |]. repeat split. Qed.

(** C4, refuted as stated: with asks 50000 and 0.06 and bid 2900 the
    implied rate is 0.9666657, implied minus 1 is negative, and the edge
    the code returns is 0. *)
Lemma edge_is_clamped_at_zero : ~ edge_is_implied_minus_one.
Proof.
intros H.
specialize (H (example_module (NewFromInt 2900)) example_path
              [(SideBuy, NewFromInt 50000); (SideBuy, New 6 (-2));
               (SideSell, NewFromInt 2900)]
              ltac:(vm_compute; reflexivity) ltac:(vm_compute; reflexivity)).
vm_compute in H. discriminate H.
Qed.

(** C4, as the code has it. For a path whose three books are available
    and quoted, the implied rate is the fixed-point number obtained from
    1 by dividing by the best ask on each buy leg and multiplying by the
    best bid on each sell leg; the edge is implied minus 1 when the
    implied rate exceeds 1 and 0 otherwise. A signal is published for
    the path only if that edge exceeds [FixedFromBps(min_edge_bps)], and
    then its expected edge, the edge in basis points minus the total
    cost of the estimate requested for its first leg, is strictly
    positive. *)
Theorem triangular_edge_and_emission
  (EstimateCost : string -> string -> domain.Side -> Decimal -> OrderType
                  -> outcome (option CostEstimate.t))
  (m : TriArbModule) (path : TriangularPath) :
allBooksAvailable m path = true ->
(forall qs, quotesOf m (Legs path) = Some qs ->
   computeEdge m path =
   Ok (if FixedPrice.GT (implied qs) one
       then FixedPrice.Sub (implied qs) one else 0)) /\
(forall updatedSymbol mdTimestamp id now signal,
   evaluatePath EstimateCost m updatedSymbol mdTimestamp id now path
   = Ok (Some signal) ->
   exists edgeBps threshold first rest costEst,
     computeEdge m path = Ok edgeBps /\
     FixedFromBps (minEdgeBps m) = Ok threshold /\
     threshold < edgeBps /\
     TradeSignal.Legs signal = first :: rest /\
     LegSpec.Symbol first = Symbol (Leg0 path) /\
     LegSpec.Side first = Side (Leg0 path) /\
     EstimateCost (venue m) (LegSpec.Symbol first) (LegSpec.Side first)
                  (LegSpec.Size first) OrderTypeLimit = Ok (Some costEst) /\
     (toQ (TradeSignal.ExpectedEdgeBps signal)
      == inject_Z edgeBps * (1 # 100000) - toQ (CostEstimate.TotalBps costEst))%Q /\
     (0 < toQ (TradeSignal.ExpectedEdgeBps signal))%Q).
Proof.
intros Hav. pose proof Hav as Hav'. apply allBooksAvailable_spec in Hav'.
split.
- intros qs Hqs. rewrite (computeEdge_spec m path Hav'), Hqs. reflexivity.
- intros updatedSymbol mdTimestamp id now signal. unfold evaluatePath.
  destruct (pathInvolves path updatedSymbol); [| discriminate]. cbn [negb].
  rewrite Hav. cbn [negb].
  rewrite (computeEdge_spec m path Hav'). cbn [bind].
  rewrite FixedFromBps_total. cbn [bind].
  set (edgeBps := match quotesOf m (Legs path) with
                  | Some qs => edge_of (implied qs)
                  | None => 0
                  end).
  set (threshold := Int64.quo (Int64.mul (minEdgeBps m) PricePrecision) 10000).
  destruct (FixedPrice.GT edgeBps threshold) eqn:Hgt; [| discriminate].
  intros Hbuild.
  destruct (buildSignal_Some EstimateCost m path edgeBps mdTimestamp id now signal
              Hbuild)
    as (first & rest & costEst & Hlegs & Hsym & Hside & Hcost & _ & Hnet & Hpos).
  exists edgeBps, threshold, first, rest, costEst.
  unfold FixedPrice.GT in Hgt. apply Z.ltb_lt in Hgt.
  repeat split; assumption.
Qed.

Lemma triangular_edge_and_emission_witness :
allBooksAvailable (example_module (NewFromInt 3050)) example_path = true /\
computeEdge (example_module (NewFromInt 3050)) example_path =
Ok (if FixedPrice.GT
         (implied [(SideBuy, NewFromInt 50000); (SideBuy, New 6 (-2));
                   (SideSell, NewFromInt 3050)]) one
    then FixedPrice.Sub
           (implied [(SideBuy, NewFromInt 50000); (SideBuy, New 6 (-2));
                     (SideSell, NewFromInt 3050)]) one
    else 0).
Proof.
assert (H : allBooksAvailable (example_module (NewFromInt 3050)) example_path = true)
  by (vm_compute; reflexivity).
split; [exact H |].
destruct (triangular_edge_and_emission free_of_cost
            (example_module (NewFromInt 3050)) example_path H) as [Hedge _].
apply Hedge. vm_compute. reflexivity.
Defined.

(** *** No division by zero *)

Lemma impliedLoop_zero_price (m : TriArbModule) (legs : list TriangularLeg)
  (leg : TriangularLeg) (book : OrderBookSnapshot.t) (ask : PriceLevel.t) :
booksAvailable m legs ->
In leg legs -> Side leg = SideBuy ->
books m !! Symbol leg = Some book ->
OrderBookSnapshot.BestAsk book = Some ask ->
ToFixed (PriceLevel.Price ask) = 0 ->
forall rate, impliedLoop m legs rate = Ok None.
Proof.
intros Hav Hin Hside Hbook Hask Hzero.
induction Hav as [| l rest [b Hb] Hrest IH]; [destruct Hin |].
intros rate. cbn [impliedLoop]. unfold bookOf. rewrite Hb. cbn [of_option bind].
destruct Hin as [-> | Hin].
- rewrite Hbook in Hb. injection Hb as <-.
  rewrite Hside, Hask, Hzero. reflexivity.
- specialize (IH Hin).
  destruct (Side l).
  + destruct (OrderBookSnapshot.BestAsk b) as [a |]; [| reflexivity].
    destruct (ToFixed (PriceLevel.Price a) =? 0); [reflexivity |].
    rewrite FixedPrice_Div_value. cbn [bind]. apply IH.
  + destruct (OrderBookSnapshot.BestBid b) as [a |]; [| reflexivity].
    rewrite FixedPrice_Mul_value. cbn [bind]. apply IH.
Qed.

Lemma evaluatePath_total
  (EstimateCost : string -> string -> domain.Side -> Decimal -> OrderType
                  -> outcome (option CostEstimate.t))
  (m : TriArbModule) (updatedSymbol : string) (mdTimestamp id now : Z)
  (path : TriangularPath) :
returns EstimateCost ->
exists r, evaluatePath EstimateCost m updatedSymbol mdTimestamp id now path = Ok r.
Proof.
intros Hcost. unfold evaluatePath.
destruct (pathInvolves path updatedSymbol); [| eexists; reflexivity]. cbn [negb].
destruct (allBooksAvailable m path) eqn:Hav; [| eexists; reflexivity]. cbn [negb].
apply allBooksAvailable_spec in Hav.
rewrite (computeEdge_spec m path Hav). cbn [bind].
rewrite FixedFromBps_total. cbn [bind].
destruct (FixedPrice.GT _ _); [| eexists; reflexivity].
now apply buildSignal_total.
Qed.

(** C10. [FixedPrice.Div] returns 0 on a zero divisor and never panics;
    in [computeEdge] a buy leg whose best ask is 0 in fixed point makes
    the edge 0; and [evaluate], run with the repository's cost model,
    always returns: no division by zero, of fixed-point numbers or of
    decimals, and no other panic is reached while a book update is
    evaluated. *)
Theorem division_never_panics :
(forall f, FixedPrice.Div f 0 = Ok 0) /\
(forall f other, exists r, FixedPrice.Div f other = Ok r) /\
(forall m path leg book ask,
   allBooksAvailable m path = true ->
   In leg (Legs path) -> Side leg = SideBuy ->
   books m !! Symbol leg = Some book ->
   OrderBookSnapshot.BestAsk book = Some ask ->
   ToFixed (PriceLevel.Price ask) = 0 ->
   computeEdge m path = Ok 0) /\
(forall m path, allBooksAvailable m path = true ->
   exists edge, computeEdge m path = Ok edge) /\
(forall (costModel : costmodel.Service) m updatedSymbol mdTimestamp ids now,
   exists signals,
     evaluate (costmodel.EstimateCost costModel) m updatedSymbol mdTimestamp ids now
     = Ok signals).
Proof.
split; [reflexivity |]. split; [apply FixedPrice_Div_total |]. split; [| split].
- intros m path leg book ask Hav Hin Hside Hbook Hask Hzero.
  apply allBooksAvailable_spec in Hav. unfold computeEdge.
  rewrite (impliedLoop_zero_price m (Legs path) leg book ask Hav Hin Hside
             Hbook Hask Hzero).
  reflexivity.
- intros m path Hav. apply allBooksAvailable_spec in Hav.
  rewrite (computeEdge_spec m path Hav). eexists. reflexivity.
- intros costModel m updatedSymbol mdTimestamp ids now. unfold evaluate.
  assert (Hcost : returns (costmodel.EstimateCost costModel)).
  { intros venue symbol side size orderType.
    destruct (costmodel_facts.EstimateCost_total costModel venue symbol side size
                orderType) as [c Hc]. eauto. }
  induction (paths m) as [| path rest [more IH]]; [eexists; reflexivity |].
  cbn [evaluatePaths].
  destruct (evaluatePath_total (costmodel.EstimateCost costModel) m updatedSymbol
              mdTimestamp (ids (length rest)) now path Hcost) as (r & Hr).
  rewrite Hr. cbn [bind]. rewrite IH. cbn [bind]. eexists. reflexivity.
Qed.

(** *** The legs of a signal *)

Lemma min_notional_wd (levels : list PriceLevel.t) (cap cap' : Q) :
(cap == cap')%Q -> (min_notional cap levels == min_notional cap' levels)%Q.
Proof.
revert cap cap'. induction levels as [| l rest IH]; intros cap cap' H; cbn [min_notional].
- exact H.
- apply IH. now rewrite H.
Qed.

(** The first loop of [buildSignal]: the best level of every leg, and
    the smallest notional. *)
Lemma quoteLegs_spec (m : TriArbModule) (legs : list TriangularLeg) :
forall (minSize ms : Decimal) (specs : list LegSpec.t),
quoteLegs m legs minSize = Ok (Some (specs, ms)) ->
exists levels,
  Forall2 (quoted m) legs levels /\
  Forall2 (fun quote spec =>
             LegSpec.Symbol spec = Symbol (fst quote) /\
             LegSpec.Side spec = Side (fst quote) /\
             LegSpec.InstrumentType spec = InstrumentSpot /\
             LegSpec.OrderType spec = OrderTypeLimit /\
             LegSpec.Price spec = PriceLevel.Price (snd quote) /\
             LegSpec.Size spec = PriceLevel.Size (snd quote))
          (combine legs levels) specs /\
  (toQ ms == min_notional (toQ minSize) levels)%Q.
Proof.
induction legs as [| leg rest IH]; intros minSize ms specs H; cbn [quoteLegs] in H.
- injection H as <- <-. exists []. repeat split; constructor.
- unfold bookOf in H.
  destruct (books m !! Symbol leg) as [book |] eqn:Hbook; [| discriminate].
  cbn [of_option bind] in H.
  destruct (match Side leg with
            | SideBuy => OrderBookSnapshot.BestAsk book
            | SideSell => OrderBookSnapshot.BestBid book
            end) as [level |] eqn:Hbest; [| discriminate].
  match type of H with
  | context [quoteLegs m rest ?x] =>
      destruct (quoteLegs m rest x) as [[[specs' ms'] |] | p] eqn:Hrest
  end; try discriminate.
  cbn [bind] in H. injection H as <- <-.
  destruct (IH _ _ _ Hrest) as (levels & Hq & Hs & Hmin).
  exists (level :: levels). split; [| split].
  + constructor; [| exact Hq]. unfold quoted, bestLevel. now rewrite Hbook.
  + cbn [combine]. constructor; [| exact Hs]. cbn [fst snd LegSpec.Symbol
      LegSpec.Side LegSpec.InstrumentType LegSpec.OrderType LegSpec.Price LegSpec.Size].
    repeat split.
  + cbn [min_notional]. rewrite Hmin. apply min_notional_wd.
    unfold top_notional.
    destruct (LessThan (Mul (PriceLevel.Price level) (PriceLevel.Size level)) minSize)
      eqn:Hlt.
    * apply LessThan_spec in Hlt. rewrite toQ_Mul in Hlt |- *.
      symmetry. apply Q.min_l. lra.
    * assert (Hge : (toQ minSize
                     <= toQ (Mul (PriceLevel.Price level) (PriceLevel.Size level)))%Q).
      { apply Qnot_lt_le. intros Hc. apply LessThan_spec in Hc. congruence. }
      rewrite toQ_Mul in Hge. symmetry. apply Q.min_r. exact Hge.
Qed.

(** The second loop: every leg with a positive price gets the size
    [minSize / price]. *)
Lemma sizeLegs_spec (minSize : Decimal) (specs : list LegSpec.t) :
forall sized_legs : list LegSpec.t,
sizeLegs specs minSize = Ok sized_legs ->
Forall2 (fun spec leg =>
           LegSpec.Symbol leg = LegSpec.Symbol spec /\
           LegSpec.Side leg = LegSpec.Side spec /\
           LegSpec.InstrumentType leg = LegSpec.InstrumentType spec /\
           LegSpec.OrderType leg = LegSpec.OrderType spec /\
           LegSpec.Price leg = LegSpec.Price spec /\
           ((0 < toQ (LegSpec.Price spec))%Q ->
            (Qabs (toQ (LegSpec.Size leg) - toQ minSize / toQ (LegSpec.Price spec))
             <= (1 # 2) * ten ^ (- DivisionPrecision))%Q) /\
           (~ (0 < toQ (LegSpec.Price spec))%Q -> LegSpec.Size leg = LegSpec.Size spec))
        specs sized_legs.
Proof.
induction specs as [| spec rest IH]; intros sized_legs H; cbn [sizeLegs] in H.
- injection H as <-. constructor.
- destruct (IsPositive (LegSpec.Price spec)) eqn:Hpos.
  + destruct (Div minSize (LegSpec.Price spec)) as [q |] eqn:Hdiv; [| discriminate].
    cbn [of_option bind] in H.
    destruct (sizeLegs rest minSize) as [rest' | p] eqn:Hrest; [| discriminate].
    cbn [bind] in H. injection H as <-. constructor; [| now apply IH].
    cbn [LegSpec.Symbol LegSpec.Side LegSpec.InstrumentType LegSpec.OrderType
         LegSpec.Price LegSpec.Size].
    repeat split; try reflexivity.
    * intros _. exact (Div_spec _ _ _ Hdiv).
    * intros Hn. exfalso. apply Hn. now apply IsPositive_spec.
  + cbn [bind] in H.
    destruct (sizeLegs rest minSize) as [rest' | p] eqn:Hrest; [| discriminate].
    cbn [bind] in H. injection H as <-. constructor; [| now apply IH].
    repeat split; try reflexivity.
    intros Hp. apply IsPositive_spec in Hp. congruence.
Qed.

(** X28. The legs of a published signal follow the path: one limit order per
    leg at the best price of its book, all sized to the same notional,
    the smallest notional on offer at the three best levels (at most
    999999999). *)
Theorem signal_legs_share_the_smallest_notional
  (EstimateCost : string -> string -> domain.Side -> Decimal -> OrderType
                  -> outcome (option CostEstimate.t))
  (m : TriArbModule) (path : TriangularPath) (edgeBps : FixedPrice.t)
  (mdTimestamp id now : Z) (signal : TradeSignal.t) :
buildSignal EstimateCost m path edgeBps mdTimestamp id now = Ok (Some signal) ->
exists levels,
  Forall2 (quoted m) (Legs path) levels /\
  Forall2 (sized (min_notional 999999999 levels))
          (combine (Legs path) levels) (TradeSignal.Legs signal) /\
  TradeSignal.Venue signal = venue m /\
  TradeSignal.Strategy signal = StrategyTriArb.
Proof.
unfold buildSignal.
destruct (quoteLegs m (Legs path) (NewFromInt 999999999)) as [[[specs ms] |] | p] eqn:Hq;
  try discriminate.
cbn [bind]. destruct (sizeLegs specs ms) as [legs | p] eqn:Hs; [| discriminate].
cbn [bind]. destruct legs as [| first rest] eqn:Hlegs; [discriminate |].
destruct (EstimateCost _ _ _ _ _) as [[costEst |] | p]; try discriminate.
cbn [bind]. destruct (LessThanOrEqual _ _); [discriminate |].
intros H. injection H as <-. cbn [TradeSignal.Legs TradeSignal.Venue TradeSignal.Strategy].
destruct (quoteLegs_spec m (Legs path) _ _ _ Hq) as (levels & Hquoted & Hspecs & Hmin).
pose proof (sizeLegs_spec ms specs _ Hs) as Hsized.
exists levels. split; [exact Hquoted |]. split; [| split; reflexivity].
rewrite <- Hlegs in *. clear Hlegs Hs Hq.
assert (Hcap : (toQ (NewFromInt 999999999) == 999999999)%Q) by reflexivity.
assert (Hn : (toQ ms == min_notional 999999999 levels)%Q).
{ rewrite Hmin. now apply min_notional_wd. }
clear Hmin Hquoted.
revert legs Hsized. induction Hspecs as [| [leg level] spec quotes specs' Hhd Htl IH];
  intros legs Hsized.
- inversion Hsized. constructor.
- inversion Hsized as [| ? leg' ? legs' Hleg Hrest]; subst. constructor; [| now apply IH].
  cbn [fst snd] in Hhd. destruct Hhd as (Hsym & Hside & Hinst & Htype & Hprice & Hsize).
  destruct Hleg as (Hsym' & Hside' & Hinst' & Htype' & Hprice' & Hpos & Hnonpos).
  unfold sized. rewrite Hprice in *.
  split; [congruence |]. split; [congruence |]. split; [congruence |].
  split; [congruence |]. split; [congruence |]. split.
  + intros Hp. specialize (Hpos Hp).
    assert (Hsame : (toQ ms / toQ (PriceLevel.Price level)
                     == min_notional 999999999 levels / toQ (PriceLevel.Price level))%Q)
      by now rewrite Hn.
    now rewrite <- Hsame.
  + intros Hp. rewrite (Hnonpos Hp). exact Hsize.
Qed.

Lemma signal_legs_share_the_smallest_notional_witness :
exists signal levels,
  buildSignal free_of_cost (example_module (NewFromInt 3001)) example_path
              16665650 0 1 0 = Ok (Some signal) /\
  Forall2 (quoted (example_module (NewFromInt 3001))) (Legs example_path) levels /\
  Forall2 (sized (min_notional 999999999 levels))
          (combine (Legs example_path) levels) (TradeSignal.Legs signal).
Proof.
eexists. 
assert (H : buildSignal free_of_cost (example_module (NewFromInt 3001)) example_path
              16665650 0 1 0 = Ok (Some _)) by (vm_compute; reflexivity).
destruct (signal_legs_share_the_smallest_notional free_of_cost _ _ _ _ _ _ _ H)
  as (levels & Hq & Hs & _).
exists levels. split; [exact H |]. split; [exact Hq | exact Hs].
Defined.

End strategy_facts.

(** ** Facts about package [execution] *)

Module execution_facts.
Import decimal domain execution decimal_facts domain_facts.

(** *** Retries *)

(** X20. A submission that fails is not tried again at the venue. With a
    non-empty idempotency key and at least one retry allowed, the second
    attempt finds the key the first attempt stored and returns the failed
    order without an error: [submitWithRetry] reports success with an
    order whose status is [SubmitFailed]. *)
Theorem submitWithRetry_returns_the_failed_order
  (maxRetries : Z) (cancelled : Z -> bool) (clock : Z -> Z)
  (req : OrderRequest.t) (m : order.Manager) (err : string) :
OrderRequest.IdempotencyKey req <> EmptyString ->
order.idempotencyMap m !! OrderRequest.IdempotencyKey req = None ->
1 <= maxRetries ->
cancelled 1 = false ->
snd (order.SubmitOrder (clock 0) req m) = order.Failed err ->
exists o,
  submitWithRetry maxRetries cancelled clock req m
  = (fst (fst (order.SubmitOrder (clock 0) req m)),
     snd (fst (order.SubmitOrder (clock 0) req m)),
     order.Returned (Some o)) /\
  Order.Status o = OrderStatusSubmitFailed /\
  order.orders (fst (fst (order.SubmitOrder (clock 0) req m)))
    !! OrderRequest.InternalID req = Some o.
Proof.
intros Hkey Hfresh Hretries Hctx Hfail.
pose proof (order_facts.SubmitOrder_fresh (clock 0) req m (or_intror Hfresh)) as Hnew.
destruct (order_facts.submitNew_stores (clock 0) req m Hkey) as (Hid & _ & o & Ho & Hres).
cbv zeta in Hid, Ho. rewrite <- Hnew in Hid, Ho, Hres.
assert (Hstatus : Order.Status o = OrderStatusSubmitFailed).
{ destruct Hres as [Hr | [(_ & Hs & _) | (_ & Hs & _)]]; try exact Hs. congruence. }
exists o. split; [| split; [exact Hstatus | exact Ho]].
unfold submitWithRetry.
destruct (Z.to_nat (maxRetries + 1)) as [| [| n]] eqn:Hn; try lia.
cbn [attempts]. change (0 <? 0) with false. cbn [andb].
destruct (order.SubmitOrder (clock 0) req m) as [[m1 es1] r] eqn:Hfirst.
cbn [fst snd] in *. subst r.
change (0 + 1) with 1. change (0 <? 1) with true. rewrite Hctx. cbn [andb].
rewrite (order_facts.SubmitOrder_existing (clock 1) req m1
           (OrderRequest.InternalID req) o Hkey Hid Ho).
now rewrite app_nil_r.
Qed.

Lemma submitWithRetry_returns_the_failed_order_witness :
exists o,
  submitWithRetry 3 (fun _ => false) (fun k => k)
    (order.example_request 1 "elsewhere" "s-leg-0") order.example_manager
  = (fst (fst (order.SubmitOrder 0 (order.example_request 1 "elsewhere" "s-leg-0")
                                 order.example_manager)),
     snd (fst (order.SubmitOrder 0 (order.example_request 1 "elsewhere" "s-leg-0")
                                 order.example_manager)),
     order.Returned (Some o)) /\
  Order.Status o = OrderStatusSubmitFailed.
Proof.
destruct (submitWithRetry_returns_the_failed_order 3 (fun _ => false) (fun k => k)
            (order.example_request 1 "elsewhere" "s-leg-0") order.example_manager
            "unknown venue" ltac:(discriminate) eq_refl ltac:(lia) eq_refl eq_refl)
  as (o & Hrun & Hstatus & _).
exists o. split; [exact Hrun | exact Hstatus].
Defined.

(** *** The quality tracker *)

Lemma toQ_fold_slippage (rs : list FillQualityRecord) (acc : Decimal) :
(toQ (fold_left (fun sum r => Add sum (SlippageBps r)) rs acc)
 == toQ acc + sum_slippage rs)%Q.
Proof.
revert acc. induction rs as [| r rest IH]; intros acc; cbn [fold_left sum_slippage fold_right].
- ring.
- rewrite IH, toQ_Add. fold (sum_slippage rest). ring.
Qed.

(** X21. [RecordFill] on a tracker built by [NewQualityTracker] never panics
    and never holds more than [maxSize] records: it appends the new
    record and keeps the newest [maxSize]. A fill with an expected price
    of zero is not recorded. The recorded slippage is the relative price
    difference in basis points, rounded: less than [10^-12] away from
    it. *)
Theorem RecordFill_keeps_the_newest (symbol side : string) (expected actual : Decimal)
  (qt : QualityTracker) :
0 <= maxSize qt <= Int64.max_int ->
Z.of_nat (length (records qt)) <= maxSize qt ->
exists qt',
  RecordFill symbol side expected actual qt = Returns qt' /\
  maxSize qt' = maxSize qt /\
  Z.of_nat (length (records qt')) <= maxSize qt' /\
  (IsZero expected = true -> qt' = qt) /\
  (IsZero expected = false ->
   exists r,
     records qt' = drop (length (records qt) + 1 - Z.to_nat (maxSize qt))
                        (records qt ++ [r]) /\
     Symbol r = symbol /\ Side r = side /\
     ExpectedPrice r = expected /\ ActualPrice r = actual /\
     (Qabs (toQ (SlippageBps r) - slippage_bps side expected actual)
      <= (1 # 2) * ten ^ (-12))%Q).
Proof.
unfold Int64.max_int. intros Hmax Hlen. unfold RecordFill.
destruct (IsZero expected) eqn:Hz.
- exists qt. repeat split; try assumption; try reflexivity. discriminate.
- destruct (Div_total (Sub actual expected) expected Hz) as (ratio & Hdiv).
  rewrite Hdiv. pose proof (Div_spec _ _ _ Hdiv) as Herr. rewrite toQ_Sub in Herr.
  set (slippage := if String.eqb side "SELL"
                   then Neg (Mul ratio (NewFromInt 10000))
                   else Mul ratio (NewFromInt 10000)).
  set (r := mkRecord symbol side expected actual slippage).
  assert (Hslip : (Qabs (toQ slippage - slippage_bps side expected actual)
                   <= (1 # 2) * ten ^ (-12))%Q).
  { unfold slippage, slippage_bps.
    set (x := ((toQ actual - toQ expected) / toQ expected)%Q) in *.
    assert (Hscale : ((1 # 2) * ten ^ (-12)
                      == 10000 * ((1 # 2) * ten ^ (- DivisionPrecision)))%Q)
      by reflexivity.
    rewrite Hscale.
    assert (Hbound : (Qabs ((toQ ratio - x) * 10000)
                      <= 10000 * ((1 # 2) * ten ^ (- DivisionPrecision)))%Q).
    { rewrite Qabs_Qmult.
      assert (Qabs 10000 == 10000)%Q as -> by reflexivity.
      assert (0 <= Qabs (toQ ratio - x))%Q by apply Qabs_nonneg. nra. }
    destruct (String.eqb side "SELL").
    - rewrite toQ_Neg, toQ_Mul, toQ_NewFromInt.
      assert (Hre : (- (toQ ratio * inject_Z 10000) - - (x * 10000)
                     == - ((toQ ratio - x) * 10000))%Q)
        by (change (inject_Z 10000) with 10000%Q; ring).
      rewrite Hre, Qabs_opp. exact Hbound.
    - rewrite toQ_Mul, toQ_NewFromInt.
      assert (Hre : (toQ ratio * inject_Z 10000 - x * 10000
                     == (toQ ratio - x) * 10000)%Q)
        by (change (inject_Z 10000) with 10000%Q; ring).
      rewrite Hre. exact Hbound. }
  fold slippage. fold r.
  assert (Happ : length (records qt ++ [r]) = S (length (records qt)))
    by (rewrite length_app; cbn [length]; lia).
  destruct (Z.ltb_spec (maxSize qt) (Z.of_nat (length (records qt ++ [r]))))
    as [Hover | Hfits].
  + unfold slice_from, Int64.sub.
    rewrite Int64_facts.wrap_small
      by (unfold Int64.in_range, Int64.min_int, Int64.max_int; lia).
    destruct (Z.ltb_spec (Z.of_nat (length (records qt ++ [r])) - maxSize qt) 0);
      [lia |].
    destruct (Z.ltb_spec (Z.of_nat (length (records qt ++ [r])))
                (Z.of_nat (length (records qt ++ [r])) - maxSize qt)); [lia |].
    cbn [orb]. eexists. split; [reflexivity |].
    cbn [maxSize records]. split; [reflexivity |]. split.
    * rewrite length_drop. lia.
    * split; [discriminate |]. intros _. exists r. split.
      -- f_equal. lia.
      -- repeat split; try reflexivity. exact Hslip.
  + eexists. split; [reflexivity |]. cbn [maxSize records].
    split; [reflexivity |]. split; [lia |]. split; [discriminate |].
    intros _. exists r. split.
    * replace (length (records qt) + 1 - Z.to_nat (maxSize qt))%nat with 0%nat by lia.
      reflexivity.
    * repeat split; try reflexivity. exact Hslip.
Qed.

Lemma RecordFill_keeps_the_newest_witness :
0 <= maxSize (mkTracker [] 1) <= Int64.max_int /\
Z.of_nat (length (records (mkTracker [] 1))) <= maxSize (mkTracker [] 1) /\
exists qt',
  RecordFill "BTC/USDT" "BUY" (NewFromInt 50000) (NewFromInt 50010) (mkTracker [] 1)
  = Returns qt' /\
  Z.of_nat (length (records qt')) <= maxSize qt'.
Proof.
assert (H1 : 0 <= maxSize (mkTracker [] 1) <= Int64.max_int)
  by (unfold Int64.max_int; cbn; lia).
assert (H2 : Z.of_nat (length (records (mkTracker [] 1))) <= maxSize (mkTracker [] 1))
  by (cbn; lia).
split; [exact H1 |]. split; [exact H2 |].
destruct (RecordFill_keeps_the_newest "BTC/USDT" "BUY" (NewFromInt 50000)
            (NewFromInt 50010) (mkTracker [] 1) H1 H2) as (qt' & Hrun & _ & Hlen & _).
exists qt'. split; [exact Hrun | exact Hlen].
Defined.

(** X22. [AverageSlippageBps] never panics: it is zero for an empty tracker
    and otherwise the mean of the recorded slippages, rounded to sixteen
    fractional digits. *)
Theorem AverageSlippageBps_spec (qt : QualityTracker) :
exists avg,
  AverageSlippageBps qt = Returns avg /\
  (records qt = [] -> avg = Zero) /\
  (records qt <> [] ->
   (Qabs (toQ avg - sum_slippage (records qt)
                    / inject_Z (Z.of_nat (length (records qt))))
    <= (1 # 2) * ten ^ (- DivisionPrecision))%Q).
Proof.
unfold AverageSlippageBps. destruct (records qt) as [| r rest] eqn:Hrs.
- exists Zero. split; [reflexivity |]. split; [reflexivity | congruence].
- rewrite <- Hrs.
  assert (Hn : IsZero (NewFromInt (Z.of_nat (length (records qt)))) = false).
  { unfold IsZero, NewFromInt. cbn [value]. rewrite Hrs. cbn [length].
    apply Z.eqb_neq. lia. }
  destruct (Div_total (fold_left (fun sum r => Add sum (SlippageBps r)) (records qt) Zero)
              _ Hn) as (avg & Hdiv).
  rewrite Hdiv. exists avg. split; [reflexivity |].
  split; [intros H; rewrite Hrs in H; discriminate |]. intros _.
  pose proof (Div_spec _ _ _ Hdiv) as Herr.
  rewrite toQ_fold_slippage, toQ_Zero, toQ_NewFromInt in Herr.
  assert (Hz : (0 + sum_slippage (records qt) == sum_slippage (records qt))%Q) by ring.
  now rewrite Hz in Herr.
Qed.

End execution_facts.

(** ** Facts about package [portfolio] *)

Module portfolio_facts.
Import decimal domain portfolio decimal_facts domain_facts.

(** X29. The total of every balance is the sum of its free and locked parts,
    at the start and after every update. A fill changes only the balance
    kept under the venue and the asset of the order's symbol, by the
    notional of the fill: down for a buy, up for a sell; without such a
    balance the fill changes nothing. *)
Theorem balances_add_up (m : Manager) :
balanced m ->
(forall today, balanced (NewManager today)) /\
(forall venue asset free locked, balanced (UpdateBalance venue asset free locked m)) /\
(forall order, balanced (OnFillEvent order m)) /\
(forall order,
   let key := (Order.Venue order, extractAsset (Order.Symbol order)) in
   let notional := (toQ (Order.AvgFillPrice order) * toQ (Order.FilledSize order))%Q in
   (forall other, other <> key ->
      spotBalances (OnFillEvent order m) !! other = spotBalances m !! other) /\
   match spotBalances m !! key with
   | None => OnFillEvent order m = m
   | Some bal =>
       exists bal',
         spotBalances (OnFillEvent order m) !! key = Some bal' /\
         Balance.Locked bal' = Balance.Locked bal /\
         (toQ (Balance.Free bal')
          == match Order.Side order with
             | SideBuy => toQ (Balance.Free bal) - notional
             | SideSell => toQ (Balance.Free bal) + notional
             end)%Q
   end).
Proof.
intros Hbal. split; [| split; [| split]].
- intros today key bal H. unfold NewManager in H. cbn [spotBalances] in H.
  rewrite lookup_empty in H. discriminate.
- intros venue asset free locked key bal H. unfold UpdateBalance, setBalances in H.
  cbn [spotBalances] in H.
  destruct (decide ((venue, asset) = key)) as [<- | Hne].
  + rewrite lookup_insert_eq in H. injection H as <-. reflexivity.
  + rewrite lookup_insert_ne in H by exact Hne. now apply (Hbal key).
- intros order key bal H. unfold OnFillEvent in H.
  destruct (spotBalances m !! (Order.Venue order, extractAsset (Order.Symbol order)))
    as [old |] eqn:Hold; [| now apply (Hbal key)].
  unfold setBalances in H. cbn [spotBalances] in H.
  destruct (decide ((Order.Venue order, extractAsset (Order.Symbol order)) = key))
    as [<- | Hne].
  + rewrite lookup_insert_eq in H. injection H as <-. reflexivity.
  + rewrite lookup_insert_ne in H by exact Hne. now apply (Hbal key).
- intros order. cbv zeta. unfold OnFillEvent.
  destruct (spotBalances m !! (Order.Venue order, extractAsset (Order.Symbol order)))
    as [old |] eqn:Hold.
  + unfold setBalances. cbn [spotBalances]. split.
    * intros other Hne. now rewrite lookup_insert_ne.
    * rewrite lookup_insert_eq. eexists. split; [reflexivity |].
      cbn [Balance.Locked Balance.Free]. split; [reflexivity |].
      destruct (Order.Side order); [rewrite toQ_Sub | rewrite toQ_Add];
        rewrite toQ_Mul; reflexivity.
  + split; [reflexivity | reflexivity].
Qed.

Lemma balances_add_up_witness :
balanced (NewManager 0) /\
balanced (OnFillEvent risk.example_fill
            (UpdateBalance "nobitex" "BTC" (NewFromInt 2) (NewFromInt 1) (NewManager 0))).
Proof.
assert (H0 : balanced (NewManager 0)).
{ intros key bal H. unfold NewManager in H. cbn [spotBalances] in H.
  rewrite lookup_empty in H. discriminate. }
split; [exact H0 |].
destruct (balances_add_up (NewManager 0) H0) as (_ & Hupd & _).
destruct (balances_add_up _ (Hupd "nobitex" "BTC" (NewFromInt 2) (NewFromInt 1)))
  as (_ & _ & Hfill & _).
exact (Hfill risk.example_fill).
Defined.

End portfolio_facts.

(** ** Facts about package [monitor] *)

Module monitor_facts.
Import monitor.

Lemma filter_map_ack (now : Z) (name : string) (l : list Alert) :
List.filter unacked
  (map (fun a =>
          if String.eqb (Name a) name && unacked a
          then mkAlert (Level a) (Name a) (Condition a) (Message a) (FiredAt a) (Some now)
          else a) l)
= List.filter (fun a => negb (String.eqb (Name a) name)) (List.filter unacked l).
Proof.
induction l as [| a l IH]; [reflexivity |]. cbn [map List.filter].
destruct (String.eqb (Name a) name) eqn:Hn, (unacked a) eqn:Hu; cbn [andb];
  cbn [List.filter]; rewrite ?Hu, ?Hn; cbn [unacked AckedAt negb]; now rewrite IH.
Qed.

(** X30. Acknowledging a name removes from the active alerts exactly the
    alerts of that name and keeps the others in order; alerts
    acknowledged earlier keep their time. An alert fired afterwards under
    the same name is active again. *)
Theorem AcknowledgeAlert_spec (now : Z) (name : string) (am : AlertManager) :
ActiveAlerts (AcknowledgeAlert now name am)
= List.filter (fun a => negb (String.eqb (Name a) name)) (ActiveAlerts am) /\
(forall a t, In a (alerts am) -> AckedAt a = Some t ->
             In a (alerts (AcknowledgeAlert now name am))) /\
length (alerts (AcknowledgeAlert now name am)) = length (alerts am) /\
(forall later level condition message,
   ActiveAlerts (fst (Fire later level name condition message
                           (AcknowledgeAlert now name am)))
   = ActiveAlerts (AcknowledgeAlert now name am)
     ++ [mkAlert level name condition message later None]).
Proof.
unfold ActiveAlerts, AcknowledgeAlert, Fire. cbn [alerts fst].
split; [apply filter_map_ack |]. split; [| split].
- intros a t Hin Hack. apply in_map_iff. exists a. split; [| exact Hin].
  unfold unacked. rewrite Hack. now rewrite andb_false_r.
- apply length_map.
- intros later level condition message. rewrite List.filter_app. reflexivity.
Qed.

End monitor_facts.
